(** * CritterAI interop layer (nav-rcn / nmgen-rcn): a shallow embedding

    The development follows the C++ sources of the interop layer:

    - [BuildContext.cpp]        the bounded message arena of [nmgBuildContext];
    - [PolyMeshDetailEx.cpp]    vertex de-duplication, flattening and the
                                detail-mesh record serializer;
    - [PolyMeshEx.cpp]          the polygon-mesh record serializer;
    - [DetourNavMeshBuildEx.cpp], [DetourNavmeshEx.cpp]
                                tile data ownership and the tile-set archive.

    Data model.  The sources are written for the 32-bit plugin ABI: [int],
    [long] and pointers are four bytes wide and the record headers are copied
    with [memcpy] between structures whose integer fields are laid out
    back to back.  An [int] is a [Z]; the sizes, offsets and counters that
    the sources compute in an [int] are wrapped to 32 bits ([int32]), and
    loop indices that stay below an array length are plain numbers.  A byte
    is a [Z] in [0, 256).  A [float] is an IEEE 754 binary32 number where
    the sources compute with coordinates, and the four-byte word it is
    stored in where they copy it.  Memory that the sources obtain from [rcAlloc]/[dtAlloc] lives
    in a heap of blocks; a pointer is a block address and [0] is the null
    pointer.  An access outside a block, a copy of negative length or the
    release of a block that is not live is a [Fault]: the C++ program has no
    defined behaviour there. *)

From stdpp Require Import gmap list.
From Stdlib Require Import ZArith QArith Qabs Lia SpecFloat.

Open Scope Z_scope.

(** ** Outcomes of memory-touching code *)

Inductive fault : Type :=
  | OutOfBoundsRead
  | OutOfBoundsWrite
  | NegativeLength
  | InvalidFree
  | IndeterminateValue.

Inductive outcome (A : Type) : Type :=
  | Ok (a : A)
  | Fault (f : fault).
Arguments Ok {A} a.
Arguments Fault {A} f.

#[global] Instance outcome_ret : MRet outcome := fun A a => Ok a.
#[global] Instance outcome_bind : MBind outcome := fun A B k c =>
  match c with
  | Ok a => k a
  | Fault f => Fault f
  end.

(** ** Machine integers *)

(** Two's complement wrap-around of a 32-bit [int]. *)
Definition int32 (z : Z) : Z := (z + 2147483648) mod 4294967296 - 2147483648.

(** Conversion of an [int] to the 32-bit unsigned [size_t]. *)
Definition uint32 (z : Z) : Z := z mod 4294967296.

Definition in_int32 (z : Z) : Prop := -2147483648 <= z < 2147483648.


(** ** Byte buffers *)

(** [memcpy(&mem[off], src, n)] on a buffer of known extent. *)
Definition store_bytes (mem : list Z) (off : Z) (src : list Z) (n : Z)
  : outcome (list Z) :=
  if n <? 0 then Fault NegativeLength
  else if Z.of_nat (length src) <? n then Fault OutOfBoundsRead
  else if (off <? 0) || (Z.of_nat (length mem) <? off + n)
       then Fault OutOfBoundsWrite
  else Ok (take (Z.to_nat off) mem ++ take (Z.to_nat n) src
             ++ drop (Z.to_nat (off + n)) mem).

(** [mem[i] = v]. *)
Definition store_at {A} (mem : list A) (i : Z) (v : A) : outcome (list A) :=
  if (i <? 0) || (Z.of_nat (length mem) <=? i) then Fault OutOfBoundsWrite
  else Ok (<[Z.to_nat i := v]> mem).

(** The [n] bytes at [&mem[off]]. *)
Definition load_bytes (mem : list Z) (off n : Z) : outcome (list Z) :=
  if n <? 0 then Fault NegativeLength
  else if (off <? 0) || (Z.of_nat (length mem) <? off + n)
       then Fault OutOfBoundsRead
  else Ok (take (Z.to_nat n) (drop (Z.to_nat off) mem)).


(** * The bounded message arena ([BuildContext.cpp]) *)

Module BuildContext.

Definition MAX_MESSAGES : Z := 1024.
Definition MESSAGE_POOL_SIZE : Z := 65536.

(** [mMessages] holds pointers into [mTextPool]; a pointer [&mTextPool[k]]
    is kept as the offset [k]. *)
Record nmgBuildContext : Type := mkContext {
  m_logEnabled : bool;
  mMessages : list Z;
  mMessageCount : Z;
  mTextPool : list Z;
  mTextPoolSize : Z
}.

(** The constructor initialises the two counters and enables the log; the
    two arrays are left as the memory of the new object happens to be, so
    their first contents are arguments here. *)
Definition nmgBuildContext_new (messages0 pool0 : list Z) : nmgBuildContext :=
  {| m_logEnabled := true;
     mMessages := messages0;
     mMessageCount := 0;
     mTextPool := pool0;
     mTextPoolSize := 0 |}.

Definition getLogEnabled (ctx : nmgBuildContext) : bool := m_logEnabled ctx.

Definition enableLog (ctx : nmgBuildContext) (state : bool) : nmgBuildContext :=
  {| m_logEnabled := state;
     mMessages := mMessages ctx;
     mMessageCount := mMessageCount ctx;
     mTextPool := mTextPool ctx;
     mTextPoolSize := mTextPoolSize ctx |}.

Definition doResetLog (ctx : nmgBuildContext) : nmgBuildContext :=
  {| m_logEnabled := m_logEnabled ctx;
     mMessages := mMessages ctx;
     mMessageCount := 0;
     mTextPool := mTextPool ctx;
     mTextPoolSize := 0 |}.

(** [doLog(category, message, messageLength)]; the category is ignored by
    the source and is left out. *)
Definition doLog (ctx : nmgBuildContext) (message : list Z) (messageLength : Z)
  : outcome nmgBuildContext :=
  if negb (getLogEnabled ctx)
     || (messageLength =? 0)
     || (MAX_MESSAGES <=? mMessageCount ctx)
  then Ok ctx
  else
    let remainingSpace := int32 (MESSAGE_POOL_SIZE - mTextPoolSize ctx) in
    if remainingSpace <? 1 then Ok ctx
    else
      let realLength :=
        Z.min (int32 (messageLength + 1)) (int32 (remainingSpace - 1)) in
      let pEntry := mTextPoolSize ctx in
      pool1 ← store_bytes (mTextPool ctx) pEntry message realLength;
      pool2 ← store_at pool1 (pEntry + (realLength - 1)) 0;
      msgs ← store_at (mMessages ctx) (mMessageCount ctx) pEntry;
      Ok {| m_logEnabled := m_logEnabled ctx;
            mMessages := msgs;
            mMessageCount := int32 (mMessageCount ctx + 1);
            mTextPool := pool2;
            mTextPoolSize := int32 (mTextPoolSize ctx + realLength) |}.

Definition getMessageCount (ctx : nmgBuildContext) : Z := mMessageCount ctx.

(** [getMessage(i)] returns the stored pointer; outside the table the read
    has no defined result. *)
Definition getMessage (ctx : nmgBuildContext) (i : Z) : option Z :=
  if i <? 0 then None else mMessages ctx !! Z.to_nat i.

Definition getMessagePoolLength (ctx : nmgBuildContext) : Z := mTextPoolSize ctx.
Definition getMessagePool (ctx : nmgBuildContext) : list Z := mTextPool ctx.

(** A sequence of arena operations. *)
Inductive arena_op : Type :=
  | OpLog (message : list Z) (messageLength : Z)
  | OpReset.

Definition apply_op (ctx : nmgBuildContext) (op : arena_op)
  : outcome nmgBuildContext :=
  match op with
  | OpLog message messageLength => doLog ctx message messageLength
  | OpReset => Ok (doResetLog ctx)
  end.

Fixpoint run_ops (ctx : nmgBuildContext) (ops : list arena_op)
  : outcome nmgBuildContext :=
  match ops with
  | [] => Ok ctx
  | op :: rest => ctx' ← apply_op ctx op; run_ops ctx' rest
  end.

(** The C string that starts at [&mTextPool[off]] ends inside the pool. *)
Definition terminated_in_pool (ctx : nmgBuildContext) (off : Z) : bool :=
  (0 <=? off) && existsb (Z.eqb 0) (drop (Z.to_nat off) (mTextPool ctx)).

(** What [rcContext::log] hands to [doLog] for a text of [n] characters
    [c]: the characters, the terminating NUL, and the length [n]. *)
Definition text_op (c : Z) (n : nat) : arena_op :=
  OpLog (replicate n c ++ [0]) (Z.of_nat n).

End BuildContext.

(** * Vertex de-duplication and flattening ([NMGen.h], [PolyMeshDetailEx.cpp]) *)

Module NMGen.

(** [nmgSloppyEquals] is a template over the scalar type [T]; what it needs
    of [T] is the order and the two operations applied to the tolerance. *)
Class Scalar (T : Type) : Type := {
  s_lt : T -> T -> bool;
  s_add : T -> T -> T;
  s_sub : T -> T -> T;
  NMG_TOLERANCE : T;
  s_zero : T
}.

#[global] Instance scalar_inhabited {T} `{Scalar T} : Inhabited T :=
  populate s_zero.

Definition nmgSloppyEquals {T} `{Scalar T} (a b : T) : bool :=
  negb (s_lt b (s_sub a NMG_TOLERANCE) || s_lt (s_add a NMG_TOLERANCE) b).

(** A [float] is an IEEE 754 binary32 number: 24 bits of precision,
    exponents below 128, no payload in a NaN.  The sources are compiled
    to compute a [float] expression in single precision, rounding to the
    nearest number, ties to even. *)
Definition float : Type := spec_float.

(** The [float] nearest to [m * 2 ^ e]. *)
Definition f32 (m e : Z) : float := binary_normalize 24 128 m e false.

(** The instance at which the sources use the template:
    [b < a - NMG_TOLERANCE] and [b > a + NMG_TOLERANCE] on [float]s, with
    [NMG_TOLERANCE = 0.0001f], the [float] [13743895 * 2 ^ -37].  A
    comparison with a NaN is false. *)
#[global] Instance float_scalar : Scalar float := {|
  s_lt := SFltb;
  s_add := SFadd 24 128;
  s_sub := SFsub 24 128;
  NMG_TOLERANCE := f32 13743895 (-37);
  s_zero := S754_zero false
|}.

(** The [float] of an integer literal, and an array of such. *)
Definition fz (z : Z) : float := f32 z 0.
Definition floats (zs : list Z) : list float := map fz zs.

Definition NMG_ALLOC_TYPE_EXTERN : Z := 0.
Definition NMG_ALLOC_TYPE_LOCAL : Z := 1.
Definition NMG_ALLOC_TYPE_MANAGED_LOCAL : Z := 2.

Section Dedup.
Context {T : Type} `{Scalar T}.

(** The three-way test of the inner loop, on the vertex that starts at
    [sourceVerts[pi]] and the one that starts at [resultVerts[pj]]. *)
Definition seen_at (sourceVerts resultVerts : list T) (pi pj : nat) : bool :=
  nmgSloppyEquals (sourceVerts !!! (pi + 0)%nat) (resultVerts !!! (pj + 0)%nat)
  && nmgSloppyEquals (sourceVerts !!! (pi + 1)%nat) (resultVerts !!! (pj + 1)%nat)
  && nmgSloppyEquals (sourceVerts !!! (pi + 2)%nat) (resultVerts !!! (pj + 2)%nat).

(** The inner loop [for (j ...; j < resultCount; j++)] from [j] on, with
    [n] iterations left; the value is [index] after the loop. *)
Fixpoint seen_index (sourceVerts resultVerts : list T) (pi resultCount : nat)
    (n j : nat) : nat :=
  match n with
  | O => resultCount
  | S n' =>
      if seen_at sourceVerts resultVerts pi (j * 3)
      then j
      else seen_index sourceVerts resultVerts pi resultCount n' (S j)
  end.

(** The state of the outer loop: [resultCount], [resultVerts], [indicesMap]. *)
Definition dedup_state : Type := (nat * list T * list nat)%type.

(** One iteration of the outer loop, at vertex [i]. *)
Definition dedup_step (sourceVerts : list T) (st : dedup_state) (i : nat)
  : dedup_state :=
  let '(resultCount, resultVerts, indicesMap) := st in
  let pi := (i * 3)%nat in
  let index := seen_index sourceVerts resultVerts pi resultCount resultCount 0 in
  let indicesMap := <[i := index]> indicesMap in
  if (index =? resultCount)%nat
  then
    let resultVerts :=
      <[(resultCount * 3 + 2)%nat := sourceVerts !!! (pi + 2)%nat]>
        (<[(resultCount * 3 + 1)%nat := sourceVerts !!! (pi + 1)%nat]>
           (<[(resultCount * 3 + 0)%nat := sourceVerts !!! (pi + 0)%nat]>
              resultVerts)) in
    (S resultCount, resultVerts, indicesMap)
  else (resultCount, resultVerts, indicesMap).

(** [removeDuplicateVerts(vertCount, sourceVerts, resultVerts, indicesMap)]
    returns [resultCount] and leaves the two output arrays written.  The
    source requires [sourceVerts] and [resultVerts] to hold [vertCount * 3]
    values and [indicesMap] to hold [vertCount]. *)
Definition removeDuplicateVerts (vertCount : nat) (sourceVerts resultVerts : list T)
    (indicesMap : list nat) : dedup_state :=
  foldl (dedup_step sourceVerts) (O, resultVerts, indicesMap) (seq 0 vertCount).

(** The vertex [(x, y, z)] stored at index [i] of a flat array. *)
Definition vert_at (vs : list T) (i : nat) : T * T * T :=
  (vs !!! (i * 3 + 0)%nat, vs !!! (i * 3 + 1)%nat, vs !!! (i * 3 + 2)%nat).

(** Equality within the tolerance on all three axes. *)
Definition vert_sloppy_eq (a b : T * T * T) : bool :=
  nmgSloppyEquals a.1.1 b.1.1 && nmgSloppyEquals a.1.2 b.1.2
  && nmgSloppyEquals a.2 b.2.

(** [rcPolyMeshDetail] with its arrays by value: [meshes] holds four
    unsigned values per sub-mesh, [verts] three coordinates per vertex,
    [tris] four bytes per triangle. *)
Record rcPolyMeshDetail : Type := mkDetail {
  meshes : list Z;
  verts : list T;
  tris : list Z;
  nmeshes : Z;
  nverts : Z;
  ntris : Z
}.

(** The caller's side of [rcpdFlattenMesh]: the two output arrays and the
    two output counts, each behind a pointer ([None] is the null pointer). *)
Record flatten_out : Type := mkOut {
  out_verts : option (list T);
  out_vertCount : option Z;
  out_tris : option (list Z);
  out_triCount : option Z
}.

Definition load_at {A} (mem : list A) (i : Z) : outcome A :=
  if i <? 0 then Fault OutOfBoundsRead
  else match mem !! Z.to_nat i with
       | Some v => Ok v
       | None => Fault OutOfBoundsRead
       end.

(** The innermost loop [for (i = 0; i < 3; i++)] of the re-mapping. *)
Fixpoint remap_corners (dm : rcPolyMeshDetail) (vertMap : list nat)
    (vBase triStart : Z) (n : nat) (i : Z) (st : list Z * Z)
  : outcome (list Z * Z) :=
  match n with
  | O => Ok st
  | S n' =>
      let '(outTris, pCurrentTri) := st in
      corner ← load_at (tris dm) (triStart + i);
      v ← load_at vertMap (int32 (vBase + corner));
      outTris ← store_at outTris pCurrentTri (Z.of_nat v);
      remap_corners dm vertMap vBase triStart n' (i + 1)
        (outTris, int32 (pCurrentTri + 1))
  end.

(** The loop over the triangles of one sub-mesh. *)
Fixpoint remap_tris (dm : rcPolyMeshDetail) (vertMap : list nat)
    (vBase tBase : Z) (n : nat) (iTri : Z) (st : list Z * Z)
  : outcome (list Z * Z) :=
  match n with
  | O => Ok st
  | S n' =>
      st ← remap_corners dm vertMap vBase (int32 (int32 (tBase + iTri) * 4))
             3 0 st;
      remap_tris dm vertMap vBase tBase n' (iTri + 1) st
  end.

(** The loop over the sub-meshes. *)
Fixpoint remap_meshes (dm : rcPolyMeshDetail) (vertMap : list nat)
    (n : nat) (iMesh : Z) (st : list Z * Z) : outcome (list Z * Z) :=
  match n with
  | O => Ok st
  | S n' =>
      vBase ← load_at (meshes dm) (iMesh * 4 + 0);
      tBase ← load_at (meshes dm) (iMesh * 4 + 2);
      tCount ← load_at (meshes dm) (iMesh * 4 + 3);
      st ← remap_tris dm vertMap (int32 vBase) (int32 tBase)
             (Z.to_nat (int32 tCount)) 0 st;
      remap_meshes dm vertMap n' (iMesh + 1) st
  end.

(** [memcpy(verts, uniqueVerts, sizeof(float) * count * 3)] on arrays of
    scalars. *)
Definition copy_verts (dst src : list T) (count : nat) : outcome (list T) :=
  if (length dst <? count * 3)%nat then Fault OutOfBoundsWrite
  else Ok (take (count * 3) src ++ drop (count * 3) dst).

(** [rcpdFlattenMesh]; the result is the returned flag and the caller's
    outputs after the call.  The two [new] arrays start with contents that
    are never read before they are written.  A negative vertex count makes
    the [new] fail, and a vertex array shorter than the count is read
    outside its bounds: both are faults. *)
Definition rcpdFlattenMesh (detailMesh : option rcPolyMeshDetail)
    (out : flatten_out) (vertsSize trisSize : Z)
  : outcome (bool * flatten_out) :=
  match detailMesh, out_verts out, out_vertCount out, out_tris out,
        out_triCount out with
  | Some dm, Some outVerts, Some _, Some outTris, Some _ =>
      if trisSize <? ntris dm then Ok (false, out)
      else if nverts dm <? 0 then Fault NegativeLength
      else if Z.of_nat (length (verts dm)) <? nverts dm * 3
           then Fault OutOfBoundsRead
      else
        let n := Z.to_nat (nverts dm) in
        let uniqueVerts := replicate (n * 3) s_zero in
        let vertMap := replicate n O in
        let '(resultVertCount, uniqueVerts, vertMap) :=
          removeDuplicateVerts n (verts dm) uniqueVerts vertMap in
        if vertsSize <? Z.of_nat resultVertCount then Ok (false, out)
        else
          outVerts ← copy_verts outVerts uniqueVerts resultVertCount;
          '(outTris, _) ← remap_meshes dm vertMap (Z.to_nat (nmeshes dm)) 0
                            (outTris, 0);
          Ok (true, {| out_verts := Some outVerts;
                       out_vertCount := Some (Z.of_nat resultVertCount);
                       out_tris := Some outTris;
                       out_triCount := Some (ntris dm) |})
  | _, _, _, _, _ => Ok (false, out)
  end.

End Dedup.

Arguments rcPolyMeshDetail T : clear implicits.
Arguments flatten_out T : clear implicits.

End NMGen.

(** * The heap of [rcAlloc] / [dtAlloc] blocks *)

(** Little-endian layout of an integer field of [n] bytes. *)
Fixpoint le_encode (n : nat) (v : Z) : list Z :=
  match n with
  | O => []
  | S n' => (v mod 256) :: le_encode n' (v / 256)
  end.

Fixpoint le_decode (bs : list Z) : Z :=
  match bs with
  | [] => 0
  | b :: rest => b + 256 * le_decode rest
  end.

Definition encode_int (v : Z) : list Z := le_encode 4 v.
Definition decode_int (bs : list Z) : Z := int32 (le_decode bs).

(** The [i]-th four-byte field of a structure image. *)
Definition field (bs : list Z) (i : nat) : list Z := take 4 (drop (i * 4) bs).

(** [sizeof(T) * count] computed in [size_t] and stored in an [int]. *)
Definition sizeof_times (k count : Z) : Z := int32 (uint32 (k * uint32 count)).

Module Heap.

(** A pointer is the address of a block; [0] is the null pointer. *)
Definition ptr : Type := nat.

(** [blocks] are the live blocks; [next_block] numbers the blocks handed
    out so far; [alloc_budget] lists the fate of the coming allocation
    requests ([true]: memory is available), and a request beyond the list
    finds no memory. *)
Record heap : Type := mkHeap {
  blocks : gmap nat (list Z);
  next_block : nat;
  alloc_budget : list bool
}.

(** The bytes of a fresh block are whatever the allocator left there. *)
Definition fresh_byte : Z := 205.

(** [rcAlloc(size, hint)] and [dtAlloc(size, hint)].  The size reaches
    [malloc] as a [size_t]; a negative [int] is a request of two gigabytes
    or more and finds no memory.  A granted request of size zero gets a
    block of no bytes and a pointer that is not null. *)
Definition alloc (size : Z) (h : heap) : ptr * heap :=
  match alloc_budget h with
  | [] => (O, h)
  | granted :: rest =>
      if granted && (0 <=? size)
      then (S (next_block h),
            {| blocks := <[S (next_block h) :=
                            replicate (Z.to_nat size) fresh_byte]> (blocks h);
               next_block := S (next_block h);
               alloc_budget := rest |})
      else (O, {| blocks := blocks h;
                  next_block := next_block h;
                  alloc_budget := rest |})
  end.

(** The allocation of an object that is not an array of bytes (the tile
    container and its slot table): it takes the next answer of the
    allocator and adds no block of bytes. *)
Definition alloc_object (h : heap) : bool * heap :=
  match alloc_budget h with
  | [] => (false, h)
  | granted :: rest =>
      (granted, {| blocks := blocks h;
                   next_block := next_block h;
                   alloc_budget := rest |})
  end.

(** [rcFree(p)] and [dtFree(p)]: nothing for the null pointer; releasing
    what is not a live block is a fault. *)
Definition free (p : ptr) (h : heap) : outcome heap :=
  match p with
  | O => Ok h
  | S _ =>
      match blocks h !! p with
      | Some _ => Ok {| blocks := delete p (blocks h);
                        next_block := next_block h;
                        alloc_budget := alloc_budget h |}
      | None => Fault InvalidFree
      end
  end.

(** [memcpy(dst, &p[off], n)], into a local: the [n] bytes read. *)
Definition load (p : ptr) (off n : Z) (h : heap) : outcome (list Z) :=
  if n =? 0 then Ok []
  else match blocks h !! p with
       | Some b => load_bytes b off n
       | None => if n <? 0 then Fault NegativeLength else Fault OutOfBoundsRead
       end.

(** [memcpy(&p[off], src, n)]. *)
Definition store (p : ptr) (off : Z) (src : list Z) (n : Z) (h : heap)
  : outcome heap :=
  if n =? 0 then Ok h
  else match blocks h !! p with
       | Some b =>
           b' ← store_bytes b off src n;
           Ok {| blocks := <[p := b']> (blocks h);
                 next_block := next_block h;
                 alloc_budget := alloc_budget h |}
       | None => if n <? 0 then Fault NegativeLength else Fault OutOfBoundsWrite
       end.

(** [memcpy(&dst[doff], &src[soff], n)] between two blocks. *)
Definition copy (dst : ptr) (doff : Z) (src : ptr) (soff n : Z) (h : heap)
  : outcome heap :=
  bytes ← load src soff n h;
  store dst doff bytes n h.

Definition live (p : ptr) (h : heap) : bool :=
  match blocks h !! p with Some _ => true | None => false end.

End Heap.

(** * The detail-mesh record serializer ([PolyMeshDetailEx.cpp]) *)

Module PolyMeshDetail.
Import Heap.

Definition NMG_POLYMESHDETAIL_VERSION : Z := 1.

(** [nmgPolyMeshDetailHeader]: seven four-byte fields. *)
Record nmgPolyMeshDetailHeader : Type := mkHeader {
  h_nmeshes : Z;
  h_nverts : Z;
  h_ntris : Z;
  h_maxmeshes : Z;
  h_maxverts : Z;
  h_maxtris : Z;
  h_version : Z
}.

Definition sizeof_header : Z := 28.
Definition sizeof_long : Z := 4.

Definition header_bytes (hd : nmgPolyMeshDetailHeader) : list Z :=
  encode_int (h_nmeshes hd) ++ encode_int (h_nverts hd)
  ++ encode_int (h_ntris hd) ++ encode_int (h_maxmeshes hd)
  ++ encode_int (h_maxverts hd) ++ encode_int (h_maxtris hd)
  ++ encode_int (h_version hd).

Definition header_of_bytes (bs : list Z) : nmgPolyMeshDetailHeader :=
  {| h_nmeshes := decode_int (field bs 0);
     h_nverts := decode_int (field bs 1);
     h_ntris := decode_int (field bs 2);
     h_maxmeshes := decode_int (field bs 3);
     h_maxverts := decode_int (field bs 4);
     h_maxtris := decode_int (field bs 5);
     h_version := decode_int (field bs 6) |}.

(** [nmgPolyMeshDetail]: the three array pointers and three counts of
    [rcPolyMeshDetail], followed by the three capacities and the resource
    type. *)
Record nmgPolyMeshDetail : Type := mkMesh {
  meshes : ptr;
  verts : ptr;
  tris : ptr;
  nmeshes : Z;
  nverts : Z;
  ntris : Z;
  maxmeshes : Z;
  maxverts : Z;
  maxtris : Z;
  resourcetype : Z
}.

Definition set_meshes (m : nmgPolyMeshDetail) (p : ptr) : nmgPolyMeshDetail :=
  mkMesh p (verts m) (tris m) (nmeshes m) (nverts m) (ntris m)
    (maxmeshes m) (maxverts m) (maxtris m) (resourcetype m).
Definition set_verts (m : nmgPolyMeshDetail) (p : ptr) : nmgPolyMeshDetail :=
  mkMesh (meshes m) p (tris m) (nmeshes m) (nverts m) (ntris m)
    (maxmeshes m) (maxverts m) (maxtris m) (resourcetype m).
Definition set_tris (m : nmgPolyMeshDetail) (p : ptr) : nmgPolyMeshDetail :=
  mkMesh (meshes m) (verts m) p (nmeshes m) (nverts m) (ntris m)
    (maxmeshes m) (maxverts m) (maxtris m) (resourcetype m).
Definition set_resourcetype (m : nmgPolyMeshDetail) (t : Z) : nmgPolyMeshDetail :=
  mkMesh (meshes m) (verts m) (tris m) (nmeshes m) (nverts m) (ntris m)
    (maxmeshes m) (maxverts m) (maxtris m) t.

(** The layout of the record depends on the width of a pointer.  The two
    layouts here are those of the Microsoft compiler, for which the
    sources define [EXPORT_API]: [int] and [long] are four bytes wide on
    both.  With four-byte pointers ([ILP32]) the base [rcPolyMeshDetail] is
    24 bytes long, and the three capacities of [nmgPolyMeshDetail] follow
    its three counts at once.  With eight-byte pointers ([LLP64]) the base
    is 36 bytes long and is rounded up to 40, the alignment of its
    pointers: four bytes of padding lie between [ntris] and [maxmeshes]. *)
Inductive abi : Type := ILP32 | LLP64.

(** [memcpy(&resultMesh->nmeshes, &header, headerSize - sizeof(long))]
    with four-byte pointers: the six counts of the header land on the six
    counts of the record. *)
Definition set_counts (m : nmgPolyMeshDetail) (hd : nmgPolyMeshDetailHeader)
  : nmgPolyMeshDetail :=
  mkMesh (meshes m) (verts m) (tris m) (h_nmeshes hd) (h_nverts hd)
    (h_ntris hd) (h_maxmeshes hd) (h_maxverts hd) (h_maxtris hd)
    (resourcetype m).

(** The same [memcpy] on either layout.  With eight-byte pointers the 24
    bytes cover [nmeshes], [nverts], [ntris], the padding, [maxmeshes] and
    [maxverts]: the fourth word of the header is lost in the padding, the
    fifth and the sixth land one field early, and [maxtris] is not
    written. *)
Definition set_counts_on (a : abi) (m : nmgPolyMeshDetail)
    (hd : nmgPolyMeshDetailHeader) : nmgPolyMeshDetail :=
  match a with
  | ILP32 => set_counts m hd
  | LLP64 =>
      mkMesh (meshes m) (verts m) (tris m) (h_nmeshes hd) (h_nverts hd)
        (h_ntris hd) (h_maxverts hd) (h_maxtris hd) (maxtris m)
        (resourcetype m)
  end.

(** [rcpdFreeMeshData]: the flag returned and the heap after the call; the
    record itself is not written. *)
Definition rcpdFreeMeshData (mesh : option nmgPolyMeshDetail) (h : heap)
  : outcome (bool * heap) :=
  match mesh with
  | Some m =>
      if resourcetype m =? NMGen.NMG_ALLOC_TYPE_LOCAL
      then h ← free (meshes m) h;
           h ← free (verts m) h;
           h ← free (tris m) h;
           Ok (true, h)
      else Ok (false, h)
  | None => Ok (false, h)
  end.

(** The caller's two output cells of [rcpdGetSerializedData]. *)
Record serialized : Type := mkSerialized {
  resultData : ptr;
  dataSize : Z
}.

(** [rcpdGetSerializedData(mesh, includeBuffer, resultData, dataSize)];
    [out] is [None] when one of the two output pointers is null. *)
Definition rcpdGetSerializedData (mesh : option nmgPolyMeshDetail)
    (includeBuffer : bool) (out : option serialized) (h : heap)
  : outcome (bool * option serialized * heap) :=
  match mesh, out with
  | Some m, Some _ =>
      if maxmeshes m =? 0 then Ok (false, out, h)
      else
        let meshCount := if includeBuffer then maxmeshes m else nmeshes m in
        let vertCount := if includeBuffer then maxverts m else nverts m in
        let triCount := if includeBuffer then maxtris m else ntris m in
        let header :=
          {| h_nmeshes := nmeshes m; h_nverts := nverts m; h_ntris := ntris m;
             h_maxmeshes := meshCount; h_maxverts := vertCount;
             h_maxtris := triCount;
             h_version := NMG_POLYMESHDETAIL_VERSION |} in
        let headerSize := sizeof_header in
        let vertSize := sizeof_times 4 (int32 (vertCount * 3)) in
        let meshSize := sizeof_times 4 (int32 (meshCount * 4)) in
        let trisSize := sizeof_times 1 (int32 (triCount * 4)) in
        let totalDataSize :=
          int32 (int32 (int32 (headerSize + vertSize) + meshSize) + trisSize) in
        let '(data, h) := alloc totalDataSize h in
        match data with
        | O => Ok (false, out, h)
        | S _ =>
            let pos := 0 in
            h ← store data pos (header_bytes header) headerSize h;
            let pos := int32 (pos + headerSize) in
            h ← copy data pos (meshes m) 0 meshSize h;
            let pos := int32 (pos + meshSize) in
            h ← copy data pos (tris m) 0 trisSize h;
            let pos := int32 (pos + trisSize) in
            h ← copy data pos (verts m) 0 vertSize h;
            Ok (true,
                Some {| resultData := data; dataSize := totalDataSize |}, h)
        end
  | _, _ => Ok (false, out, h)
  end.

(** The failure exit of [rcpdBuildFromMeshData]:
    [rcpdFreeMeshData(resultMesh); return false;]. *)
Definition build_failed (m : nmgPolyMeshDetail) (h : heap)
  : outcome (bool * option nmgPolyMeshDetail * heap) :=
  '(_, h) ← rcpdFreeMeshData (Some m) h;
  Ok (false, Some m, h).

(** [rcpdBuildFromMeshData(meshData, dataSize, resultMesh)] as compiled
    for the layout [a]: the flag returned, the record behind [resultMesh]
    and the heap after the call.  The sizes are computed in [size_t] and
    stored in an [int]; their low 32 bits are the same on both layouts. *)
Definition rcpdBuildFromMeshDataOn (a : abi) (meshData : ptr) (dataSize : Z)
    (resultMesh : option nmgPolyMeshDetail) (h : heap)
  : outcome (bool * option nmgPolyMeshDetail * heap) :=
  let headerSize := sizeof_header in
  match meshData, resultMesh with
  | S _, Some m =>
      if negb (maxmeshes m =? 0) || (dataSize <? headerSize)
      then Ok (false, resultMesh, h)
      else
        hbytes ← load meshData 0 headerSize h;
        let header := header_of_bytes hbytes in
        if negb (h_version header =? NMG_POLYMESHDETAIL_VERSION)
        then Ok (false, resultMesh, h)
        else
          let vertSize := sizeof_times 4 (int32 (h_maxverts header * 3)) in
          let meshSize := sizeof_times 4 (int32 (h_maxmeshes header * 4)) in
          let trisSize := sizeof_times 1 (int32 (h_maxtris header * 4)) in
          let totalDataSize :=
            int32 (int32 (int32 (headerSize + vertSize) + meshSize)
                   + trisSize) in
          if dataSize <? totalDataSize then Ok (false, resultMesh, h)
          else
            let m := set_resourcetype m NMGen.NMG_ALLOC_TYPE_LOCAL in
            let '(p, h) := alloc meshSize h in
            let m := set_meshes m p in
            if (p =? 0)%nat then build_failed m h
            else
              let '(p, h) := alloc trisSize h in
              let m := set_tris m p in
              if (p =? 0)%nat then build_failed m h
              else
                let '(p, h) := alloc vertSize h in
                let m := set_verts m p in
                if (p =? 0)%nat then build_failed m h
                else
                  let m := set_counts_on a m header in
                  let pos := headerSize in
                  h ← copy (meshes m) 0 meshData pos meshSize h;
                  let pos := int32 (pos + meshSize) in
                  h ← copy (tris m) 0 meshData pos trisSize h;
                  let pos := int32 (pos + trisSize) in
                  h ← copy (verts m) 0 meshData pos vertSize h;
                  Ok (true, Some m, h)
  | _, _ => Ok (false, resultMesh, h)
  end.

(** The function on the layout the rest of this development is written
    for: four-byte pointers. *)
Definition rcpdBuildFromMeshData (meshData : ptr) (dataSize : Z)
    (resultMesh : option nmgPolyMeshDetail) (h : heap)
  : outcome (bool * option nmgPolyMeshDetail * heap) :=
  rcpdBuildFromMeshDataOn ILP32 meshData dataSize resultMesh h.

(** A record that holds nothing: null arrays, zero counts, and the
    resource type of a record that was never filled. *)
Definition empty_mesh : nmgPolyMeshDetail :=
  mkMesh O O O 0 0 0 0 0 0 NMGen.NMG_ALLOC_TYPE_EXTERN.

End PolyMeshDetail.

(** * The polygon-mesh record deserializer ([PolyMeshEx.cpp]) *)

Module PolyMesh.
Import Heap.

Definition NMG_POLYMESH_VERSION : Z := 1.

(** [nmgPolyMeshHeader]: eighteen four-byte fields; the [float] fields are
    kept as the four-byte words they are copied as. *)
Record nmgPolyMeshHeader : Type := mkHeader {
  h_nverts : Z;
  h_npolys : Z;
  h_maxpolys : Z;
  h_nvp : Z;
  h_bmin : Z * Z * Z;
  h_bmax : Z * Z * Z;
  h_cs : Z;
  h_ch : Z;
  h_borderSize : Z;
  h_maxverts : Z;
  h_walkableHeight : Z;
  h_walkableRadius : Z;
  h_walkableStep : Z;
  h_version : Z
}.

Definition sizeof_header : Z := 72.

Definition word (bs : list Z) (i : nat) : Z := le_decode (field bs i).

Definition header_of_bytes (bs : list Z) : nmgPolyMeshHeader :=
  {| h_nverts := decode_int (field bs 0);
     h_npolys := decode_int (field bs 1);
     h_maxpolys := decode_int (field bs 2);
     h_nvp := decode_int (field bs 3);
     h_bmin := (word bs 4, word bs 5, word bs 6);
     h_bmax := (word bs 7, word bs 8, word bs 9);
     h_cs := word bs 10;
     h_ch := word bs 11;
     h_borderSize := decode_int (field bs 12);
     h_maxverts := decode_int (field bs 13);
     h_walkableHeight := word bs 14;
     h_walkableRadius := word bs 15;
     h_walkableStep := word bs 16;
     h_version := decode_int (field bs 17) |}.

(** [rcPolyMesh]: five array pointers, then the counts and the geometry. *)
Record rcPolyMesh : Type := mkMesh {
  verts : ptr;
  polys : ptr;
  regs : ptr;
  flags : ptr;
  areas : ptr;
  nverts : Z;
  npolys : Z;
  maxpolys : Z;
  nvp : Z;
  bmin : Z * Z * Z;
  bmax : Z * Z * Z;
  cs : Z;
  ch : Z;
  borderSize : Z
}.

Definition set_verts (m : rcPolyMesh) (p : ptr) : rcPolyMesh :=
  mkMesh p (polys m) (regs m) (flags m) (areas m) (nverts m) (npolys m)
    (maxpolys m) (nvp m) (bmin m) (bmax m) (cs m) (ch m) (borderSize m).
Definition set_polys (m : rcPolyMesh) (p : ptr) : rcPolyMesh :=
  mkMesh (verts m) p (regs m) (flags m) (areas m) (nverts m) (npolys m)
    (maxpolys m) (nvp m) (bmin m) (bmax m) (cs m) (ch m) (borderSize m).
Definition set_regs (m : rcPolyMesh) (p : ptr) : rcPolyMesh :=
  mkMesh (verts m) (polys m) p (flags m) (areas m) (nverts m) (npolys m)
    (maxpolys m) (nvp m) (bmin m) (bmax m) (cs m) (ch m) (borderSize m).
Definition set_flags (m : rcPolyMesh) (p : ptr) : rcPolyMesh :=
  mkMesh (verts m) (polys m) (regs m) p (areas m) (nverts m) (npolys m)
    (maxpolys m) (nvp m) (bmin m) (bmax m) (cs m) (ch m) (borderSize m).
Definition set_areas (m : rcPolyMesh) (p : ptr) : rcPolyMesh :=
  mkMesh (verts m) (polys m) (regs m) (flags m) p (nverts m) (npolys m)
    (maxpolys m) (nvp m) (bmin m) (bmax m) (cs m) (ch m) (borderSize m).

(** The record that [rcpmFreeMeshData] leaves behind. *)
Definition cleared_mesh : rcPolyMesh :=
  mkMesh O O O O O 0 0 0 0 (0, 0, 0) (0, 0, 0) 0 0 0.

(** [rcpmFreeMeshData]: the flag, the record and the heap after the call. *)
Definition rcpmFreeMeshData (mesh : option rcPolyMesh) (h : heap)
  : outcome (bool * option rcPolyMesh * heap) :=
  match mesh with
  | None => Ok (false, None, h)
  | Some m =>
      h ← free (polys m) h;
      h ← free (verts m) h;
      h ← free (regs m) h;
      h ← free (areas m) h;
      h ← free (flags m) h;
      Ok (true, Some cleared_mesh, h)
  end.

(** The four output cells of [rcpmBuildSerializedData] ([None]: a null
    pointer). *)
Record build_out : Type := mkOut {
  maxVerts : option Z;
  walkableHeight : option Z;
  walkableRadius : option Z;
  walkableStep : option Z
}.

(** The bytes of the record from [&mesh->nverts] to its end: the thirteen
    four-byte fields that follow the pointers, 52 bytes. *)
Definition fields_bytes (m : rcPolyMesh) : list Z :=
  encode_int (nverts m) ++ encode_int (npolys m) ++ encode_int (maxpolys m)
  ++ encode_int (nvp m)
  ++ encode_int (bmin m).1.1 ++ encode_int (bmin m).1.2
  ++ encode_int (bmin m).2
  ++ encode_int (bmax m).1.1 ++ encode_int (bmax m).1.2
  ++ encode_int (bmax m).2
  ++ encode_int (cs m) ++ encode_int (ch m) ++ encode_int (borderSize m).

(** The record whose fields after the pointers are read from such bytes. *)
Definition with_fields (m : rcPolyMesh) (bs : list Z) : rcPolyMesh :=
  mkMesh (verts m) (polys m) (regs m) (flags m) (areas m)
    (decode_int (field bs 0)) (decode_int (field bs 1))
    (decode_int (field bs 2)) (decode_int (field bs 3))
    (word bs 4, word bs 5, word bs 6) (word bs 7, word bs 8, word bs 9)
    (word bs 10) (word bs 11) (decode_int (field bs 12)).

(** [cap = sizeof(int) + sizeof(float) * 2 + sizeof(long)]: the bytes at
    the end of the header that both functions leave out of their copy
    between the header and the record. *)
Definition cap : Z := 4 + 4 * 2 + 4.

(** [memcpy(&resultMesh->nverts, &header, n)]: [n] bytes of the header
    onto the bytes of the record that start at [nverts].  A copy that is
    longer than those bytes writes past the record. *)
Definition set_fields (m : rcPolyMesh) (header : list Z) (n : Z)
  : outcome rcPolyMesh :=
  bs ← store_bytes (fields_bytes m) 0 header n;
  Ok (with_fields m bs).

(** The failure exit: [rcpmFreeMeshData(resultMesh); return false;]. *)
Definition build_failed (m : rcPolyMesh) (out : build_out) (h : heap)
  : outcome (bool * option rcPolyMesh * build_out * heap) :=
  '(_, m', h) ← rcpmFreeMeshData (Some m) h;
  Ok (false, m', out, h).

(** [rcpmBuildSerializedData]. *)
Definition rcpmBuildSerializedData (meshData : ptr) (dataSize : Z)
    (resultMesh : option rcPolyMesh) (out : build_out) (h : heap)
  : outcome (bool * option rcPolyMesh * build_out * heap) :=
  let headerSize := sizeof_header in
  match meshData, resultMesh, maxVerts out, walkableStep out,
        walkableRadius out, walkableHeight out with
  | S _, Some m, Some _, Some _, Some _, Some _ =>
      if negb (polys m =? 0)%nat || (dataSize <? headerSize)
      then Ok (false, resultMesh, out, h)
      else
        hbytes ← load meshData 0 headerSize h;
        let header := header_of_bytes hbytes in
        if negb (h_version header =? NMG_POLYMESH_VERSION)
        then Ok (false, resultMesh, out, h)
        else
          let vertSize := sizeof_times 2 (int32 (h_maxverts header * 3)) in
          let polySize :=
            sizeof_times 2
              (int32 (int32 (h_maxpolys header * 2) * h_nvp header)) in
          let regionFlagSize := sizeof_times 2 (h_maxpolys header) in
          let areaSize := sizeof_times 1 (h_maxpolys header) in
          let totalDataSize :=
            int32 (int32 (int32 (int32 (headerSize + vertSize) + polySize)
                          + int32 (2 * regionFlagSize)) + areaSize) in
          if dataSize <? totalDataSize then Ok (false, resultMesh, out, h)
          else
            let '(p, h) := alloc vertSize h in
            let m := set_verts m p in
            if (p =? 0)%nat then build_failed m out h
            else
              let '(p, h) := alloc polySize h in
              let m := set_polys m p in
              if (p =? 0)%nat then build_failed m out h
              else
                let '(p, h) := alloc regionFlagSize h in
                let m := set_regs m p in
                if (p =? 0)%nat then build_failed m out h
                else
                  let '(p, h) := alloc regionFlagSize h in
                  let m := set_flags m p in
                  if (p =? 0)%nat then build_failed m out h
                  else
                    let '(p, h) := alloc areaSize h in
                    let m := set_areas m p in
                    if (p =? 0)%nat then build_failed m out h
                    else
                      m ← set_fields m hbytes (int32 (headerSize - cap));
                      let pos := headerSize in
                      h ← copy (verts m) 0 meshData pos vertSize h;
                      let pos := int32 (pos + vertSize) in
                      h ← copy (polys m) 0 meshData pos polySize h;
                      let pos := int32 (pos + polySize) in
                      h ← copy (regs m) 0 meshData pos regionFlagSize h;
                      let pos := int32 (pos + regionFlagSize) in
                      h ← copy (flags m) 0 meshData pos regionFlagSize h;
                      let pos := int32 (pos + regionFlagSize) in
                      h ← copy (areas m) 0 meshData pos areaSize h;
                      Ok (true, Some m,
                          {| maxVerts := Some (h_maxverts header);
                             walkableHeight := Some (h_walkableHeight header);
                             walkableRadius := Some (h_walkableRadius header);
                             walkableStep := Some (h_walkableStep header) |},
                          h)
  | _, _, _, _, _, _ => Ok (false, resultMesh, out, h)
  end.

End PolyMesh.

(** * The tile container *)

Module Detour.
Import Heap.

(** [dtStatus] is an unsigned word: two high-level bits and detail bits.
    The values are those of Detour's status header, which the interop
    sources include. *)
Definition DT_FAILURE : Z := 2147483648.
Definition DT_SUCCESS : Z := 1073741824.
Definition DT_WRONG_MAGIC : Z := 1.
Definition DT_WRONG_VERSION : Z := 2.
Definition DT_OUT_OF_MEMORY : Z := 4.
Definition DT_INVALID_PARAM : Z := 8.

Definition dtStatusSucceed (status : Z) : bool :=
  negb (Z.land status DT_SUCCESS =? 0).
Definition dtStatusFailed (status : Z) : bool :=
  negb (Z.land status DT_FAILURE =? 0).

Definition DT_TILE_FREE_DATA : Z := 1.
Definition DT_NAVMESH_MAGIC : Z := 1145979222.
Definition DT_NAVMESH_VERSION : Z := 7.

(** [dtNavMeshParams]: the origin and the tile extent as the four-byte
    words of their [float]s, then the two integer limits. *)
Record dtNavMeshParams : Type := mkParams {
  orig : Z * Z * Z;
  tileWidth : Z;
  tileHeight : Z;
  maxTiles : Z;
  maxPolys : Z
}.

(** One slot of the container's tile table. *)
Record dtMeshTile : Type := mkTile {
  header : bool;
  dataSize : Z;
  data : ptr;
  flags : Z
}.

Definition empty_tile : dtMeshTile := mkTile false 0 O 0.

(** Modelled from the spec: the tile container (Detour's [dtNavMesh], which
    is not part of the interop sources).  The spec gives the container as a
    table of slots, each empty or holding one tile payload, created empty
    from the geometric parameters, with an insert that returns a reference
    or a failure and a teardown that releases the tiles it owns.  A tile
    reference is an opaque non-zero handle; here the tile of slot [i] has
    the reference [i + 1]. *)
Record dtNavMesh : Type := mkNavMesh {
  m_params : dtNavMeshParams;
  m_tiles : list dtMeshTile
}.

Definition getParams (m : dtNavMesh) : dtNavMeshParams := m_params m.
Definition getMaxTiles (m : dtNavMesh) : Z := Z.of_nat (length (m_tiles m)).

(** [getTile(i)]: the slot, or null outside the table. *)
Definition getTile (m : dtNavMesh) (i : Z) : option dtMeshTile :=
  if i <? 0 then None else m_tiles m !! Z.to_nat i.

(** [getTileRef(tile)] for the tile of slot [i]. *)
Definition getTileRef (m : dtNavMesh) (i : Z) : Z := i + 1.

(** [getTileByRef(ref)]: null for a reference that names no slot. *)
Definition getTileByRef (m : dtNavMesh) (ref : Z) : option dtMeshTile :=
  if ref <? 1 then None else m_tiles m !! Z.to_nat (ref - 1).

(** Modelled from the spec: [dtAllocNavMesh] and [dtNavMesh::init], the
    "allocate an empty tile container from parameters" of the collaborator
    interface.  Each asks the allocator once and fails when it is
    refused; a negative tile limit asks for a table no allocator has. *)
Definition dtAllocNavMesh (h : heap) : bool * heap := alloc_object h.

Definition init (params : dtNavMeshParams) (h : heap)
  : Z * dtNavMesh * heap :=
  let '(granted, h) := alloc_object h in
  if granted && (0 <=? maxTiles params)
  then (DT_SUCCESS,
        mkNavMesh params (replicate (Z.to_nat (maxTiles params)) empty_tile),
        h)
  else (DT_FAILURE + DT_OUT_OF_MEMORY, mkNavMesh params [], h).

(** The first free slot at or after [i]. *)
Fixpoint first_free (tiles : list dtMeshTile) (i : nat) : option nat :=
  match tiles with
  | [] => None
  | t :: rest => if header t then first_free rest (S i) else Some i
  end.

(** Modelled from the spec: [dtNavMesh::addTile], the "insert a tile
    payload into a container, returning a reference or failure".  The
    payload is refused unless it starts with the magic number and version
    that [dtnmGetTileDataHeader] checks; with a last reference the tile
    goes back to the slot of that reference, which has to be free; without
    one it takes the first free slot.  The result is the status, the
    container and the reference of the new tile, which the caller's
    [result] cell receives when the insert has not failed. *)
Definition addTile (m : dtNavMesh) (tdata : ptr) (tdataSize : Z) (tflags : Z)
    (lastRef : Z) (h : heap) : Z * dtNavMesh * Z :=
  let payload := default [] (blocks h !! tdata) in
  if negb (decode_int (field payload 0) =? DT_NAVMESH_MAGIC)
  then (DT_FAILURE + DT_WRONG_MAGIC, m, 0)
  else if negb (decode_int (field payload 1) =? DT_NAVMESH_VERSION)
  then (DT_FAILURE + DT_WRONG_VERSION, m, 0)
  else
    let slot :=
      if lastRef =? 0 then first_free (m_tiles m) 0
      else if lastRef <? 1 then None
      else match m_tiles m !! Z.to_nat (lastRef - 1) with
           | Some t => if header t then None else Some (Z.to_nat (lastRef - 1))
           | None => None
           end in
    match slot with
    | None => (DT_FAILURE + DT_OUT_OF_MEMORY, m, 0)
    | Some i =>
        (DT_SUCCESS,
         mkNavMesh (m_params m)
           (<[i := mkTile true tdataSize tdata tflags]> (m_tiles m)),
         Z.of_nat i + 1)
    end.

(** Modelled from the spec: [dtFreeNavMesh], the teardown that releases
    the payloads the container owns (those inserted with
    [DT_TILE_FREE_DATA]). *)
Definition dtFreeNavMesh (m : dtNavMesh) (h : heap) : heap :=
  {| blocks :=
       foldr (fun t bs =>
                if header t && negb (Z.land (flags t) DT_TILE_FREE_DATA =? 0)
                then delete (data t) bs else bs)
             (blocks h) (m_tiles m);
     next_block := next_block h;
     alloc_budget := alloc_budget h |}.

(** The live tiles of a container, in slot order. *)
Definition is_live (t : dtMeshTile) : bool :=
  header t && negb (dataSize t =? 0).

Definition live_tiles (m : dtNavMesh) : list dtMeshTile :=
  filter (fun t => is_live t = true) (m_tiles m).

End Detour.

(** * Tile data and the tile-set archive
      ([DetourNavMeshBuildEx.cpp], [DetourNavmeshEx.cpp]) *)

Module NavMesh.
Import Heap Detour.

Definition RCN_NAVMESH_VERSION : Z := 1.

(** [rcnNavMeshSetHeader]: version, tile count and the seven words of the
    parameters; [rcnNavMeshTileHeader]: an eight-byte reference and a
    four-byte size.  Both are packed, as the archive layout of the spec
    gives them. *)
Record rcnNavMeshSetHeader : Type := mkSetHeader {
  version : Z;
  tileCount : Z;
  params : dtNavMeshParams
}.

Record rcnNavMeshTileHeader : Type := mkTileHeader {
  tileRef : Z;
  th_dataSize : Z
}.

Definition sizeof_set_header : Z := 36.
Definition sizeof_tile_header : Z := 12.

Definition params_bytes (p : dtNavMeshParams) : list Z :=
  le_encode 4 (orig p).1.1 ++ le_encode 4 (orig p).1.2
  ++ le_encode 4 (orig p).2 ++ le_encode 4 (tileWidth p)
  ++ le_encode 4 (tileHeight p) ++ encode_int (maxTiles p)
  ++ encode_int (maxPolys p).

Definition set_header_bytes (hd : rcnNavMeshSetHeader) : list Z :=
  encode_int (version hd) ++ encode_int (tileCount hd)
  ++ params_bytes (params hd).

Definition word (bs : list Z) (i : nat) : Z := le_decode (field bs i).

Definition set_header_of_bytes (bs : list Z) : rcnNavMeshSetHeader :=
  {| version := decode_int (field bs 0);
     tileCount := decode_int (field bs 1);
     params :=
       {| orig := (word bs 2, word bs 3, word bs 4);
          tileWidth := word bs 5;
          tileHeight := word bs 6;
          maxTiles := decode_int (field bs 7);
          maxPolys := decode_int (field bs 8) |} |}.

Definition tile_header_bytes (th : rcnNavMeshTileHeader) : list Z :=
  le_encode 8 (tileRef th) ++ encode_int (th_dataSize th).

Definition tile_header_of_bytes (bs : list Z) : rcnNavMeshTileHeader :=
  {| tileRef := le_decode (take 8 bs);
     th_dataSize := decode_int (take 4 (drop 8 bs)) |}.

(** [rcnTileData]: a tile payload and its ownership tag. *)
Record rcnTileData : Type := mkTileData {
  td_data : ptr;
  td_dataSize : Z;
  isOwned : bool
}.

(** [dtnmBuildTileDataRaw(data, dataSize, resultData)]. *)
Definition dtnmBuildTileDataRaw (data : ptr) (dataSize : Z)
    (resultData : option rcnTileData) (h : heap)
  : outcome (bool * option rcnTileData * heap) :=
  match data, resultData with
  | S _, Some rd =>
      if negb (td_data rd =? 0)%nat then Ok (false, resultData, h)
      else
        let '(p, h) := alloc dataSize h in
        let rd := mkTileData p (td_dataSize rd) (isOwned rd) in
        if (p =? 0)%nat then Ok (false, Some rd, h)
        else
          h ← copy p 0 data 0 dataSize h;
          Ok (true, Some (mkTileData p dataSize false), h)
  | _, _ => Ok (false, resultData, h)
  end.

(** [dtnmFreeTileData(tileData)]. *)
Definition dtnmFreeTileData (tileData : option rcnTileData) (h : heap)
  : outcome (option rcnTileData * heap) :=
  match tileData with
  | Some td =>
      if (td_data td =? 0)%nat || isOwned td then Ok (tileData, h)
      else
        h ← free (td_data td) h;
        Ok (Some (mkTileData O 0 (isOwned td)), h)
  | None => Ok (tileData, h)
  end.

(** [dtnmAddTile(navMesh, tileData, lastRef, resultRef)]: the status, the
    container, the tile data and the reference written through
    [resultRef]. *)
Definition dtnmAddTile (navMesh : option dtNavMesh)
    (tileData : option rcnTileData) (lastRef : Z) (resultRef : Z) (h : heap)
  : Z * option dtNavMesh * option rcnTileData * Z :=
  match navMesh, tileData with
  | Some m, Some td =>
      if (td_data td =? 0)%nat || (td_dataSize td <? 1) || isOwned td
      then (DT_FAILURE + DT_INVALID_PARAM, navMesh, tileData, resultRef)
      else
        let '(status, m, ref) :=
          addTile m (td_data td) (td_dataSize td) DT_TILE_FREE_DATA
            lastRef h in
        let td :=
          if dtStatusSucceed status
          then mkTileData (td_data td) (td_dataSize td) true
          else td in
        (status, Some m, Some td,
         if dtStatusFailed status then resultRef else ref)
  | _, _ => (DT_FAILURE + DT_INVALID_PARAM, navMesh, tileData, resultRef)
  end.

(** The first loop of [dtnmGetNavMeshRawData]: the number of live tiles
    among the slots from [i] on. *)
Fixpoint count_tiles (m : dtNavMesh) (n : nat) (i : Z) (tileCount : Z) : Z :=
  match n with
  | O => tileCount
  | S n' =>
      match getTile m i with
      | Some tile =>
          if negb (header tile) || (dataSize tile =? 0)
          then count_tiles m n' (i + 1) tileCount
          else count_tiles m n' (i + 1) (int32 (tileCount + 1))
      | None => count_tiles m n' (i + 1) tileCount
      end
  end.

(** The second loop: the tile of slot [i] has its header stored at
    [tileHeaders[i]].  An entry of [tileHeaders] is [None] until it is
    written. *)
Fixpoint fill_headers (m : dtNavMesh) (n : nat) (i : Z)
    (st : list (option rcnNavMeshTileHeader) * Z)
  : outcome (list (option rcnNavMeshTileHeader) * Z) :=
  match n with
  | O => Ok st
  | S n' =>
      let '(tileHeaders, totalDataSize) := st in
      match getTile m i with
      | Some tile =>
          if negb (header tile) || (dataSize tile =? 0)
          then fill_headers m n' (i + 1) st
          else
            tileHeaders ← store_at tileHeaders i
              (Some {| tileRef := getTileRef m i;
                       th_dataSize := dataSize tile |});
            fill_headers m n' (i + 1)
              (tileHeaders, int32 (totalDataSize + dataSize tile))
      | None => fill_headers m n' (i + 1) st
      end
  end.

(** Reading [tileHeaders[i]]. *)
Definition read_header (tileHeaders : list (option rcnNavMeshTileHeader))
    (i : Z) : outcome rcnNavMeshTileHeader :=
  if i <? 0 then Fault OutOfBoundsRead
  else match tileHeaders !! Z.to_nat i with
       | Some (Some th) => Ok th
       | Some None => Fault IndeterminateValue
       | None => Fault OutOfBoundsRead
       end.

(** The third loop: one tile header and one payload per entry. *)
Fixpoint write_tiles (m : dtNavMesh)
    (tileHeaders : list (option rcnNavMeshTileHeader)) (data : ptr)
    (n : nat) (i : Z) (st : Z * heap) : outcome (Z * heap) :=
  match n with
  | O => Ok st
  | S n' =>
      let '(pos, h) := st in
      th ← read_header tileHeaders i;
      let size := sizeof_tile_header in
      h ← store data pos (tile_header_bytes th) size h;
      let pos := int32 (pos + size) in
      let size := th_dataSize th in
      match getTileByRef m (tileRef th) with
      | None => Fault OutOfBoundsRead
      | Some tile =>
          h ← copy data pos (Detour.data tile) 0 size h;
          write_tiles m tileHeaders data n' (i + 1) (int32 (pos + size), h)
      end
  end.

(** The two output cells of [dtnmGetNavMeshRawData]. *)
Record raw_data : Type := mkRaw {
  resultData : ptr;
  rd_dataSize : Z
}.

(** [dtnmGetNavMeshRawData(navMesh, resultData, dataSize)]; [out] is
    [None] when one of the two output pointers is null. *)
Definition dtnmGetNavMeshRawData (navMesh : option dtNavMesh)
    (out : option raw_data) (h : heap) : outcome (option raw_data * heap) :=
  match navMesh, out with
  | Some m, Some _ =>
      let maxT := Z.to_nat (getMaxTiles m) in
      let tileCount := count_tiles m maxT 0 0 in
      let header :=
        {| version := RCN_NAVMESH_VERSION; tileCount := tileCount;
           params := getParams m |} in
      let tileHeaders := replicate (Z.to_nat tileCount) None in
      '(tileHeaders, totalDataSize) ← fill_headers m maxT 0 (tileHeaders, 0);
      let totalDataSize := int32 (totalDataSize + sizeof_set_header) in
      let totalDataSize :=
        int32 (totalDataSize + sizeof_times sizeof_tile_header tileCount) in
      let '(data, h) := alloc totalDataSize h in
      let pos := 0 in
      let size := sizeof_set_header in
      h ← store data pos (set_header_bytes header) size h;
      let pos := int32 (pos + size) in
      '(_, h) ← write_tiles m tileHeaders data (Z.to_nat tileCount) 0 (pos, h);
      Ok (Some {| resultData := data; rd_dataSize := totalDataSize |}, h)
  | _, Some _ => Ok (Some {| resultData := O; rd_dataSize := 0 |}, h)
  | _, None => Fault OutOfBoundsWrite
  end.

(** The state of the tile loop of [dtnmBuildDTNavMeshFromRaw]. *)
Record read_state : Type := mkRead {
  rs_pos : Z;
  rs_mesh : dtNavMesh;
  rs_heap : heap;
  rs_success : bool;
  rs_status : Z
}.

(** The tile loop, with [n] records left to read. *)
Fixpoint read_tiles (data : ptr) (safeStorage : bool) (n : nat)
    (st : read_state) : outcome read_state :=
  match n with
  | O => Ok st
  | S n' =>
      let pos := rs_pos st in
      let size := sizeof_tile_header in
      hbytes ← load data pos size (rs_heap st);
      let tileHeader := tile_header_of_bytes hbytes in
      let pos := int32 (pos + size) in
      let size := th_dataSize tileHeader in
      if (tileRef tileHeader =? 0) || (th_dataSize tileHeader =? 0)
      then Ok (mkRead pos (rs_mesh st) (rs_heap st) false
                 (DT_FAILURE + DT_INVALID_PARAM))
      else
        let '(tileData, h) := alloc size (rs_heap st) in
        if (tileData =? 0)%nat
        then Ok (mkRead pos (rs_mesh st) h false
                   (DT_FAILURE + DT_OUT_OF_MEMORY))
        else
          h ← copy tileData 0 data pos size h;
          let pos := int32 (pos + size) in
          let '(status, mesh, _) :=
            addTile (rs_mesh st) tileData size
              (if safeStorage then DT_TILE_FREE_DATA else 0)
              (tileRef tileHeader) h in
          if dtStatusFailed status
          then Ok (mkRead pos mesh h false status)
          else read_tiles data safeStorage n'
                 (mkRead pos mesh h true status)
  end.

(** [dtnmBuildDTNavMeshFromRaw(data, dataSize, safeStorage, ppNavMesh)].
    [ppNavMesh] is [None] for a null pointer and otherwise holds the
    caller's mesh pointer, itself [None] when null.  The result is the
    status, the caller's mesh pointer and the heap. *)
Definition dtnmBuildDTNavMeshFromRaw (data : ptr) (dataSize : Z)
    (safeStorage : bool) (ppNavMesh : option (option dtNavMesh)) (h : heap)
  : outcome (Z * option (option dtNavMesh) * heap) :=
  match data, ppNavMesh with
  | S _, Some _ =>
      if uint32 dataSize <? sizeof_set_header
      then Ok (DT_FAILURE + DT_INVALID_PARAM, ppNavMesh, h)
      else
        let pos := 0 in
        let size := sizeof_set_header in
        hbytes ← load data 0 size h;
        let header := set_header_of_bytes hbytes in
        let pos := int32 (pos + size) in
        if negb (version header =? RCN_NAVMESH_VERSION)
        then Ok (DT_FAILURE + DT_WRONG_VERSION, Some None, h)
        else
          let '(allocated, h) := dtAllocNavMesh h in
          if negb allocated
          then Ok (DT_FAILURE + DT_OUT_OF_MEMORY, Some None, h)
          else
            let '(status, mesh, h) := init (params header) h in
            if dtStatusFailed status then Ok (status, Some None, h)
            else
              st ← read_tiles data safeStorage (Z.to_nat (tileCount header))
                     (mkRead pos mesh h true status);
              if negb (rs_success st)
              then Ok (rs_status st, Some None,
                       dtFreeNavMesh (rs_mesh st) (rs_heap st))
              else Ok (DT_SUCCESS, Some (Some (rs_mesh st)), rs_heap st)
  | _, _ => Ok (DT_FAILURE + DT_INVALID_PARAM, ppNavMesh, h)
  end.

End NavMesh.

(** * The exported view of the message arena ([BuildContext.cpp]) *)

Module BuildContextInterop.
Import BuildContext.

(** [nmgTransferMessages(context, messageBuffer, messageBufferSize)]: the
    caller's buffer after the call. *)
Definition nmgTransferMessages (context : option nmgBuildContext)
    (messageBuffer : list Z) (messageBufferSize : Z) : outcome (list Z) :=
  match context with
  | Some ctx =>
      if 0 <? getMessageCount ctx
      then
        let size :=
          if messageBufferSize <? getMessagePoolLength ctx
          then messageBufferSize
          else getMessagePoolLength ctx in
        store_bytes messageBuffer 0 (getMessagePool ctx) size
      else Ok messageBuffer
  | None => Ok messageBuffer
  end.

(** [nmbcGetMessageCount(context)]. *)
Definition nmbcGetMessageCount (context : option nmgBuildContext) : Z :=
  match context with
  | None => 0
  | Some ctx => getMessageCount ctx
  end.

(** [nmbcGetMessagePool(context, messageBuffer, bufferSize)]: the value
    returned and the caller's buffer after the call. *)
Definition nmbcGetMessagePool (context : option nmgBuildContext)
    (messageBuffer : list Z) (bufferSize : Z) : outcome (Z * list Z) :=
  match context with
  | None => Ok (0, messageBuffer)
  | Some ctx =>
      messageBuffer ← nmgTransferMessages context messageBuffer bufferSize;
      Ok (getMessageCount ctx, messageBuffer)
  end.

End BuildContextInterop.

(** * Releasing a serialized record ([NMGen.cpp]) *)

Module Serialization.
Import Heap.

(** [nmgFreeSerializationData(unsigned char** data)]; [data] is the
    caller's cell ([None]: a null [data], which the function dereferences).
    The result is the cell and the heap after the call. *)
Definition nmgFreeSerializationData (data : option ptr) (h : heap)
  : outcome (option ptr * heap) :=
  match data with
  | None => Fault OutOfBoundsRead
  | Some p =>
      h ← free p h;
      Ok (Some O, h)
  end.

End Serialization.

(** * The polygon-mesh record serializer ([PolyMeshEx.cpp]) *)

Module PolyMeshSerializer.
Import Heap PolyMesh.

(** The index that ends the vertex list of a polygon. *)
Definition RC_MESH_NULL_IDX : Z := 65535.

(** The inner loop of [getMaxVerts], [for (j ...; j < mesh.nvp; j++)],
    from [j] on with [n] iterations left; [polys] is the array
    [mesh.polys] of [unsigned short], by value. *)
Fixpoint poly_max_index (polys : list Z) (p : Z) (n : nat) (j : Z)
    (maxIndex : Z) : outcome Z :=
  match n with
  | O => Ok maxIndex
  | S n' =>
      index ← NMGen.load_at polys (int32 (p + j));
      if index =? RC_MESH_NULL_IDX then Ok maxIndex
      else poly_max_index polys p n' (j + 1) (Z.max index maxIndex)
  end.

(** The outer loop, [for (i ...; i < mesh.npolys; i++)]. *)
Fixpoint mesh_max_index (polys : list Z) (nvp : Z) (n : nat) (i : Z)
    (maxIndex : Z) : outcome Z :=
  match n with
  | O => Ok maxIndex
  | S n' =>
      let p := int32 (int32 (i * 2) * nvp) in
      maxIndex ← poly_max_index polys p (Z.to_nat nvp) 0 maxIndex;
      mesh_max_index polys nvp n' (i + 1) maxIndex
  end.

(** [getMaxVerts(mesh)], on the polygon array, the polygon count and the
    number of vertices per polygon of the mesh. *)
Definition getMaxVerts (polys : list Z) (npolys nvp : Z) : outcome Z :=
  maxIndex ← mesh_max_index polys nvp (Z.to_nat npolys) 0 0;
  Ok (int32 (maxIndex + 1)).

(** The image of [nmgPolyMeshHeader]: eighteen four-byte fields. *)
Definition header_bytes (hd : nmgPolyMeshHeader) : list Z :=
  encode_int (h_nverts hd) ++ encode_int (h_npolys hd)
  ++ encode_int (h_maxpolys hd) ++ encode_int (h_nvp hd)
  ++ encode_int (h_bmin hd).1.1 ++ encode_int (h_bmin hd).1.2
  ++ encode_int (h_bmin hd).2
  ++ encode_int (h_bmax hd).1.1 ++ encode_int (h_bmax hd).1.2
  ++ encode_int (h_bmax hd).2
  ++ encode_int (h_cs hd) ++ encode_int (h_ch hd)
  ++ encode_int (h_borderSize hd) ++ encode_int (h_maxverts hd)
  ++ encode_int (h_walkableHeight hd) ++ encode_int (h_walkableRadius hd)
  ++ encode_int (h_walkableStep hd) ++ encode_int (h_version hd).

(** The caller's two output cells of [rcpmGetSerializedData]. *)
Record serialized : Type := mkSerialized {
  resultData : ptr;
  dataSize : Z
}.


End PolyMeshSerializer.

(** * Properties *)

(** ** Machine integers and buffers *)

Lemma bind_Ok {A B : Type} (a : A) (k : A -> outcome B) : Ok a ≫= k = k a.
Proof. reflexivity. Qed.

Lemma bind_Fault {A B : Type} (f : fault) (k : A -> outcome B) :
  Fault f ≫= k = Fault f.
Proof. reflexivity. Qed.

Lemma int32_id z : in_int32 z -> int32 z = z.
Proof.
  unfold in_int32, int32. intros Hz.
  rewrite Z.mod_small by lia. lia.
Qed.

Lemma int32_range z : in_int32 (int32 z).
Proof.
  unfold in_int32, int32.
  pose proof (Z.mod_pos_bound (z + 2147483648) 4294967296 ltac:(lia)). lia.
Qed.

Lemma store_bytes_length mem off src n mem' :
  store_bytes mem off src n = Ok mem' -> length mem' = length mem.
Proof.
  unfold store_bytes. intros H.
  destruct (n <? 0) eqn:Hn; [discriminate|].
  destruct (Z.of_nat (length src) <? n) eqn:Hs; [discriminate|].
  destruct ((off <? 0) || (Z.of_nat (length mem) <? off + n)) eqn:Hb;
    [discriminate|].
  apply orb_false_iff in Hb as [Ho Hm].
  injection H as <-.
  rewrite !length_app, !length_take, length_drop. lia.
Qed.

Lemma store_bytes_below mem off src n mem' (i : nat) :
  store_bytes mem off src n = Ok mem' ->
  Z.of_nat i < off -> mem' !! i = mem !! i.
Proof.
  unfold store_bytes. intros H Hi.
  destruct (n <? 0) eqn:Hn; [discriminate|].
  destruct (Z.of_nat (length src) <? n) eqn:Hs; [discriminate|].
  destruct ((off <? 0) || (Z.of_nat (length mem) <? off + n)) eqn:Hb;
    [discriminate|].
  apply orb_false_iff in Hb as [Ho Hm].
  injection H as <-.
  rewrite lookup_app_l by (rewrite length_take; lia).
  apply lookup_take_lt. lia.
Qed.

(** ** Vertex de-duplication *)

Module DedupFacts.
Import NMGen.
Local Open Scope nat_scope.

Section Generic.
Context {T : Type} `{Scalar T}.
Implicit Types (src res : list T) (map : list nat).

(** Writing the vertex [v] at index [k] of a flat array. *)
Definition put_vert res (k : nat) (v : T * T * T) : list T :=
  <[k * 3 + 2 := v.2]> (<[k * 3 + 1 := v.1.2]> (<[k * 3 + 0 := v.1.1]> res)).

Lemma put_vert_length res k v : length (put_vert res k v) = length res.
Proof. unfold put_vert. by rewrite !length_insert. Qed.

Lemma vert_at_put_eq res k v :
  k * 3 + 2 < length res -> vert_at (put_vert res k v) k = v.
Proof.
  intros Hk. destruct v as [[x y] z]. unfold vert_at, put_vert.
  cbn [fst snd].
  repeat first
    [ rewrite list_lookup_total_insert_eq by (rewrite ?length_insert; lia)
    | rewrite list_lookup_total_insert_ne by lia ].
  reflexivity.
Qed.

Lemma vert_at_put_ne res k k' v :
  k <> k' -> vert_at (put_vert res k v) k' = vert_at res k'.
Proof.
  intros Hk. unfold vert_at, put_vert.
  rewrite !list_lookup_total_insert_ne by lia. reflexivity.
Qed.

Lemma seen_at_vert src res i j :
  seen_at src res (i * 3) (j * 3)
  = vert_sloppy_eq (vert_at src i) (vert_at res j).
Proof. reflexivity. Qed.

Lemma dedup_step_eq src rc res map i :
  dedup_step src (rc, res, map) i =
  let index := seen_index src res (i * 3) rc rc 0 in
  if (index =? rc)%nat
  then (S rc, put_vert res rc (vert_at src i), <[i := index]> map)
  else (rc, res, <[i := index]> map).
Proof. reflexivity. Qed.

(** The inner loop returns the first emitted vertex that matches. *)
Lemma seen_index_spec src res pi rc n j :
  n + j = rc ->
  j <= seen_index src res pi rc n j <= rc
  /\ (forall k, j <= k < seen_index src res pi rc n j ->
        seen_at src res pi (k * 3) = false)
  /\ (seen_index src res pi rc n j < rc ->
        seen_at src res pi (seen_index src res pi rc n j * 3) = true).
Proof.
  revert j. induction n as [|n IH]; intros j Hj; simpl.
  - split; [lia|]. split; intros; lia.
  - destruct (seen_at src res pi (j * 3)) eqn:E.
    + split; [lia|]. split; [intros; lia | auto].
    + destruct (IH (S j) ltac:(lia)) as (H1 & H2 & H3).
      split; [lia|]. split; [|auto].
      intros k Hk. destruct (decide (k = j)) as [->|]; [auto|].
      apply H2. lia.
Qed.

(** The state after the first [i] vertices. *)
Definition dedup_inv src (Lr Lm i : nat) (st : dedup_state) : Prop :=
  let '(rc, res, map) := st in
  rc <= i /\ length res = Lr /\ length map = Lm
  /\ (forall i', i' < i -> exists k,
        map !! i' = Some k /\ k < rc
        /\ (forall k', k' < k ->
              vert_sloppy_eq (vert_at src i') (vert_at res k') = false)
        /\ (vert_sloppy_eq (vert_at src i') (vert_at res k) = true
            \/ vert_at res k = vert_at src i'))
  /\ (forall k, k < rc -> exists i',
        i' < i /\ map !! i' = Some k /\ vert_at res k = vert_at src i'
        /\ forall i'', i'' < i' -> map !! i'' <> Some k)
  /\ (forall i' k, i' < i -> map !! i' = Some k ->
        forall k', k' < k -> exists i'', i'' < i' /\ map !! i'' = Some k').

Lemma dedup_inv_init src res0 map0 :
  dedup_inv src (length res0) (length map0) 0 (0, res0, map0).
Proof.
  unfold dedup_inv. repeat split; try lia; intros; lia.
Qed.

Lemma dedup_inv_step src Lr Lm i st :
  dedup_inv src Lr Lm i st ->
  i * 3 + 2 < Lr -> i < Lm ->
  dedup_inv src Lr Lm (S i) (dedup_step src st i).
Proof.
  destruct st as [[rc res] map].
  intros (Hrc & HLr & HLm & H2 & H3 & H4) Hi Him.
  rewrite dedup_step_eq.
  destruct (seen_index_spec src res (i * 3) rc rc 0 ltac:(lia)) as (S1 & S2 & S3).
  set (index := seen_index src res (i * 3) rc rc 0) in *.
  assert (Hother : forall i', i' < i -> (<[i := index]> map) !! i' = map !! i').
  { intros i' Hi'. apply list_lookup_insert_ne. lia. }
  assert (Hhere : (<[i := index]> map) !! i = Some index).
  { apply list_lookup_insert_eq. lia. }
  cbv zeta. destruct (index =? rc) eqn:Enew.
  - (* a new vertex *)
    apply Nat.eqb_eq in Enew.
    assert (Hkeep : forall k, k < rc ->
              vert_at (put_vert res rc (vert_at src i)) k = vert_at res k).
    { intros k Hk. apply vert_at_put_ne. lia. }
    assert (Hnew : vert_at (put_vert res rc (vert_at src i)) rc = vert_at src i).
    { apply vert_at_put_eq. lia. }
    unfold dedup_inv. split; [lia|]. split; [by rewrite put_vert_length|].
    split; [by rewrite length_insert|]. split; [|split].
    + intros i' Hi'. destruct (decide (i' = i)) as [->|Hne].
      * exists rc. split; [by rewrite Hhere, Enew|]. split; [lia|]. split.
        -- intros k' Hk'. rewrite Hkeep by lia. rewrite <- seen_at_vert.
           apply S2. lia.
        -- right. exact Hnew.
      * destruct (H2 i' ltac:(lia)) as (k & Hk1 & Hk2 & Hk3 & Hk4).
        exists k. split; [rewrite Hother by lia; exact Hk1|].
        split; [lia|]. split.
        -- intros k' Hk'. rewrite Hkeep by lia. by apply Hk3.
        -- rewrite Hkeep by lia. exact Hk4.
    + intros k Hk. destruct (decide (k = rc)) as [->|Hne].
      * exists i. split; [lia|]. split; [by rewrite Hhere, Enew|].
        split; [exact Hnew|].
        intros i'' Hi''. rewrite Hother by lia.
        destruct (H2 i'' Hi'') as (k0 & Hk1 & Hk2 & _).
        rewrite Hk1. intros [= ->]. lia.
      * destruct (H3 k ltac:(lia)) as (i' & Hi1 & Hi2 & Hi3 & Hi4).
        exists i'. split; [lia|]. split; [rewrite Hother by lia; exact Hi2|].
        split; [rewrite Hkeep by lia; exact Hi3|].
        intros i'' Hi''. rewrite Hother by lia. by apply Hi4.
    + intros i' k Hi' Hl k' Hk'. destruct (decide (i' = i)) as [->|Hne].
      * rewrite Hhere in Hl. injection Hl as <-.
        destruct (H3 k' ltac:(lia)) as (i'' & Hi1 & Hi2 & _).
        exists i''. split; [lia|]. by rewrite Hother.
      * rewrite Hother in Hl by lia.
        destruct (H4 i' k ltac:(lia) Hl k' Hk') as (i'' & Hi1 & Hi2).
        exists i''. split; [lia|]. rewrite Hother by lia. exact Hi2.
  - (* a vertex that was seen before *)
    apply Nat.eqb_neq in Enew.
    assert (Hlt : index < rc) by lia.
    unfold dedup_inv. split; [lia|]. split; [exact HLr|].
    split; [by rewrite length_insert|]. split; [|split].
    + intros i' Hi'. destruct (decide (i' = i)) as [->|Hne].
      * exists index. split; [exact Hhere|]. split; [lia|]. split.
        -- intros k' Hk'. rewrite <- seen_at_vert. apply S2. lia.
        -- left. rewrite <- seen_at_vert. by apply S3.
      * destruct (H2 i' ltac:(lia)) as (k & Hk1 & Hk2 & Hk3 & Hk4).
        exists k. split; [rewrite Hother by lia; exact Hk1|]. auto.
    + intros k Hk.
      destruct (H3 k Hk) as (i' & Hi1 & Hi2 & Hi3 & Hi4).
      exists i'. split; [lia|]. split; [rewrite Hother by lia; exact Hi2|].
      split; [exact Hi3|].
      intros i'' Hi''. rewrite Hother by lia. by apply Hi4.
    + intros i' k Hi' Hl k' Hk'. destruct (decide (i' = i)) as [->|Hne].
      * rewrite Hhere in Hl. injection Hl as <-.
        destruct (H3 k' ltac:(lia)) as (i'' & Hi1 & Hi2 & _).
        exists i''. split; [lia|]. by rewrite Hother.
      * rewrite Hother in Hl by lia.
        destruct (H4 i' k ltac:(lia) Hl k' Hk') as (i'' & Hi1 & Hi2).
        exists i''. split; [lia|]. rewrite Hother by lia. exact Hi2.
Qed.

Lemma dedup_inv_prefix src res0 map0 n m :
  n * 3 <= length res0 -> n <= length map0 -> m <= n ->
  dedup_inv src (length res0) (length map0) m
    (foldl (dedup_step src) (0, res0, map0) (seq 0 m)).
Proof.
  intros Hr Hm. induction m as [|m IH]; intros Hle.
  - apply dedup_inv_init.
  - rewrite seq_S, foldl_snoc. simpl.
    apply dedup_inv_step; [apply IH; lia | lia | lia].
Qed.

Lemma removeDuplicateVerts_inv src res0 map0 n :
  n * 3 <= length res0 -> n <= length map0 ->
  dedup_inv src (length res0) (length map0) n
    (removeDuplicateVerts n src res0 map0).
Proof. intros. by apply (dedup_inv_prefix src res0 map0 n n). Qed.

(** Equality within the tolerance is an equivalence on the first [n]
    vertices of [src]. *)
Definition sloppy_equivalence src (n : nat) : Prop :=
  (forall a, a < n -> vert_sloppy_eq (vert_at src a) (vert_at src a) = true)
  /\ (forall a b, a < n -> b < n ->
        vert_sloppy_eq (vert_at src a) (vert_at src b) = true ->
        vert_sloppy_eq (vert_at src b) (vert_at src a) = true)
  /\ (forall a b c, a < n -> b < n -> c < n ->
        vert_sloppy_eq (vert_at src a) (vert_at src b) = true ->
        vert_sloppy_eq (vert_at src b) (vert_at src c) = true ->
        vert_sloppy_eq (vert_at src a) (vert_at src c) = true).

Lemma dedup_inv_classes src Lr Lm n rc res map :
  dedup_inv src Lr Lm n (rc, res, map) ->
  sloppy_equivalence src n ->
  forall i j, i < n -> j < n ->
    (map !! i = map !! j
     <-> vert_sloppy_eq (vert_at src i) (vert_at src j) = true).
Proof.
  intros (_ & _ & _ & H2 & H3 & _) (Erefl & Esym & Etrans).
  assert (Hrep : forall i, i < n -> exists k a,
            map !! i = Some k /\ k < rc /\ a < n
            /\ vert_at res k = vert_at src a
            /\ vert_sloppy_eq (vert_at src i) (vert_at src a) = true
            /\ forall k', k' < k ->
                 vert_sloppy_eq (vert_at src i) (vert_at res k') = false).
  { intros i Hi. destruct (H2 i Hi) as (k & Hk1 & Hk2 & Hk3 & Hk4).
    destruct (H3 k Hk2) as (a & Ha1 & Ha2 & Ha3 & _).
    exists k, a. repeat split; auto.
    destruct Hk4 as [Hk4|Hk4].
    - by rewrite <- Ha3.
    - apply (Etrans i a a); auto.
      + rewrite <- Ha3, Hk4. by apply Erefl.
  }
  assert (Hlt : forall i j, i < n -> j < n ->
            vert_sloppy_eq (vert_at src i) (vert_at src j) = true ->
            forall ki kj, map !! i = Some ki -> map !! j = Some kj ->
            ~ ki < kj).
  { intros i j Hi Hj Hij ki kj Hki Hkj Hlt.
    destruct (Hrep i Hi) as (ki' & a & Ha1 & Ha2 & Ha3 & Ha4 & Ha5 & _).
    destruct (Hrep j Hj) as (kj' & b & Hb1 & _ & _ & _ & _ & Hb6).
    assert (ki' = ki) as -> by congruence.
    assert (kj' = kj) as -> by congruence.
    specialize (Hb6 ki Hlt). rewrite Ha4 in Hb6.
    assert (vert_sloppy_eq (vert_at src j) (vert_at src a) = true).
    { apply (Etrans j i a); auto. }
    congruence. }
  intros i j Hi Hj. split.
  - intros Heq.
    destruct (Hrep i Hi) as (ki & a & Ha1 & Ha2 & Ha3 & Ha4 & Ha5 & _).
    destruct (Hrep j Hj) as (kj & b & Hb1 & Hb2 & Hb3 & Hb4 & Hb5 & _).
    assert (ki = kj) as -> by congruence.
    assert (vert_at src a = vert_at src b) as Hab by congruence.
    apply (Etrans i a j); auto.
    rewrite Hab. apply Esym; auto.
  - intros Hij.
    destruct (Hrep i Hi) as (ki & a & Ha1 & _).
    destruct (Hrep j Hj) as (kj & b & Hb1 & _).
    rewrite Ha1, Hb1. f_equal.
    pose proof (Hlt i j Hi Hj Hij ki kj Ha1 Hb1).
    pose proof (Hlt j i Hj Hi (Esym i j Hi Hj Hij) kj ki Hb1 Ha1).
    lia.
Qed.

End Generic.

End DedupFacts.

Module DedupMapping.
Import NMGen DedupFacts.

Section Generic.
Context {T : Type} `{Scalar T}.

(** C5, amended: every vertex is mapped to the first emitted vertex that
    the comparison of the source accepts on all three axes, or, when it
    accepts none, to a new emitted vertex that is a copy of it; an emitted
    vertex is the source vertex at the first index mapped to it; compacted
    indices are handed out in first-occurrence order; and where the
    comparison is reflexive, symmetric and transitive on the source
    vertices, two mapping entries are equal exactly when it accepts the
    two vertices.  The statement holds for every scalar type the template
    is used at, [float] among them. *)
Theorem dedup_mapping_first_match (n : nat) (src res0 : list T)
    (map0 : list nat) :
  (n * 3 <= length src)%nat ->
  (n * 3 <= length res0)%nat ->
  (n <= length map0)%nat ->
  let '(resultCount, resultVerts, mapping) :=
    removeDuplicateVerts n src res0 map0 in
  (forall i, (i < n)%nat -> exists k,
      mapping !! i = Some k /\ (k < resultCount)%nat
      /\ (forall k', (k' < k)%nat ->
            vert_sloppy_eq (vert_at src i) (vert_at resultVerts k') = false)
      /\ (vert_sloppy_eq (vert_at src i) (vert_at resultVerts k) = true
          \/ vert_at resultVerts k = vert_at src i))
  /\ (forall k, (k < resultCount)%nat -> exists i,
        (i < n)%nat /\ mapping !! i = Some k
        /\ vert_at resultVerts k = vert_at src i
        /\ forall i', (i' < i)%nat -> mapping !! i' <> Some k)
  /\ (forall i k, (i < n)%nat -> mapping !! i = Some k ->
        forall k', (k' < k)%nat ->
          exists i', (i' < i)%nat /\ mapping !! i' = Some k')
  /\ (sloppy_equivalence src n ->
      forall i j, (i < n)%nat -> (j < n)%nat ->
        (mapping !! i = mapping !! j
         <-> vert_sloppy_eq (vert_at src i) (vert_at src j) = true)).
Proof.
  intros _ Hres Hmap.
  pose proof (removeDuplicateVerts_inv src res0 map0 n Hres Hmap) as Hinv.
  destruct (removeDuplicateVerts n src res0 map0) as [[rc res] mapping].
  pose proof Hinv as (_ & _ & _ & H2 & H3 & H4).
  split; [exact H2|]. split; [exact H3|]. split; [exact H4|].
  intros Hequiv.
  exact (dedup_inv_classes src _ _ n rc res mapping Hinv Hequiv).
Qed.

End Generic.

(** The number that a finite [float] stands for. *)
Definition float_value (x : float) : Q :=
  match x with
  | S754_finite s m e => inject_Z (if s then Zneg m else Zpos m) * 2 ^ e
  | _ => 0
  end.

(** [0.0001f] is the [float] nearest to one ten-thousandth: the two
    differ by less than half a unit of the last place, [2 ^ -38]. *)
Example tolerance_nearest :
  NMG_TOLERANCE = S754_finite false 13743895 (-37)
  /\ (Qabs (float_value NMG_TOLERANCE - (1 # 10000)) < 2 ^ (-38))%Q.
Proof. split; [reflexivity|]. vm_compute. reflexivity. Qed.

(** Three vertices on the x axis, at [0], [2 ^ -14] and [- 2 ^ -14]: the
    second and the third are both within the tolerance of the first, and
    [2 ^ -13], more than the tolerance, apart. *)
Definition chain_verts : list float :=
  [fz 0; fz 0; fz 0;  f32 1 (-14); fz 0; fz 0;  f32 (-1) (-14); fz 0; fz 0].

(** Three vertices, the third a repeat of the first. *)
Definition repeat_verts : list float := floats [0; 0; 0;  1; 0; 0;  0; 0; 0].

(** Two vertices on the x axis, at [1000] and at the next [float] but
    one, [1000.00012207...]: [1000.0f + 0.0001f] rounds to the second, so
    the comparison of the source accepts the pair. *)
Definition rounding_verts : list float :=
  [fz 1000; fz 0; fz 0;  f32 16384002 (-14); fz 0; fz 0].

(** C5, as stated: equal mapping entries if and only if the two source
    vertices are within the tolerance of each other.  On [chain_verts] the
    vertices 1 and 2 are both mapped to the compacted index 0; the
    comparison of the source rejects the pair, and their distance is above
    one ten-thousandth in exact arithmetic too.  On [rounding_verts] the
    two vertices are mapped to the same index and are further than one
    ten-thousandth apart. *)
Lemma dedup_mapping_iff_fails :
  (let '(_, _, mapping) :=
     removeDuplicateVerts 3 chain_verts (replicate 9 s_zero) (replicate 3 O) in
   mapping !! 1%nat = mapping !! 2%nat
   /\ vert_sloppy_eq (vert_at chain_verts 1) (vert_at chain_verts 2) = false
   /\ (1 # 10000 < float_value (chain_verts !!! 3%nat)
                   - float_value (chain_verts !!! 6%nat))%Q
   /\ ~ (forall i j : nat, (i < 3)%nat -> (j < 3)%nat ->
           (mapping !! i = mapping !! j
            <-> vert_sloppy_eq (vert_at chain_verts i)
                  (vert_at chain_verts j) = true)))
  /\ (let '(_, _, mapping) :=
        removeDuplicateVerts 2 rounding_verts (replicate 6 s_zero)
          (replicate 2 O) in
      mapping !! 0%nat = mapping !! 1%nat
      /\ (1 # 10000 < float_value (rounding_verts !!! 3%nat)
                      - float_value (rounding_verts !!! 0%nat))%Q).
Proof.
  assert (E : removeDuplicateVerts 3 chain_verts (replicate 9 s_zero)
                (replicate 3 O)
              = (1%nat, replicate 9 s_zero, [0; 0; 0]%nat))
    by (vm_compute; reflexivity).
  rewrite E. split; [|vm_compute; split; reflexivity].
  split; [reflexivity|].
  split; [vm_compute; reflexivity|]. split; [vm_compute; reflexivity|].
  intros Hall.
  destruct (Hall 1%nat 2%nat ltac:(lia) ltac:(lia)) as [Himp _].
  specialize (Himp eq_refl). vm_compute in Himp. discriminate Himp.
Qed.

Lemma repeat_verts_equivalence : sloppy_equivalence repeat_verts 3.
Proof.
  split; [|split].
  - intros a Ha. destruct a as [|[|[|a]]]; try lia; vm_compute; reflexivity.
  - intros a b Ha Hb.
    destruct a as [|[|[|a]]]; try lia;
    destruct b as [|[|[|b]]]; try lia; vm_compute; congruence.
  - intros a b c Ha Hb Hc.
    destruct a as [|[|[|a]]]; try lia;
    destruct b as [|[|[|b]]]; try lia;
    destruct c as [|[|[|c]]]; try lia;
    vm_compute; congruence.
Qed.

Lemma dedup_mapping_first_match_witness :
  sloppy_equivalence repeat_verts 3
  /\ let '(resultCount, resultVerts, mapping) :=
       removeDuplicateVerts 3 repeat_verts (replicate 9 s_zero)
         (replicate 3 O) in
     (forall i, (i < 3)%nat -> exists k,
         mapping !! i = Some k /\ (k < resultCount)%nat
         /\ (forall k', (k' < k)%nat ->
               vert_sloppy_eq (vert_at repeat_verts i) (vert_at resultVerts k')
               = false)
         /\ (vert_sloppy_eq (vert_at repeat_verts i) (vert_at resultVerts k)
             = true
             \/ vert_at resultVerts k = vert_at repeat_verts i))
     /\ (forall k, (k < resultCount)%nat -> exists i,
           (i < 3)%nat /\ mapping !! i = Some k
           /\ vert_at resultVerts k = vert_at repeat_verts i
           /\ forall i', (i' < i)%nat -> mapping !! i' <> Some k)
     /\ (forall i k, (i < 3)%nat -> mapping !! i = Some k ->
           forall k', (k' < k)%nat ->
             exists i', (i' < i)%nat /\ mapping !! i' = Some k')
     /\ (sloppy_equivalence repeat_verts 3 ->
         forall i j, (i < 3)%nat -> (j < 3)%nat ->
           (mapping !! i = mapping !! j
            <-> vert_sloppy_eq (vert_at repeat_verts i)
                  (vert_at repeat_verts j) = true)).
Proof.
  split; [exact repeat_verts_equivalence|].
  apply (dedup_mapping_first_match 3 repeat_verts (replicate 9 s_zero)
           (replicate 3 O)); vm_compute; lia.
Defined.

Example repeat_verts_mapping :
  removeDuplicateVerts 3 repeat_verts (replicate 9 s_zero) (replicate 3 O)
  = (2%nat, floats [0; 0; 0; 1; 0; 0; 0; 0; 0], [0; 1; 0]%nat).
Proof. vm_compute. reflexivity. Qed.

(** The comparison itself: [1000.0f + 0.0001f] rounds to the [float]
    [16384002 * 2 ^ -14], so the two are equal to [nmgSloppyEquals]; and a
    NaN is equal to every number. *)
Example sloppy_rounding :
  nmgSloppyEquals (fz 1000) (f32 16384002 (-14)) = true
  /\ nmgSloppyEquals S754_nan (fz 1) = true
  /\ nmgSloppyEquals (fz 1) S754_nan = true.
Proof. vm_compute. auto. Qed.

End DedupMapping.

(** ** Flattening *)

Module FlattenFacts.
Import NMGen.

Section Generic.
Context {T : Type} `{Scalar T}.

(** The number of vertices that [rcpdFlattenMesh] finds distinct. *)
Definition unique_vert_count (dm : rcPolyMeshDetail T) : nat :=
  let n := Z.to_nat (nverts dm) in
  (removeDuplicateVerts n (verts dm) (replicate (n * 3) s_zero)
     (replicate n O)).1.1.


End Generic.

(** Two triangles that share the vertex [(1, 0, 0)]. *)
Definition two_triangles : rcPolyMeshDetail float :=
  {| meshes := [0; 3; 0; 1;  3; 3; 1; 1];
     verts := floats [0; 0; 0;  1; 0; 0;  0; 0; 1;
                      1; 0; 0;  2; 0; 0;  1; 0; 1];
     tris := [0; 1; 2; 0;  0; 1; 2; 0];
     nmeshes := 2; nverts := 6; ntris := 2 |}.

Definition caller_out : flatten_out float :=
  {| out_verts := Some (replicate 18 (fz 7));
     out_vertCount := Some 0;
     out_tris := Some (replicate 6 99);
     out_triCount := Some 0 |}.


(** The flatten example of the spec: five vertices, two triangles, the
    shared vertex referenced once. *)
Example flatten_two_triangles :
  rcpdFlattenMesh (Some two_triangles) caller_out 6 2
  = Ok (true,
        {| out_verts :=
             Some (floats [0; 0; 0;  1; 0; 0;  0; 0; 1;  2; 0; 0;  1; 0; 1;
                           7; 7; 7]);
           out_vertCount := Some 5;
           out_tris := Some [0; 1; 2; 1; 3; 4];
           out_triCount := Some 2 |}).
Proof. vm_compute. reflexivity. Qed.

End FlattenFacts.

(** ** The message arena *)

Module BuildContextFacts.
Import BuildContext.

(** A context as [new nmgBuildContext()] gives it, on an allocator that
    fills fresh memory with [0xCD]. *)
Definition fresh_context : nmgBuildContext :=
  nmgBuildContext_new (replicate (Z.to_nat MAX_MESSAGES) 0)
    (replicate (Z.to_nat MESSAGE_POOL_SIZE) 205).

(** What a reader of the last message sees: the message count, the pool
    offset, the pointer of message [i] and whether the string it points to
    ends inside the pool. *)
Definition observe (ctx : nmgBuildContext) (i : Z)
  : Z * Z * option Z * option bool :=
  (getMessageCount ctx, getMessagePoolLength ctx, getMessage ctx i,
   terminated_in_pool ctx <$> getMessage ctx i).

(** C6 on a failing input: 129 messages of 511 characters.  The 128th is
    cut to fit and leaves one byte of the pool; the 129th is then stored
    with length zero at the last byte of the pool, which [doLog] never
    writes, and the stored string does not end inside the pool. *)
Theorem arena_last_entry_unterminated :
  (ctx ← run_ops fresh_context (replicate 129 (text_op 65 511));
   Ok (observe ctx 128))
  = Ok (129, 65535, Some 65535, Some false).
Proof. vm_compute. reflexivity. Qed.

(** What the arena keeps between calls: the counters are within their
    bounds, with the pool offset below the pool size, the two arrays have
    their declared sizes, and the byte before the pool offset is a NUL. *)
Definition arena_ok (ctx : nmgBuildContext) : Prop :=
  0 <= mMessageCount ctx <= MAX_MESSAGES
  /\ 0 <= mTextPoolSize ctx < MESSAGE_POOL_SIZE
  /\ Z.of_nat (length (mTextPool ctx)) = MESSAGE_POOL_SIZE
  /\ Z.of_nat (length (mMessages ctx)) = MAX_MESSAGES
  /\ (0 < mTextPoolSize ctx ->
      mTextPool ctx !! Z.to_nat (mTextPoolSize ctx - 1) = Some 0).

(** A log call as [rcContext::log] makes it: a length that is not
    negative, and a text of at least that many characters and a NUL. *)
Definition op_ok (op : arena_op) : Prop :=
  match op with
  | OpLog message messageLength =>
      0 <= messageLength < 2147483647
      /\ messageLength + 1 <= Z.of_nat (length message)
  | OpReset => True
  end.

Lemma fresh_context_ok : arena_ok fresh_context.
Proof.
  unfold arena_ok, fresh_context, nmgBuildContext_new.
  cbn [mMessageCount mTextPoolSize mTextPool mMessages].
  rewrite !length_replicate, !Z2Nat.id by discriminate.
  unfold MAX_MESSAGES, MESSAGE_POOL_SIZE. repeat split; lia.
Qed.

(** One operation keeps the arena well-formed and leaves every byte below
    the old pool offset as it was; the message count grows by at most one
    and never beyond [MAX_MESSAGES]; a reset sets it to zero. *)
Lemma apply_op_ok (ctx : nmgBuildContext) (op : arena_op) :
  arena_ok ctx -> op_ok op ->
  exists ctx',
    apply_op ctx op = Ok ctx' /\ arena_ok ctx'
    /\ (op = OpReset -> getMessageCount ctx' = 0)
    /\ (op <> OpReset ->
        mMessageCount ctx <= mMessageCount ctx' <= mMessageCount ctx + 1
        /\ forall i : nat, Z.of_nat i < mTextPoolSize ctx ->
             mTextPool ctx' !! i = mTextPool ctx !! i).
Proof.
  intros (Hc & Hs & Hpl & Hml & Hnul) Hop.
  destruct op as [message len|].
  2:{ exists (doResetLog ctx). split; [reflexivity|].
      split; [|split; [reflexivity|congruence]].
      unfold arena_ok, doResetLog. cbn.
      unfold MAX_MESSAGES, MESSAGE_POOL_SIZE in *. repeat split; lia. }
  destruct Hop as [Hlen Hmsg]. cbn [apply_op]. unfold doLog.
  assert (Hsame : exists ctx', Ok ctx = Ok ctx' /\ arena_ok ctx'
            /\ (OpLog message len = OpReset -> getMessageCount ctx' = 0)
            /\ (OpLog message len <> OpReset ->
                mMessageCount ctx <= mMessageCount ctx'
                  <= mMessageCount ctx + 1
                /\ forall i : nat, Z.of_nat i < mTextPoolSize ctx ->
                     mTextPool ctx' !! i = mTextPool ctx !! i)).
  { exists ctx. split; [reflexivity|]. split; [unfold arena_ok; tauto|].
    split; [discriminate|]. intros _. split; [lia|auto]. }
  destruct (negb (getLogEnabled ctx) || (len =? 0)
            || (MAX_MESSAGES <=? mMessageCount ctx)) eqn:Hexit;
    [exact Hsame|].
  apply orb_false_iff in Hexit as [Hexit Hfull].
  apply orb_false_iff in Hexit as [_ Hzero].
  apply Z.eqb_neq in Hzero. apply Z.leb_gt in Hfull.
  unfold MAX_MESSAGES, MESSAGE_POOL_SIZE in *.
  rewrite (int32_id (65536 - mTextPoolSize ctx)) by (unfold in_int32; lia).
  destruct (65536 - mTextPoolSize ctx <? 1) eqn:Hrem; [exact Hsame|].
  clear Hsame. apply Z.ltb_ge in Hrem.
  rewrite (int32_id (len + 1)) by (unfold in_int32; lia).
  rewrite (int32_id (65536 - mTextPoolSize ctx - 1))
    by (unfold in_int32; lia).
  set (realLength := Z.min (len + 1) (65536 - mTextPoolSize ctx - 1)).
  assert (Hreal : 0 <= realLength <= 65536 - mTextPoolSize ctx - 1
                  /\ realLength <= len + 1
                  /\ (realLength = 0 -> mTextPoolSize ctx = 65535))
    by (unfold realLength; lia).
  destruct Hreal as (Hr1 & Hr2 & Hr3).
  destruct (store_bytes (mTextPool ctx) (mTextPoolSize ctx) message realLength)
    as [pool1|] eqn:Hst.
  2:{ unfold store_bytes in Hst.
      replace (realLength <? 0) with false in Hst
        by (symmetry; apply Z.ltb_ge; lia).
      replace (Z.of_nat (length message) <? realLength) with false in Hst
        by (symmetry; apply Z.ltb_ge; lia).
      replace (mTextPoolSize ctx <? 0) with false in Hst
        by (symmetry; apply Z.ltb_ge; lia).
      replace (Z.of_nat (length (mTextPool ctx))
               <? mTextPoolSize ctx + realLength) with false in Hst
        by (symmetry; apply Z.ltb_ge; lia).
      discriminate. }
  rewrite bind_Ok.
  pose proof (store_bytes_length _ _ _ _ _ Hst) as Hl1.
  unfold store_at.
  replace (mTextPoolSize ctx + (realLength - 1) <? 0) with false
    by (symmetry; apply Z.ltb_ge; lia).
  replace (Z.of_nat (length pool1) <=? mTextPoolSize ctx + (realLength - 1))
    with false by (symmetry; apply Z.leb_gt; lia).
  cbn [orb]. rewrite bind_Ok.
  replace (mMessageCount ctx <? 0) with false
    by (symmetry; apply Z.ltb_ge; lia).
  replace (Z.of_nat (length (mMessages ctx)) <=? mMessageCount ctx)
    with false by (symmetry; apply Z.leb_gt; lia).
  cbn [orb]. rewrite bind_Ok.
  rewrite (int32_id (mMessageCount ctx + 1)) by (unfold in_int32; lia).
  rewrite (int32_id (mTextPoolSize ctx + realLength))
    by (unfold in_int32; lia).
  eexists. split; [reflexivity|].
  unfold arena_ok.
  cbn [mMessageCount mTextPoolSize mTextPool mMessages getMessageCount].
  rewrite !length_insert. unfold MAX_MESSAGES, MESSAGE_POOL_SIZE.
  split; [|split; [discriminate|]].
  - split; [lia|]. split; [lia|]. split; [lia|]. split; [lia|].
    intros _.
    replace (mTextPoolSize ctx + realLength - 1)
      with (mTextPoolSize ctx + (realLength - 1)) by lia.
    apply list_lookup_insert_eq. lia.
  - intros _. split; [lia|]. intros i Hi.
    destruct (decide (Z.to_nat (mTextPoolSize ctx + (realLength - 1)) = i))
      as [Heq|Hne].
    + assert (realLength = 0) as Hz by lia.
      rewrite <- Heq, list_lookup_insert_eq by lia.
      rewrite Hz. replace (mTextPoolSize ctx + (0 - 1))
        with (mTextPoolSize ctx - 1) by lia.
      symmetry. apply Hnul. lia.
    + rewrite list_lookup_insert_ne by exact Hne.
      by apply (store_bytes_below _ _ _ _ _ _ Hst).
Qed.

(** Any sequence of well-formed operations runs without a fault, and the
    arena is well-formed after it: the count is at most [MAX_MESSAGES] and
    the pool offset is below the pool size. *)
Lemma run_ops_ok (ops : list arena_op) (ctx : nmgBuildContext) :
  arena_ok ctx -> Forall op_ok ops ->
  exists ctx', run_ops ctx ops = Ok ctx' /\ arena_ok ctx'.
Proof.
  revert ctx. induction ops as [|op ops IH]; intros ctx Hctx Hops.
  - by exists ctx.
  - apply Forall_cons in Hops as [Hop Hops].
    destruct (apply_op_ok ctx op Hctx Hop) as (ctx1 & Hrun & Hok & _).
    cbn [run_ops]. rewrite Hrun, bind_Ok. by apply IH.
Qed.

End BuildContextFacts.

(** ** Tile data ownership *)

Module OwnershipFacts.
Import Heap Detour NavMesh.

(** [n] calls of [dtnmFreeTileData] in a row. *)
Fixpoint free_repeatedly (n : nat) (tileData : option rcnTileData) (h : heap)
  : outcome (option rcnTileData * heap) :=
  match n with
  | O => Ok (tileData, h)
  | S n' =>
      '(tileData, h) ← dtnmFreeTileData tileData h;
      free_repeatedly n' tileData h
  end.

Lemma addTile_status m p size fl lastRef h :
  let status := (addTile m p size fl lastRef h).1.1 in
  (dtStatusSucceed status = true /\ dtStatusFailed status = false)
  \/ (dtStatusSucceed status = false /\ dtStatusFailed status = true).
Proof.
  unfold addTile.
  repeat match goal with
         | |- context [if ?c then _ else _] => destruct c
         | |- context [match ?c with Some _ => _ | None => _ end] => destruct c
         end; simpl; auto.
Qed.

Lemma free_owned_noop td h n :
  isOwned td = true -> free_repeatedly n (Some td) h = Ok (Some td, h).
Proof.
  intros Hown. induction n as [|n IH]; [reflexivity|].
  simpl. rewrite Hown, orb_true_r. simpl. exact IH.
Qed.

(** A tile payload: magic number, version, and three bytes of content. *)
Definition tile_payload (content : list Z) : list Z :=
  le_encode 4 DT_NAVMESH_MAGIC ++ le_encode 4 DT_NAVMESH_VERSION ++ content.

Definition one_block_heap (b : list Z) (budget : list bool) : heap :=
  {| blocks := {[ 1%nat := b ]}; next_block := 1; alloc_budget := budget |}.

Definition two_slot_params : dtNavMeshParams := mkParams (0, 0, 0) 5 5 2 16.

Definition two_slot_mesh : dtNavMesh :=
  mkNavMesh two_slot_params [empty_tile; empty_tile].

Lemma first_free_bounds tiles k i :
  first_free tiles k = Some i -> (k <= i < k + length tiles)%nat.
Proof.
  revert k. induction tiles as [|t tiles IH]; intros k; simpl; [discriminate|].
  destruct (header t).
  - intros Hf. specialize (IH _ Hf). lia.
  - intros [= <-]. lia.
Qed.

(** The two outcomes of the container's insert: the buffer sits in a slot
    of the table, with the flags it was given; or the container is as it
    was. *)
Lemma addTile_cases m p size fl lastRef h :
  let '(st, m1, r) := addTile m p size fl lastRef h in
  (dtStatusSucceed st = true /\ dtStatusFailed st = false
   /\ exists i : nat,
        (i < length (m_tiles m))%nat /\ r = Z.of_nat i + 1
        /\ m1 = mkNavMesh (m_params m)
                  (<[i := mkTile true size p fl]> (m_tiles m)))
  \/ (dtStatusSucceed st = false /\ dtStatusFailed st = true /\ m1 = m).
Proof.
  unfold addTile.
  destruct (negb (decode_int (field (default [] (blocks h !! p)) 0)
                  =? DT_NAVMESH_MAGIC)); [right; by vm_compute|].
  destruct (negb (decode_int (field (default [] (blocks h !! p)) 1)
                  =? DT_NAVMESH_VERSION)); [right; by vm_compute|].
  match goal with
  | |- context [match ?slot with Some _ => _ | None => _ end] =>
      assert (Hslot : forall i, slot = Some i -> (i < length (m_tiles m))%nat);
      [|destruct slot as [i|]]
  end.
  - intros i. destruct (lastRef =? 0).
    + intros Hf. apply first_free_bounds in Hf. lia.
    + destruct (lastRef <? 1); [discriminate|].
      destruct (m_tiles m !! Z.to_nat (lastRef - 1)) as [t|] eqn:Ht;
        [|discriminate].
      destruct (header t); [discriminate|]. intros [= <-].
      by apply lookup_lt_Some in Ht.
  - left. split; [reflexivity|]. split; [reflexivity|].
    exists i. split; [by apply Hslot|]. split; reflexivity.
  - right. by vm_compute.
Qed.

(** C7: [dtnmAddTile] succeeds exactly when its arguments pass the guard
    and the container's insert, called with the buffer, its size and
    [DT_TILE_FREE_DATA], succeeds.  Then the container holds the buffer in
    a slot of its table, the tag of the tile data is set, and any number
    of calls of [dtnmFreeTileData] leave the tile data (pointer and size
    included) and the heap as they are.  When it does not succeed it has
    failed, and the tile data with its tag, the container and the
    caller's reference cell are as they were before the call. *)
Theorem ownership_handoff (navMesh : option dtNavMesh) (td : rcnTileData)
    (lastRef resultRef : Z) (h : heap)
    (status : Z) (navMesh' : option dtNavMesh)
    (tileData' : option rcnTileData) (ref : Z) :
  dtnmAddTile navMesh (Some td) lastRef resultRef h
  = (status, navMesh', tileData', ref) ->
  (dtStatusSucceed status = true <->
     exists m, navMesh = Some m /\ td_data td <> O /\ 1 <= td_dataSize td
       /\ isOwned td = false
       /\ dtStatusSucceed
            (addTile m (td_data td) (td_dataSize td) DT_TILE_FREE_DATA
               lastRef h).1.1 = true)
  /\ (dtStatusSucceed status = true ->
        exists (m m' : dtNavMesh) (i : nat),
          navMesh = Some m /\ navMesh' = Some m'
          /\ addTile m (td_data td) (td_dataSize td) DT_TILE_FREE_DATA
               lastRef h = (status, m', ref)
          /\ m_tiles m' !! i
             = Some (mkTile true (td_dataSize td) (td_data td)
                       DT_TILE_FREE_DATA)
          /\ tileData' = Some (mkTileData (td_data td) (td_dataSize td) true)
          /\ forall n h', free_repeatedly n tileData' h' = Ok (tileData', h'))
  /\ (dtStatusSucceed status = false ->
        dtStatusFailed status = true /\ tileData' = Some td
        /\ navMesh' = navMesh /\ ref = resultRef).
Proof.
  unfold dtnmAddTile. intros Hrun.
  assert (Hrefuse : dtStatusSucceed (DT_FAILURE + DT_INVALID_PARAM) = false
                    /\ dtStatusFailed (DT_FAILURE + DT_INVALID_PARAM) = true)
    by (by vm_compute).
  destruct Hrefuse as [Rs Rf].
  destruct navMesh as [m|].
  - destruct ((td_data td =? 0)%nat || (td_dataSize td <? 1) || isOwned td)
      eqn:Hguard.
    + injection Hrun as <- <- <- <-. rewrite Rs, Rf.
      split; [|split; [discriminate|done]].
      split; [discriminate|].
      intros (m0 & _ & Hd & Hsz & Hown & _). exfalso.
      rewrite Hown, orb_false_r in Hguard.
      apply orb_true_iff in Hguard as [Hg|Hg].
      * apply Nat.eqb_eq in Hg. contradiction.
      * apply Z.ltb_lt in Hg. lia.
    + apply orb_false_iff in Hguard as [Hguard Hown].
      apply orb_false_iff in Hguard as [Hd Hsz].
      apply Nat.eqb_neq in Hd. apply Z.ltb_ge in Hsz.
      pose proof (addTile_cases m (td_data td) (td_dataSize td)
                    DT_TILE_FREE_DATA lastRef h) as Hcases.
      destruct (addTile m (td_data td) (td_dataSize td) DT_TILE_FREE_DATA
                  lastRef h) as [[st m1] r1] eqn:Hadd.
      destruct Hcases as [(Hs & Hf & i & Hi & -> & ->)|(Hs & Hf & ->)];
        rewrite Hs, Hf in Hrun; injection Hrun as <- <- <- <-; rewrite Hs.
      * split; [|split; [|discriminate]].
        -- split; [|done]. intros _. exists m. by rewrite Hadd.
        -- intros _. eexists m, _, i. split; [reflexivity|].
           split; [reflexivity|]. split; [exact Hadd|].
           split; [cbn [m_tiles]; by apply list_lookup_insert_eq|].
           split; [reflexivity|].
           intros n h'. by apply free_owned_noop.
      * split; [|split; [discriminate|done]].
        split; [discriminate|].
        intros (m0 & [= <-] & _ & _ & _ & Hs'). rewrite Hadd in Hs'.
        cbn [fst] in Hs'. congruence.
  - injection Hrun as <- <- <- <-. rewrite Rs, Rf.
    split; [|split; [discriminate|done]].
    split; [discriminate|]. intros (m0 & Hm & _). discriminate Hm.
Qed.

Lemma ownership_handoff_witness :
  let td := mkTileData 1%nat 11 false in
  let h := one_block_heap (tile_payload [1; 2; 3]) [] in
  let m' := mkNavMesh two_slot_params
              [mkTile true 11 1%nat DT_TILE_FREE_DATA; empty_tile] in
  let tileData' := Some (mkTileData 1%nat 11 true) in
  dtnmAddTile (Some two_slot_mesh) (Some td) 0 0 h
  = (DT_SUCCESS, Some m', tileData', 1)
  /\ (dtStatusSucceed DT_SUCCESS = true <->
        exists m, Some two_slot_mesh = Some m /\ td_data td <> O
          /\ 1 <= td_dataSize td /\ isOwned td = false
          /\ dtStatusSucceed
               (addTile m (td_data td) (td_dataSize td) DT_TILE_FREE_DATA
                  0 h).1.1 = true)
  /\ (dtStatusSucceed DT_SUCCESS = true ->
        exists (m m'' : dtNavMesh) (i : nat),
          Some two_slot_mesh = Some m /\ Some m' = Some m''
          /\ addTile m (td_data td) (td_dataSize td) DT_TILE_FREE_DATA 0 h
             = (DT_SUCCESS, m'', 1)
          /\ m_tiles m'' !! i
             = Some (mkTile true (td_dataSize td) (td_data td)
                       DT_TILE_FREE_DATA)
          /\ tileData' = Some (mkTileData (td_data td) (td_dataSize td) true)
          /\ forall n h', free_repeatedly n tileData' h' = Ok (tileData', h'))
  /\ (dtStatusSucceed DT_SUCCESS = false ->
        dtStatusFailed DT_SUCCESS = true /\ tileData' = Some td
        /\ Some m' = Some two_slot_mesh /\ 1 = 0).
Proof.
  intros td h m' tileData'.
  assert (Hrun : dtnmAddTile (Some two_slot_mesh) (Some td) 0 0 h
                 = (DT_SUCCESS, Some m', tileData', 1))
    by (vm_compute; reflexivity).
  split; [exact Hrun|].
  exact (ownership_handoff (Some two_slot_mesh) td 0 0 h DT_SUCCESS (Some m')
           tileData' 1 Hrun).
Defined.

(** A payload that the container refuses (no magic number): the insert
    fails, the tag stays clear, and the free operation still releases the
    buffer. *)
Example handoff_refused :
  let td := mkTileData 1%nat 11 false in
  let h := one_block_heap (replicate 11 0) [] in
  dtnmAddTile (Some two_slot_mesh) (Some td) 0 0 h
  = (DT_FAILURE + DT_WRONG_MAGIC, Some two_slot_mesh, Some td, 0)
  /\ dtnmFreeTileData (Some td) h
     = Ok (Some (mkTileData O 0 false),
           {| blocks := ∅; next_block := 1; alloc_budget := [] |}).
Proof. vm_compute. split; reflexivity. Qed.

(** The other free operation: before the hand-off the same call releases
    the payload. *)
Example free_before_handoff :
  dtnmFreeTileData (Some (mkTileData 1%nat 11 false))
    (one_block_heap (tile_payload [1; 2; 3]) [])
  = Ok (Some (mkTileData O 0 false),
        {| blocks := ∅; next_block := 1; alloc_budget := [] |}).
Proof. vm_compute. reflexivity. Qed.

End OwnershipFacts.

(** ** Reading blocks *)

Module HeapFacts.
Import Heap.

Lemma load_bytes_ok (b : list Z) (off n : Z) :
  0 <= off -> 0 <= n -> off + n <= Z.of_nat (length b) ->
  load_bytes b off n = Ok (take (Z.to_nat n) (drop (Z.to_nat off) b)).
Proof.
  intros Hoff Hn Hlen. unfold load_bytes.
  replace (n <? 0) with false by (symmetry; apply Z.ltb_ge; lia).
  replace (off <? 0) with false by (symmetry; apply Z.ltb_ge; lia).
  replace (Z.of_nat (length b) <? off + n) with false
    by (symmetry; apply Z.ltb_ge; lia).
  reflexivity.
Qed.

Lemma load_block (h : heap) (p : ptr) (b : list Z) (off n : Z) :
  blocks h !! p = Some b ->
  0 <= off -> 0 <= n -> off + n <= Z.of_nat (length b) ->
  load p off n h = Ok (take (Z.to_nat n) (drop (Z.to_nat off) b)).
Proof.
  intros Hb Hoff Hn Hlen. unfold load. rewrite Hb.
  destruct (n =? 0) eqn:En.
  - apply Z.eqb_eq in En. subst n. reflexivity.
  - by apply load_bytes_ok.
Qed.

End HeapFacts.

(** ** The version guard *)

Module VersionFacts.
Import Heap HeapFacts.

(** C8: a buffer whose header carries another version than the reader
    expects is refused by each of the three readers, with the heap (and so
    the allocator) and the target record exactly as before the call, and
    no container handed to the caller. *)
Theorem version_guard (h : heap) (p : ptr) (b : list Z) (dataSize : Z) :
  blocks h !! p = Some b ->
  (forall safeStorage ppNavMesh,
     NavMesh.sizeof_set_header <= Z.of_nat (length b) ->
     NavMesh.version (NavMesh.set_header_of_bytes (take 36 b))
       <> NavMesh.RCN_NAVMESH_VERSION ->
     exists status ppNavMesh',
       NavMesh.dtnmBuildDTNavMeshFromRaw p dataSize safeStorage ppNavMesh h
       = Ok (status, ppNavMesh', h)
       /\ Detour.dtStatusFailed status = true
       /\ (ppNavMesh' = ppNavMesh \/ ppNavMesh' = Some None))
  /\ (forall resultMesh,
        PolyMeshDetail.sizeof_header <= Z.of_nat (length b) ->
        PolyMeshDetail.h_version (PolyMeshDetail.header_of_bytes (take 28 b))
          <> PolyMeshDetail.NMG_POLYMESHDETAIL_VERSION ->
        PolyMeshDetail.rcpdBuildFromMeshData p dataSize resultMesh h
        = Ok (false, resultMesh, h))
  /\ (forall resultMesh out,
        PolyMesh.sizeof_header <= Z.of_nat (length b) ->
        PolyMesh.h_version (PolyMesh.header_of_bytes (take 72 b))
          <> PolyMesh.NMG_POLYMESH_VERSION ->
        PolyMesh.rcpmBuildSerializedData p dataSize resultMesh out h
        = Ok (false, resultMesh, out, h)).
Proof.
  intros Hb. split; [|split].
  - intros safeStorage pp Hlen Hver.
    unfold NavMesh.dtnmBuildDTNavMeshFromRaw.
    destruct p as [|p']; [eexists _, _; split; [reflexivity|]; auto|].
    destruct pp as [cell|]; [|eexists _, _; split; [reflexivity|]; auto].
    destruct (uint32 dataSize <? NavMesh.sizeof_set_header).
    { eexists _, _. split; [reflexivity|]. auto. }
    rewrite (load_block h (S p') b 0 NavMesh.sizeof_set_header Hb)
      by (unfold NavMesh.sizeof_set_header in *; lia).
    change (Z.to_nat NavMesh.sizeof_set_header) with 36%nat.
    change (Z.to_nat 0) with 0%nat. rewrite drop_0, bind_Ok.
    apply Z.eqb_neq in Hver. rewrite Hver. simpl negb. cbv iota.
    eexists _, _. split; [reflexivity|]. auto.
  - intros resultMesh Hlen Hver.
    unfold PolyMeshDetail.rcpdBuildFromMeshData,
      PolyMeshDetail.rcpdBuildFromMeshDataOn.
    destruct p as [|p']; [reflexivity|].
    destruct resultMesh as [m|]; [|reflexivity].
    destruct (negb (PolyMeshDetail.maxmeshes m =? 0)
              || (dataSize <? PolyMeshDetail.sizeof_header)); [reflexivity|].
    rewrite (load_block h (S p') b 0 PolyMeshDetail.sizeof_header Hb)
      by (unfold PolyMeshDetail.sizeof_header in *; lia).
    change (Z.to_nat PolyMeshDetail.sizeof_header) with 28%nat.
    change (Z.to_nat 0) with 0%nat. rewrite drop_0, bind_Ok.
    apply Z.eqb_neq in Hver. rewrite Hver. reflexivity.
  - intros resultMesh out Hlen Hver.
    unfold PolyMesh.rcpmBuildSerializedData.
    destruct p as [|p']; [reflexivity|].
    destruct resultMesh as [m|]; [|reflexivity].
    destruct (PolyMesh.maxVerts out); [|reflexivity].
    destruct (PolyMesh.walkableStep out); [|reflexivity].
    destruct (PolyMesh.walkableRadius out); [|reflexivity].
    destruct (PolyMesh.walkableHeight out); [|reflexivity].
    destruct (negb (PolyMesh.polys m =? 0)%nat
              || (dataSize <? PolyMesh.sizeof_header)); [reflexivity|].
    rewrite (load_block h (S p') b 0 PolyMesh.sizeof_header Hb)
      by (unfold PolyMesh.sizeof_header in *; lia).
    change (Z.to_nat PolyMesh.sizeof_header) with 72%nat.
    change (Z.to_nat 0) with 0%nat. rewrite drop_0, bind_Ok.
    apply Z.eqb_neq in Hver. rewrite Hver. reflexivity.
Qed.

(** A buffer of 72 zero bytes: every header read from it has version 0. *)
Definition zero_buffer_heap : heap :=
  {| blocks := {[ 1%nat := replicate 72 0 ]};
     next_block := 1;
     alloc_budget := [true; true; true; true; true; true] |}.

Definition all_cells : PolyMesh.build_out :=
  PolyMesh.mkOut (Some 0) (Some 0) (Some 0) (Some 0).

Lemma version_guard_witness :
  (exists status ppNavMesh',
     NavMesh.dtnmBuildDTNavMeshFromRaw 1%nat 72 true (Some None)
       zero_buffer_heap
     = Ok (status, ppNavMesh', zero_buffer_heap)
     /\ Detour.dtStatusFailed status = true
     /\ (ppNavMesh' = Some None \/ ppNavMesh' = Some None))
  /\ PolyMeshDetail.rcpdBuildFromMeshData 1%nat 72
       (Some PolyMeshDetail.empty_mesh) zero_buffer_heap
     = Ok (false, Some PolyMeshDetail.empty_mesh, zero_buffer_heap)
  /\ PolyMesh.rcpmBuildSerializedData 1%nat 72
       (Some PolyMesh.cleared_mesh) all_cells zero_buffer_heap
     = Ok (false, Some PolyMesh.cleared_mesh, all_cells, zero_buffer_heap).
Proof.
  destruct (version_guard zero_buffer_heap 1%nat (replicate 72 0) 72
              ltac:(reflexivity)) as (Hnav & Hpd & Hpm).
  split; [|split].
  - apply Hnav; vm_compute; discriminate.
  - apply Hpd; vm_compute; discriminate.
  - apply Hpm; vm_compute; discriminate.
Defined.

End VersionFacts.

(** ** Rolling back a failed deserialization *)

Module RollbackFacts.
Import Heap.

(** A serialized detail mesh: one sub-mesh, one triangle, one vertex. *)
Definition detail_buffer : list Z :=
  PolyMeshDetail.header_bytes
    (PolyMeshDetail.mkHeader 1 1 1 1 1 1
       PolyMeshDetail.NMG_POLYMESHDETAIL_VERSION)
  ++ replicate 16 1 ++ replicate 4 2 ++ replicate 12 3.

(** The buffer in block 1, and an allocator that grants the first request
    and refuses the second. *)
Definition second_alloc_fails : heap :=
  {| blocks := {[ 1%nat := detail_buffer ]};
     next_block := 1;
     alloc_budget := [true; false] |}.

Definition after_failed_build : heap :=
  {| blocks := {[ 1%nat := detail_buffer ]};
     next_block := 2;
     alloc_budget := [] |}.

(** The record that the failed call leaves behind: [meshes] still holds
    the address of the block that was allocated and freed, and the
    resource type says the arrays are locally owned. *)
Definition stale_mesh : PolyMeshDetail.nmgPolyMeshDetail :=
  PolyMeshDetail.mkMesh 2%nat O O 0 0 0 0 0 0 NMGen.NMG_ALLOC_TYPE_LOCAL.

(** C3 on a failing input: [rcpdBuildFromMeshData] fails at the second
    allocation and frees the first array, but the record it returns is not
    the empty record it was given: [meshes] points to the freed block, and
    releasing the record once more frees that block a second time. *)
Theorem detail_rollback_leaves_stale_record :
  PolyMeshDetail.rcpdBuildFromMeshData 1%nat 60
    (Some PolyMeshDetail.empty_mesh) second_alloc_fails
  = Ok (false, Some stale_mesh, after_failed_build)
  /\ stale_mesh <> PolyMeshDetail.empty_mesh
  /\ live (PolyMeshDetail.meshes stale_mesh) after_failed_build = false
  /\ PolyMeshDetail.rcpdFreeMeshData (Some stale_mesh) after_failed_build
     = Fault InvalidFree.
Proof.
  split; [vm_compute; reflexivity|].
  split; [discriminate|].
  split; vm_compute; reflexivity.
Qed.

(** A serialized polygon mesh: one vertex, one polygon of three indices. *)
Definition poly_buffer : list Z :=
  encode_int 1 ++ encode_int 1 ++ encode_int 1 ++ encode_int 3
  ++ replicate 36 0 ++ encode_int 1 ++ replicate 12 0
  ++ encode_int PolyMesh.NMG_POLYMESH_VERSION
  ++ replicate 6 1 ++ replicate 12 2 ++ replicate 2 3 ++ replicate 2 4
  ++ replicate 1 5.

Definition poly_heap (budget : list bool) : heap :=
  {| blocks := {[ 1%nat := poly_buffer ]};
     next_block := 1;
     alloc_budget := budget |}.

(** The polygon-mesh reader on the same kind of input: it fails at the
    third allocation, and the record is cleared and no block but the input
    buffer is live. *)
Example poly_rollback_clears_record :
  PolyMesh.rcpmBuildSerializedData 1%nat 95 (Some PolyMesh.cleared_mesh)
    VersionFacts.all_cells (poly_heap [true; true; false])
  = Ok (false, Some PolyMesh.cleared_mesh, VersionFacts.all_cells,
        {| blocks := {[ 1%nat := poly_buffer ]};
           next_block := 3;
           alloc_budget := [] |}).
Proof. vm_compute. reflexivity. Qed.

End RollbackFacts.

(** ** Truncated buffers *)

Module TruncationFacts.
Import Heap HeapFacts Detour NavMesh.

(** An archive that declares one tile and ends after its top header. *)
Definition header_only_archive : list Z :=
  set_header_bytes
    {| version := RCN_NAVMESH_VERSION; tileCount := 1;
       params := OwnershipFacts.two_slot_params |}.

Definition header_only_heap : heap :=
  {| blocks := {[ 1%nat := header_only_archive ]};
     next_block := 1;
     alloc_budget := [true; true; true] |}.

(** C4 on a failing input: the archive reader checks the buffer length
    against the top header only; on a buffer of 36 bytes that declares one
    tile it reads the tile header at offset 36, past the end. *)
Theorem archive_reader_reads_past_end :
  length header_only_archive = 36%nat
  /\ dtnmBuildDTNavMeshFromRaw 1%nat 36 true (Some None) header_only_heap
     = Fault OutOfBoundsRead.
Proof. split; vm_compute; reflexivity. Qed.

End TruncationFacts.

(** ** Packing a container *)

Module PackFacts.
Import Heap Detour NavMesh.

Lemma fill_headers_length m n i ths total ths' total' :
  fill_headers m n i (ths, total) = Ok (ths', total') ->
  length ths' = length ths.
Proof.
  revert i ths total. induction n as [|n IH]; intros i ths total; simpl.
  - intros [= <- <-]. reflexivity.
  - destruct (getTile m i) as [tile|]; [|apply IH].
    destruct (negb (header tile) || (dataSize tile =? 0)); [apply IH|].
    unfold store_at.
    destruct ((i <? 0) || (Z.of_nat (length ths) <=? i)); [discriminate|].
    rewrite bind_Ok. intros Hrun. apply IH in Hrun.
    by rewrite length_insert in Hrun.
Qed.

Lemma fill_headers_fault m n i st f :
  fill_headers m n i st = Fault f -> f = OutOfBoundsWrite.
Proof.
  revert i st. induction n as [|n IH]; intros i [ths total]; simpl.
  - discriminate.
  - destruct (getTile m i) as [tile|]; [|apply IH].
    destruct (negb (header tile) || (dataSize tile =? 0)); [apply IH|].
    unfold store_at.
    destruct ((i <? 0) || (Z.of_nat (length ths) <=? i)).
    + rewrite bind_Fault. congruence.
    + rewrite bind_Ok. apply IH.
Qed.

(** The second loop writes the header of the live tile of slot [j] at
    [tileHeaders[j]]: a live tile in a slot at or beyond the length of the
    array makes the loop write outside it. *)
Lemma fill_headers_overflow m n i ths total j tile :
  0 <= i -> i <= j < i + Z.of_nat n ->
  getTile m j = Some tile -> is_live tile = true ->
  Z.of_nat (length ths) <= j ->
  fill_headers m n i (ths, total) = Fault OutOfBoundsWrite.
Proof.
  revert i ths total. induction n as [|n IH]; intros i ths total Hi Hj Ht Hl Hlen.
  - lia.
  - simpl. destruct (decide (i = j)) as [->|Hne].
    + rewrite Ht. unfold is_live in Hl.
      apply andb_true_iff in Hl as [Hh Hd]. rewrite Hh.
      apply negb_true_iff in Hd. rewrite Hd. simpl.
      unfold store_at.
      replace (Z.of_nat (length ths) <=? j) with true
        by (symmetry; apply Z.leb_le; lia).
      rewrite orb_true_r. reflexivity.
    + assert (Hrec : forall ths' total',
                length ths' = length ths ->
                fill_headers m n (i + 1) (ths', total')
                = Fault OutOfBoundsWrite).
      { intros ths' total' Hl'. apply IH; try lia; auto. }
      destruct (getTile m i) as [t|]; [|by apply Hrec].
      destruct (negb (header t) || (dataSize t =? 0)); [by apply Hrec|].
      unfold store_at.
      destruct ((i <? 0) || (Z.of_nat (length ths) <=? i)); [reflexivity|].
      rewrite bind_Ok. apply Hrec. by rewrite length_insert.
Qed.

(** Whenever a live tile sits in a slot whose index is not below the
    number of live tiles, packing writes outside [tileHeaders]. *)
Lemma pack_overflows_on_gap (m : dtNavMesh) (out : raw_data) (h : heap)
    (j : Z) (tile : dtMeshTile) :
  getTile m j = Some tile -> is_live tile = true ->
  0 <= count_tiles m (Z.to_nat (getMaxTiles m)) 0 0 <= j ->
  dtnmGetNavMeshRawData (Some m) (Some out) h = Fault OutOfBoundsWrite.
Proof.
  intros Ht Hl Hj. unfold dtnmGetNavMeshRawData.
  assert (Hin : 0 <= j < getMaxTiles m).
  { unfold getTile in Ht. destruct (j <? 0) eqn:E; [discriminate|].
    apply Z.ltb_ge in E. apply lookup_lt_Some in Ht.
    unfold getMaxTiles. lia. }
  rewrite (fill_headers_overflow m _ 0 _ 0 j tile); auto; try lia.
  rewrite length_replicate. lia.
Qed.

(** A container of two slots with its only tile in the second. *)
Definition gap_mesh : dtNavMesh :=
  mkNavMesh OwnershipFacts.two_slot_params
    [empty_tile; mkTile true 10 1%nat DT_TILE_FREE_DATA].

(** The same tile in the first slot. *)
Definition packed_mesh : dtNavMesh :=
  mkNavMesh OwnershipFacts.two_slot_params
    [mkTile true 10 1%nat DT_TILE_FREE_DATA; empty_tile].

Definition tile_heap : heap :=
  {| blocks := {[ 1%nat := OwnershipFacts.tile_payload [9; 9] ]};
     next_block := 1;
     alloc_budget := [true; true; true; true; true] |}.

(** C1 on a failing input: one live tile, in the second of two slots.
    [tileHeaders] has one entry and the header of the tile is written at
    [tileHeaders[1]]. *)
Theorem pack_with_gap_writes_out_of_bounds :
  length (live_tiles gap_mesh) = 1%nat
  /\ dtnmGetNavMeshRawData (Some gap_mesh) (Some (mkRaw O 0)) tile_heap
     = Fault OutOfBoundsWrite.
Proof. split; vm_compute; reflexivity. Qed.

(** With the tile in the first slot the archive is written and read back:
    one tile, the same payload bytes, the same parameters. *)
Example pack_unpack_without_gap :
  ('(packed, h) ← dtnmGetNavMeshRawData (Some packed_mesh)
                    (Some (mkRaw O 0)) tile_heap;
   match packed with
   | Some raw =>
       '(status, pp, h) ← dtnmBuildDTNavMeshFromRaw (resultData raw)
                            (rd_dataSize raw) true (Some None) h;
       match pp with
       | Some (Some mesh) =>
           Ok (status, getParams mesh,
               (fun t => (dataSize t, blocks h !! data t))
                 <$> live_tiles mesh)
       | _ => Fault IndeterminateValue
       end
   | None => Fault IndeterminateValue
   end)
  = Ok (DT_SUCCESS, OwnershipFacts.two_slot_params,
        [(10, Some (OwnershipFacts.tile_payload [9; 9]))]).
Proof. vm_compute. reflexivity. Qed.

End PackFacts.

(** ** Field images *)

Module LayoutFacts.

Lemma le_encode_length n v : length (le_encode n v) = n.
Proof. revert v. induction n as [|n IH]; intros v; simpl; [|rewrite IH]; done. Qed.

Lemma le_decode_encode n v : le_decode (le_encode n v) = v mod 256 ^ Z.of_nat n.
Proof.
  revert v. induction n as [|n IH]; intros v.
  - simpl. by rewrite Z.mod_1_r.
  - cbn [le_encode le_decode]. rewrite IH.
    rewrite Nat2Z.inj_succ, Z.pow_succ_r by lia.
    rewrite Z.rem_mul_r by lia. reflexivity.
Qed.

Lemma int32_mod z : int32 (z mod 4294967296) = int32 z.
Proof.
  unfold int32. f_equal.
  rewrite <- (Zplus_mod_idemp_l z). reflexivity.
Qed.

Lemma decode_encode_int v : decode_int (encode_int v) = int32 v.
Proof.
  unfold decode_int, encode_int. rewrite le_decode_encode.
  change (256 ^ Z.of_nat 4) with 4294967296. apply int32_mod.
Qed.

Lemma uint32_int32 z : uint32 (int32 z) = uint32 z.
Proof.
  unfold uint32, int32.
  rewrite Zminus_mod, Z.mod_mod by lia.
  rewrite <- Zminus_mod. f_equal. lia.
Qed.

Lemma int32_mul_l a c : int32 (int32 a * c) = int32 (a * c).
Proof.
  rewrite <- (int32_mod (int32 a * c)), <- (int32_mod (a * c)). f_equal.
  rewrite Z.mul_mod by lia. fold (uint32 (int32 a)). rewrite uint32_int32.
  unfold uint32. rewrite <- Z.mul_mod by lia. reflexivity.
Qed.

Lemma sizeof_times_count k a c :
  sizeof_times k (int32 (int32 a * c)) = sizeof_times k (int32 (a * c)).
Proof. by rewrite int32_mul_l. Qed.

Lemma field_here (a rest : list Z) : length a = 4%nat -> field (a ++ rest) 0 = a.
Proof.
  intros Ha. unfold field. change (0 * 4)%nat with 0%nat.
  rewrite drop_0. by apply take_app_length'.
Qed.

Lemma field_last (a : list Z) : length a = 4%nat -> field a 0 = a.
Proof.
  intros Ha. unfold field. change (0 * 4)%nat with 0%nat.
  rewrite drop_0. apply take_ge. lia.
Qed.

Lemma field_next (a rest : list Z) i :
  length a = 4%nat -> field (a ++ rest) (S i) = field rest i.
Proof.
  intros Ha. unfold field.
  replace (S i * 4)%nat with (length a + i * 4)%nat by lia.
  by rewrite drop_app_add.
Qed.

Lemma encode_int_length v : length (encode_int v) = 4%nat.
Proof. apply le_encode_length. Qed.

End LayoutFacts.

(** ** Allocating and copying *)

Module HeapSteps.
Import Heap HeapFacts.

Lemma alloc_granted (h : heap) (size : Z) (rest : list bool) :
  alloc_budget h = true :: rest -> 0 <= size ->
  alloc size h
  = (S (next_block h),
     mkHeap (<[S (next_block h) := replicate (Z.to_nat size) fresh_byte]>
               (blocks h))
       (S (next_block h)) rest).
Proof.
  intros Hb Hs. unfold alloc. rewrite Hb.
  replace (0 <=? size) with true by (symmetry; apply Z.leb_le; lia).
  reflexivity.
Qed.

Lemma alloc_granted_mk bl nb (rest : list bool) (size : Z) :
  0 <= size ->
  alloc size (mkHeap bl nb (true :: rest))
  = (S nb,
     mkHeap (<[S nb := replicate (Z.to_nat size) fresh_byte]> bl) (S nb) rest).
Proof. intros Hs. by apply alloc_granted. Qed.

(** An allocation either hands out the next block or leaves every block
    as it is. *)
Lemma alloc_cases (h : heap) (size : Z) :
  (exists rest, alloc_budget h = true :: rest /\ 0 <= size
     /\ alloc size h
        = (S (next_block h),
           mkHeap (<[S (next_block h) :=
                       replicate (Z.to_nat size) fresh_byte]> (blocks h))
             (S (next_block h)) rest))
  \/ (exists h', alloc size h = (O, h') /\ blocks h' = blocks h
        /\ next_block h' = next_block h
        /\ alloc_budget h' = tail (alloc_budget h)).
Proof.
  unfold alloc. destruct (alloc_budget h) as [|[|] rest] eqn:Hb.
  - right. exists h. by rewrite Hb.
  - destruct (0 <=? size) eqn:Hs.
    + left. exists rest. apply Z.leb_le in Hs. auto.
    + right. eexists. split; [reflexivity|]. auto.
  - right. eexists. split; [reflexivity|]. auto.
Qed.

Lemma store_bytes_inv (b : list Z) (off : Z) (src : list Z) (n : Z) b' :
  store_bytes b off src n = Ok b' ->
  0 <= n /\ n <= Z.of_nat (length src) /\ 0 <= off
  /\ off + n <= Z.of_nat (length b)
  /\ b' = take (Z.to_nat off) b ++ take (Z.to_nat n) src
            ++ drop (Z.to_nat (off + n)) b.
Proof.
  unfold store_bytes.
  destruct (n <? 0) eqn:Hn; [discriminate|].
  destruct (Z.of_nat (length src) <? n) eqn:Hs; [discriminate|].
  destruct ((off <? 0) || (Z.of_nat (length b) <? off + n)) eqn:Hb;
    [discriminate|].
  apply orb_false_iff in Hb as [Ho Hm].
  intros [= <-]. repeat split; lia.
Qed.

Lemma store_bytes_full (mem src : list Z) (n : Z) :
  0 <= n -> length mem = Z.to_nat n -> length src = Z.to_nat n ->
  store_bytes mem 0 src n = Ok src.
Proof.
  intros Hn Hm Hs. unfold store_bytes.
  replace (n <? 0) with false by (symmetry; apply Z.ltb_ge; lia).
  replace (Z.of_nat (length src) <? n) with false
    by (symmetry; apply Z.ltb_ge; lia).
  replace (Z.of_nat (length mem) <? 0 + n) with false
    by (symmetry; apply Z.ltb_ge; lia).
  simpl. rewrite take_ge by lia. rewrite drop_ge by lia.
  by rewrite app_nil_r.
Qed.

Lemma load_length (p : ptr) (off n : Z) (h : heap) bytes :
  load p off n h = Ok bytes -> 0 <= n /\ length bytes = Z.to_nat n.
Proof.
  unfold load. destruct (n =? 0) eqn:En.
  - apply Z.eqb_eq in En. intros [= <-]. subst n. split; [lia|reflexivity].
  - destruct (blocks h !! p) as [b|]; [|destruct (n <? 0); discriminate].
    unfold load_bytes.
    destruct (n <? 0) eqn:Hn; [discriminate|].
    destruct ((off <? 0) || (Z.of_nat (length b) <? off + n)) eqn:Hb;
      [discriminate|].
    apply orb_false_iff in Hb as [Ho Hm].
    apply Z.ltb_ge in Hn, Ho, Hm.
    intros [= <-]. split; [lia|].
    rewrite length_take, length_drop. lia.
Qed.

(** Storing into the block [d] that is being followed: its length and the
    bytes below the offset stay, and the bytes stored are there. *)
Lemma store_tracked (h : heap) (d : ptr) (b : list Z) (off : Z)
    (src : list Z) (n : Z) (h' : heap) :
  blocks h !! d = Some b -> 0 <= off <= Z.of_nat (length b) ->
  length src = Z.to_nat n ->
  store d off src n h = Ok h' ->
  exists b', blocks h' !! d = Some b' /\ length b' = length b
    /\ take (Z.to_nat off) b' = take (Z.to_nat off) b
    /\ take (Z.to_nat n) (drop (Z.to_nat off) b') = src
    /\ 0 <= n /\ off + n <= Z.of_nat (length b)
    /\ next_block h' = next_block h /\ alloc_budget h' = alloc_budget h.
Proof.
  intros Hb Hoff Hsrc. unfold store. destruct (n =? 0) eqn:En.
  - apply Z.eqb_eq in En. subst n. intros [= <-].
    exists b. destruct src; [|discriminate].
    repeat split; auto; lia.
  - rewrite Hb. destruct (store_bytes b off src n) as [b'|] eqn:Hst;
      [|discriminate].
    rewrite bind_Ok. intros [= <-]. cbn [blocks next_block alloc_budget].
    exists b'. rewrite lookup_insert_eq.
    pose proof (store_bytes_length _ _ _ _ _ Hst) as Hlen.
    apply store_bytes_inv in Hst as (Hn & Hs & Ho & Hm & ->).
    repeat split; auto.
    + rewrite take_app_length' by (rewrite length_take; lia). reflexivity.
    + rewrite drop_app_length' by (rewrite length_take; lia).
      rewrite take_app_length' by (rewrite length_take; lia).
      apply take_ge. lia.
Qed.

Lemma copy_tracked (h : heap) (d : ptr) (b : list Z) (off : Z)
    (src : ptr) (soff n : Z) (h' : heap) :
  blocks h !! d = Some b -> 0 <= off <= Z.of_nat (length b) ->
  copy d off src soff n h = Ok h' ->
  exists b', blocks h' !! d = Some b' /\ length b' = length b
    /\ take (Z.to_nat off) b' = take (Z.to_nat off) b
    /\ 0 <= n /\ off + n <= Z.of_nat (length b)
    /\ next_block h' = next_block h /\ alloc_budget h' = alloc_budget h.
Proof.
  intros Hb Hoff. unfold copy.
  destruct (load src soff n h) as [bytes|] eqn:Hl; [|discriminate].
  rewrite bind_Ok. intros Hst.
  apply load_length in Hl as [Hn Hlen].
  destruct (store_tracked h d b off bytes n h' Hb Hoff Hlen Hst)
    as (b' & H1 & H2 & H3 & _ & H5 & H6 & H7 & H8).
  exists b'. auto 10.
Qed.

(** Copying [n] bytes of the block [src] into a block that was allocated
    with [n] bytes and not written yet. *)
Lemma copy_into_fresh (h : heap) (dst src : ptr) (b : list Z) (soff n : Z) :
  blocks h !! dst = Some (replicate (Z.to_nat n) fresh_byte) ->
  blocks h !! src = Some b ->
  0 <= soff -> 0 <= n -> soff + n <= Z.of_nat (length b) ->
  copy dst 0 src soff n h
  = Ok (mkHeap (<[dst := take (Z.to_nat n) (drop (Z.to_nat soff) b)]>
                  (blocks h))
          (next_block h) (alloc_budget h)).
Proof.
  intros Hd Hs Hoff Hn Hlen. unfold copy.
  rewrite (load_block h src b soff n Hs) by lia. rewrite bind_Ok.
  unfold store. destruct (n =? 0) eqn:En.
  - apply Z.eqb_eq in En. subst n. simpl take.
    rewrite insert_id by exact Hd. by destruct h.
  - rewrite Hd. rewrite store_bytes_full.
    + reflexivity.
    + lia.
    + by rewrite length_replicate.
    + rewrite length_take, length_drop. lia.
Qed.

End HeapSteps.

(** ** The detail-mesh round trip *)

Module DetailRoundTrip.
Import Heap HeapFacts HeapSteps LayoutFacts PolyMeshDetail.

(** The header that [rcpdGetSerializedData] writes for [m]. *)
Definition written_header (m : nmgPolyMeshDetail) (includeBuffer : bool)
  : nmgPolyMeshDetailHeader :=
  {| h_nmeshes := nmeshes m; h_nverts := nverts m; h_ntris := ntris m;
     h_maxmeshes := if includeBuffer then maxmeshes m else nmeshes m;
     h_maxverts := if includeBuffer then maxverts m else nverts m;
     h_maxtris := if includeBuffer then maxtris m else ntris m;
     h_version := NMG_POLYMESHDETAIL_VERSION |}.

(** The sizes in bytes of the three arrays that a header announces. *)
Definition meshes_size (hd : nmgPolyMeshDetailHeader) : Z :=
  sizeof_times 4 (int32 (h_maxmeshes hd * 4)).
Definition tris_size (hd : nmgPolyMeshDetailHeader) : Z :=
  sizeof_times 1 (int32 (h_maxtris hd * 4)).
Definition verts_size (hd : nmgPolyMeshDetailHeader) : Z :=
  sizeof_times 4 (int32 (h_maxverts hd * 3)).
Definition total_size (hd : nmgPolyMeshDetailHeader) : Z :=
  int32 (int32 (int32 (sizeof_header + verts_size hd) + meshes_size hd)
         + tris_size hd).

(** A header as it is read back: every field wrapped to an [int]. *)
Definition wrapped (hd : nmgPolyMeshDetailHeader) : nmgPolyMeshDetailHeader :=
  {| h_nmeshes := int32 (h_nmeshes hd); h_nverts := int32 (h_nverts hd);
     h_ntris := int32 (h_ntris hd); h_maxmeshes := int32 (h_maxmeshes hd);
     h_maxverts := int32 (h_maxverts hd); h_maxtris := int32 (h_maxtris hd);
     h_version := int32 (h_version hd) |}.

Lemma header_bytes_length hd : length (header_bytes hd) = 28%nat.
Proof. unfold header_bytes. rewrite !length_app, !encode_int_length. done. Qed.

Lemma header_of_header_bytes hd : header_of_bytes (header_bytes hd) = wrapped hd.
Proof.
  unfold header_of_bytes, header_bytes, wrapped.
  repeat (rewrite ?field_next by apply encode_int_length;
          rewrite ?field_here by apply encode_int_length).
  rewrite field_last by apply encode_int_length.
  by rewrite !decode_encode_int.
Qed.

Lemma wrapped_sizes hd :
  meshes_size (wrapped hd) = meshes_size hd
  /\ tris_size (wrapped hd) = tris_size hd
  /\ verts_size (wrapped hd) = verts_size hd
  /\ total_size (wrapped hd) = total_size hd.
Proof.
  unfold total_size, meshes_size, tris_size, verts_size, wrapped. simpl.
  by rewrite !sizeof_times_count.
Qed.

(** What a successful [rcpdGetSerializedData] has done. *)
Lemma serialize_inv (m : nmgPolyMeshDetail) (includeBuffer : bool)
    (out : serialized) (h : heap) (data : ptr) (size : Z) (h1 : heap) :
  rcpdGetSerializedData (Some m) includeBuffer (Some out) h
  = Ok (true, Some (mkSerialized data size), h1) ->
  let hd := written_header m includeBuffer in
  data = S (next_block h) /\ next_block h1 = data
  /\ size = total_size hd
  /\ 0 <= meshes_size hd /\ 0 <= tris_size hd /\ 0 <= verts_size hd
  /\ sizeof_header + meshes_size hd + tris_size hd + verts_size hd <= size
  /\ alloc_budget h1 = tail (alloc_budget h)
  /\ exists b, blocks h1 !! data = Some b /\ Z.of_nat (length b) = size
       /\ take 28 b = header_bytes hd.
Proof.
  intros Hrun hd. unfold rcpdGetSerializedData in Hrun.
  destruct (maxmeshes m =? 0); [discriminate|].
  fold (written_header m includeBuffer) in Hrun. fold hd in Hrun.
  change (sizeof_times 4 (int32 ((if includeBuffer then maxverts m
                                   else nverts m) * 3)))
    with (verts_size hd) in Hrun.
  change (sizeof_times 4 (int32 ((if includeBuffer then maxmeshes m
                                   else nmeshes m) * 4)))
    with (meshes_size hd) in Hrun.
  change (sizeof_times 1 (int32 ((if includeBuffer then maxtris m
                                   else ntris m) * 4)))
    with (tris_size hd) in Hrun.
  fold (total_size hd) in Hrun.
  destruct (alloc_cases h (total_size hd))
    as [(rest & Hbud & Hpos & Halloc)|(h' & Halloc & _)];
    rewrite Halloc in Hrun; [|discriminate].
  set (d := S (next_block h)) in *.
  set (h0 := mkHeap _ _ _) in *.
  assert (Hb0 : blocks h0 !! d
                = Some (replicate (Z.to_nat (total_size hd)) fresh_byte))
    by (unfold h0; cbn [blocks]; apply lookup_insert_eq).
  assert (Htot : in_int32 (total_size hd)) by apply int32_range.
  unfold in_int32 in Htot.
  cbv beta iota zeta in Hrun.
  destruct (store d 0 (header_bytes hd) sizeof_header h0) as [ha|] eqn:Ha;
    [|discriminate].
  rewrite bind_Ok in Hrun.
  destruct (store_tracked h0 d _ 0 _ sizeof_header ha Hb0
              ltac:(rewrite length_replicate; lia)
              ltac:(by rewrite header_bytes_length) Ha)
    as (ba & Hba & Hla & _ & Hhd & _ & Hbound_a & Hnb_a & Hbg_a).
  rewrite length_replicate in Hla, Hbound_a.
  change (int32 (0 + sizeof_header)) with 28 in Hrun.
  unfold sizeof_header in *.
  destruct (copy d 28 (meshes m) 0 (meshes_size hd) ha) as [hb|] eqn:Hb;
    [|discriminate].
  rewrite bind_Ok in Hrun.
  destruct (copy_tracked ha d ba 28 _ _ _ hb Hba ltac:(lia) Hb)
    as (bb & Hbb & Hlb & Hpre_b & Hms & Hbound_b & Hnb_b & Hbg_b).
  rewrite (int32_id (28 + meshes_size hd)) in Hrun
    by (unfold in_int32; lia).
  destruct (copy d (28 + meshes_size hd) (tris m) 0 (tris_size hd) hb)
    as [hc|] eqn:Hc; [|discriminate].
  rewrite bind_Ok in Hrun.
  destruct (copy_tracked hb d bb (28 + meshes_size hd) _ _ _ hc Hbb
              ltac:(lia) Hc)
    as (bc & Hbc & Hlc & Hpre_c & Hts & Hbound_c & Hnb_c & Hbg_c).
  rewrite (int32_id (28 + meshes_size hd + tris_size hd)) in Hrun
    by (unfold in_int32; lia).
  destruct (copy d (28 + meshes_size hd + tris_size hd) (verts m) 0
              (verts_size hd) hc) as [hv|] eqn:Hv; [|discriminate].
  rewrite bind_Ok in Hrun.
  destruct (copy_tracked hc d bc (28 + meshes_size hd + tris_size hd)
              _ _ _ hv Hbc ltac:(lia) Hv)
    as (bv & Hbv & Hlv & Hpre_v & Hvs & Hbound_v & Hnb_v & Hbg_v).
  injection Hrun as <- <- <-.
  split; [reflexivity|]. split; [by rewrite Hnb_v, Hnb_c, Hnb_b, Hnb_a|].
  split; [reflexivity|]. repeat (split; [lia|]).
  split; [by rewrite Hbg_v, Hbg_c, Hbg_b, Hbg_a, Hbud|].
  exists bv. split; [exact Hbv|]. split; [lia|].
  assert (Hp28 : forall (x y : list Z) (k : Z), 28 <= k ->
            take (Z.to_nat k) x = take (Z.to_nat k) y ->
            take 28 x = take 28 y).
  { intros x y k Hk Heq.
    replace 28%nat with (28 `min` Z.to_nat k)%nat by lia.
    by rewrite <- !take_take, Heq. }
  rewrite (Hp28 bv bc (28 + meshes_size hd + tris_size hd) ltac:(lia)
             Hpre_v).
  rewrite (Hp28 bc bb (28 + meshes_size hd) ltac:(lia) Hpre_c).
  rewrite (Hp28 bb ba 28 ltac:(lia) Hpre_b).
  rewrite <- Hhd. change (Z.to_nat 0) with 0%nat. by rewrite drop_0.
Qed.

(** A successful [rcpdBuildFromMeshData], step by step: the three arrays
    are the next three blocks, filled from the three regions of the
    buffer. *)
Lemma build_ok (h : heap) (data : ptr) (b : list Z) (size : Z)
    (r : nmgPolyMeshDetail) (rest : list bool) :
  blocks h !! data = Some b -> (0 < data <= next_block h)%nat ->
  maxmeshes r = 0 ->
  let hd := header_of_bytes (take 28 b) in
  h_version hd = NMG_POLYMESHDETAIL_VERSION ->
  0 <= meshes_size hd -> 0 <= tris_size hd -> 0 <= verts_size hd ->
  sizeof_header + meshes_size hd + tris_size hd + verts_size hd
    <= Z.of_nat (length b) ->
  Z.of_nat (length b) < 2147483648 ->
  sizeof_header <= size -> total_size hd <= size ->
  alloc_budget h = true :: true :: true :: rest ->
  let p1 := S (next_block h) in
  let p2 := S p1 in
  let p3 := S p2 in
  exists h2,
    rcpdBuildFromMeshData data size (Some r) h
    = Ok (true,
          Some (mkMesh p1 p3 p2 (h_nmeshes hd) (h_nverts hd) (h_ntris hd)
                  (h_maxmeshes hd) (h_maxverts hd) (h_maxtris hd)
                  NMGen.NMG_ALLOC_TYPE_LOCAL),
          h2)
    /\ blocks h2 !! p1
       = Some (take (Z.to_nat (meshes_size hd)) (drop 28 b))
    /\ blocks h2 !! p2
       = Some (take (Z.to_nat (tris_size hd))
                 (drop (Z.to_nat (28 + meshes_size hd)) b))
    /\ blocks h2 !! p3
       = Some (take (Z.to_nat (verts_size hd))
                 (drop (Z.to_nat (28 + meshes_size hd + tris_size hd)) b))
    /\ blocks h2 !! data = Some b
    /\ alloc_budget h2 = rest.
Proof.
  intros Hb Hdata Hmax hd Hver Hms Hts Hvs Hfit Hsmall Hsize Htotal Hbud
    p1 p2 p3.
  unfold sizeof_header in *.
  unfold rcpdBuildFromMeshData, rcpdBuildFromMeshDataOn.
  destruct data as [|d']; [lia|].
  rewrite Hmax. change (negb (0 =? 0)) with false.
  replace (size <? sizeof_header) with false
    by (symmetry; apply Z.ltb_ge; unfold sizeof_header; lia).
  cbn [orb].
  rewrite (load_block h (S d') b 0 sizeof_header Hb)
    by (unfold sizeof_header; lia).
  rewrite bind_Ok.
  change (Z.to_nat sizeof_header) with 28%nat.
  change (Z.to_nat 0) with 0%nat. rewrite drop_0. fold hd.
  rewrite Hver, Z.eqb_refl. cbn [negb].
  fold (verts_size hd) (meshes_size hd) (tris_size hd).
  fold (total_size hd).
  replace (size <? total_size hd) with false
    by (symmetry; apply Z.ltb_ge; lia).
  rewrite (alloc_granted h (meshes_size hd) _ Hbud Hms).
  fold p1. cbv beta iota. change (p1 =? 0)%nat with false. cbv iota.
  rewrite (alloc_granted_mk _ _ (true :: rest) (tris_size hd) Hts).
  fold p2. cbv beta iota.
  change (p2 =? 0)%nat with false. cbv iota.
  rewrite (alloc_granted_mk _ _ rest (verts_size hd) Hvs).
  fold p3. cbv beta iota.
  change (p3 =? 0)%nat with false. cbv iota.
  cbn [set_counts_on set_counts set_verts set_tris set_meshes set_resourcetype
       meshes verts tris resourcetype].
  set (bl0 := <[p3 := _]> (<[p2 := _]> (<[p1 := _]> (blocks h)))).
  assert (Hne : S d' <> p1 /\ S d' <> p2 /\ S d' <> p3
                /\ p1 <> p2 /\ p1 <> p3 /\ p2 <> p3)
    by (unfold p1, p2, p3; lia).
  destruct Hne as (N1 & N2 & N3 & N12 & N13 & N23).
  rewrite (copy_into_fresh _ p1 (S d') b sizeof_header (meshes_size hd));
    cbn [blocks next_block alloc_budget]; unfold sizeof_header;
    [ | unfold bl0; by rewrite !lookup_insert_ne, lookup_insert_eq by done
      | unfold bl0; by rewrite !lookup_insert_ne by done
      | lia | lia | lia ].
  rewrite bind_Ok.
  rewrite (int32_id (28 + meshes_size hd)) by (unfold in_int32; lia).
  rewrite (copy_into_fresh _ p2 (S d') b (28 + meshes_size hd) (tris_size hd));
    cbn [blocks next_block alloc_budget];
    [ | unfold bl0;
        by rewrite !lookup_insert_ne, lookup_insert_eq by done
      | unfold bl0; by rewrite !lookup_insert_ne by done
      | lia | lia | lia ].
  rewrite bind_Ok.
  rewrite (int32_id (28 + meshes_size hd + tris_size hd))
    by (unfold in_int32; lia).
  rewrite (copy_into_fresh _ p3 (S d') b (28 + meshes_size hd + tris_size hd)
             (verts_size hd));
    cbn [blocks next_block alloc_budget];
    [ | unfold bl0;
        by rewrite !lookup_insert_ne, lookup_insert_eq by done
      | unfold bl0; by rewrite !lookup_insert_ne by done
      | lia | lia | lia ].
  rewrite bind_Ok.
  eexists. split; [reflexivity|]. cbn [blocks alloc_budget].
  change (Z.to_nat 28) with 28%nat.
  split; [by rewrite !lookup_insert_ne, lookup_insert_eq by done|].
  split; [by rewrite !lookup_insert_ne, lookup_insert_eq by done|].
  split; [by rewrite lookup_insert_eq|].
  split; [|reflexivity].
  unfold bl0. by rewrite !lookup_insert_ne by done.
Qed.

Lemma total_size_exact hd :
  0 <= meshes_size hd -> 0 <= tris_size hd -> 0 <= verts_size hd ->
  sizeof_header + meshes_size hd + tris_size hd + verts_size hd
    <= total_size hd ->
  total_size hd
  = sizeof_header + meshes_size hd + tris_size hd + verts_size hd.
Proof.
  intros Hms Hts Hvs Hle.
  assert (Hr : in_int32 (total_size hd)) by apply int32_range.
  unfold in_int32, sizeof_header in *.
  assert (E1 : int32 (28 + verts_size hd) = 28 + verts_size hd)
    by (apply int32_id; unfold in_int32; lia).
  assert (E2 : int32 (28 + verts_size hd + meshes_size hd)
               = 28 + verts_size hd + meshes_size hd)
    by (apply int32_id; unfold in_int32; lia).
  assert (E3 : int32 (28 + verts_size hd + meshes_size hd + tris_size hd)
               = 28 + verts_size hd + meshes_size hd + tris_size hd)
    by (apply int32_id; unfold in_int32; lia).
  unfold total_size, sizeof_header. rewrite E1, E2, E3. lia.
Qed.

(** One sub-mesh, one triangle and one vertex, with the three arrays in
    the blocks 3, 1 and 2. *)
Definition small_mesh : nmgPolyMeshDetail :=
  mkMesh 3%nat 2%nat 1%nat 1 1 1 1 1 1 NMGen.NMG_ALLOC_TYPE_LOCAL.

Definition small_heap (budget : list bool) : heap :=
  {| blocks :=
       {[ 1%nat := [0; 1; 2; 0];
          2%nat := replicate 12 7;
          3%nat := [1; 2; 3; 4; 5; 6; 7; 8; 9; 10; 11; 12; 13; 14; 15; 16] ]};
     next_block := 3;
     alloc_budget := budget |}.

(** The heap after [small_mesh] has been serialized into block 4. *)
Definition serialized_heap (budget : list bool) : heap :=
  {| blocks :=
       <[ 4%nat := header_bytes (written_header small_mesh false)
                   ++ [1; 2; 3; 4; 5; 6; 7; 8; 9; 10; 11; 12; 13; 14; 15; 16]
                   ++ [0; 1; 2; 0] ++ replicate 12 7 ]>
         (blocks (small_heap []));
     next_block := 4;
     alloc_budget := budget |}.

(** The record came out of [rcpdGetSerializedData], the target record is
    fresh, and [rcpdBuildFromMeshData] returns [false]: the allocator has
    no memory for the first array. *)
Lemma detail_roundtrip_fails_without_memory :
  rcpdGetSerializedData (Some small_mesh) false (Some (mkSerialized O 0))
    (small_heap [true])
  = Ok (true, Some (mkSerialized 4%nat 60), serialized_heap [])
  /\ maxmeshes empty_mesh = 0
  /\ rcpdBuildFromMeshData 4%nat 60 (Some empty_mesh) (serialized_heap [])
     = Ok (false,
           Some (mkMesh O O O 0 0 0 0 0 0 NMGen.NMG_ALLOC_TYPE_LOCAL),
           serialized_heap []).
Proof.
  split; [vm_compute; reflexivity|].
  split; [reflexivity|]. vm_compute. reflexivity.
Qed.

(** One sub-mesh, one triangle and two vertices: three capacities that
    are not all the same. *)
Definition wide_mesh : nmgPolyMeshDetail :=
  mkMesh 3%nat 2%nat 1%nat 1 2 1 1 2 1 NMGen.NMG_ALLOC_TYPE_LOCAL.

Definition wide_heap (budget : list bool) : heap :=
  {| blocks :=
       {[ 1%nat := [0; 1; 2; 0];
          2%nat := replicate 24 7;
          3%nat := [1; 2; 3; 4; 5; 6; 7; 8; 9; 10; 11; 12; 13; 14; 15; 16] ]};
     next_block := 3;
     alloc_budget := budget |}.

(** With eight-byte pointers the record that is read back has the
    capacities of the header one field early. *)
Lemma detail_roundtrip_shifts_capacities :
  exists h1 r' h2,
    rcpdGetSerializedData (Some wide_mesh) false (Some (mkSerialized O 0))
      (wide_heap [true; true; true; true])
    = Ok (true, Some (mkSerialized 4%nat 72), h1)
    /\ maxmeshes empty_mesh = 0
    /\ rcpdBuildFromMeshDataOn LLP64 4%nat 72 (Some empty_mesh) h1
       = Ok (true, Some r', h2)
    /\ (h_maxmeshes (written_header wide_mesh false),
        h_maxverts (written_header wide_mesh false),
        h_maxtris (written_header wide_mesh false)) = (1, 2, 1)
    /\ (maxmeshes r', maxverts r', maxtris r') = (2, 1, 0).
Proof.
  eexists _, _, _. split; [vm_compute; reflexivity|].
  split; [reflexivity|]. split; [vm_compute; reflexivity|].
  split; reflexivity.
Qed.

(** C10, as stated, fails in two ways.  The allocator may have no memory
    for the arrays of the reader, which then returns [false].  And with
    eight-byte pointers the reader returns [true] with capacities that are
    not those of the serialized header. *)
Lemma detail_roundtrip_fails :
  (rcpdGetSerializedData (Some small_mesh) false (Some (mkSerialized O 0))
     (small_heap [true])
   = Ok (true, Some (mkSerialized 4%nat 60), serialized_heap [])
   /\ maxmeshes empty_mesh = 0
   /\ rcpdBuildFromMeshData 4%nat 60 (Some empty_mesh) (serialized_heap [])
      = Ok (false,
            Some (mkMesh O O O 0 0 0 0 0 0 NMGen.NMG_ALLOC_TYPE_LOCAL),
            serialized_heap []))
  /\ (exists h1 r' h2,
        rcpdGetSerializedData (Some wide_mesh) false (Some (mkSerialized O 0))
          (wide_heap [true; true; true; true])
        = Ok (true, Some (mkSerialized 4%nat 72), h1)
        /\ maxmeshes empty_mesh = 0
        /\ rcpdBuildFromMeshDataOn LLP64 4%nat 72 (Some empty_mesh) h1
           = Ok (true, Some r', h2)
        /\ (h_maxmeshes (written_header wide_mesh false),
            h_maxverts (written_header wide_mesh false),
            h_maxtris (written_header wide_mesh false)) = (1, 2, 1)
        /\ (maxmeshes r', maxverts r', maxtris r') = (2, 1, 0)).
Proof.
  split.
  - exact detail_roundtrip_fails_without_memory.
  - exact detail_roundtrip_shifts_capacities.
Qed.

(** C10, amended: with four-byte pointers, when the three allocations of
    the reader are granted, reading back what [rcpdGetSerializedData]
    wrote succeeds; the counts of the record are those of the serialized
    header, the three arrays are the three regions of the buffer after the
    header, in the order meshes, triangles, vertices, which make up the
    whole of it, and the record is locally owned. *)
Theorem detail_roundtrip (m : nmgPolyMeshDetail) (includeBuffer : bool)
    (out : serialized) (h : heap) (data : ptr) (size : Z) (h1 : heap)
    (r : nmgPolyMeshDetail) (rest : list bool) :
  rcpdGetSerializedData (Some m) includeBuffer (Some out) h
  = Ok (true, Some (mkSerialized data size), h1) ->
  maxmeshes r = 0 ->
  alloc_budget h1 = true :: true :: true :: rest ->
  exists b r' h2,
    blocks h1 !! data = Some b
    /\ rcpdBuildFromMeshDataOn ILP32 data size (Some r) h1
       = Ok (true, Some r', h2)
    /\ let hd := header_of_bytes (take 28 b) in
       hd = wrapped (written_header m includeBuffer)
       /\ nmeshes r' = h_nmeshes hd /\ nverts r' = h_nverts hd
       /\ ntris r' = h_ntris hd /\ maxmeshes r' = h_maxmeshes hd
       /\ maxverts r' = h_maxverts hd /\ maxtris r' = h_maxtris hd
       /\ resourcetype r' = NMGen.NMG_ALLOC_TYPE_LOCAL
       /\ blocks h2 !! meshes r'
          = Some (take (Z.to_nat (meshes_size hd)) (drop 28 b))
       /\ blocks h2 !! tris r'
          = Some (take (Z.to_nat (tris_size hd))
                    (drop (Z.to_nat (28 + meshes_size hd)) b))
       /\ blocks h2 !! verts r'
          = Some (take (Z.to_nat (verts_size hd))
                    (drop (Z.to_nat (28 + meshes_size hd + tris_size hd)) b))
       /\ Z.of_nat (length b)
          = 28 + meshes_size hd + tris_size hd + verts_size hd.
Proof.
  intros Hser Hmax Hbud.
  destruct (serialize_inv m includeBuffer out h data size h1 Hser)
    as (Hdata & Hnb & Hsize & Hms & Hts & Hvs & Hfit & _ & b & Hb & Hlen & Hhd).
  set (wh := written_header m includeBuffer) in *.
  assert (Hdec : header_of_bytes (take 28 b) = wrapped wh)
    by (rewrite Hhd; apply header_of_header_bytes).
  destruct (wrapped_sizes wh) as (Wm & Wt & Wv & Wtot).
  assert (Hexact : size = sizeof_header + meshes_size wh + tris_size wh
                          + verts_size wh).
  { rewrite Hsize. apply total_size_exact; auto. by rewrite <- Hsize. }
  assert (Hrange : in_int32 size) by (rewrite Hsize; apply int32_range).
  unfold in_int32, sizeof_header in *.
  destruct (build_ok h1 data b size r rest Hb) as (h2 & Hrun & H1 & H2 & H3 & _).
  - lia.
  - exact Hmax.
  - by rewrite Hdec.
  - rewrite Hdec, Wm. lia.
  - rewrite Hdec, Wt. lia.
  - rewrite Hdec, Wv. lia.
  - rewrite Hdec, Wm, Wt, Wv. unfold sizeof_header. lia.
  - lia.
  - unfold sizeof_header. lia.
  - rewrite Hdec, Wtot. lia.
  - exact Hbud.
  - eexists b, _, h2. split; [exact Hb|]. split; [exact Hrun|].
    cbv zeta. cbn [nmeshes nverts ntris maxmeshes maxverts maxtris
                   resourcetype meshes tris verts].
    split; [exact Hdec|]. do 7 (split; [reflexivity|]).
    split; [exact H1|]. split; [exact H2|]. split; [exact H3|].
    rewrite Hdec, Wm, Wt, Wv. lia.
Qed.

Lemma detail_roundtrip_witness :
  rcpdGetSerializedData (Some small_mesh) false (Some (mkSerialized O 0))
    (small_heap [true; true; true; true])
  = Ok (true, Some (mkSerialized 4%nat 60), serialized_heap [true; true; true])
  /\ exists b r' h2,
    blocks (serialized_heap [true; true; true]) !! 4%nat = Some b
    /\ rcpdBuildFromMeshDataOn ILP32 4%nat 60 (Some empty_mesh)
         (serialized_heap [true; true; true])
       = Ok (true, Some r', h2)
    /\ let hd := header_of_bytes (take 28 b) in
       hd = wrapped (written_header small_mesh false)
       /\ nmeshes r' = h_nmeshes hd /\ nverts r' = h_nverts hd
       /\ ntris r' = h_ntris hd /\ maxmeshes r' = h_maxmeshes hd
       /\ maxverts r' = h_maxverts hd /\ maxtris r' = h_maxtris hd
       /\ resourcetype r' = NMGen.NMG_ALLOC_TYPE_LOCAL
       /\ blocks h2 !! meshes r'
          = Some (take (Z.to_nat (meshes_size hd)) (drop 28 b))
       /\ blocks h2 !! tris r'
          = Some (take (Z.to_nat (tris_size hd))
                    (drop (Z.to_nat (28 + meshes_size hd)) b))
       /\ blocks h2 !! verts r'
          = Some (take (Z.to_nat (verts_size hd))
                    (drop (Z.to_nat (28 + meshes_size hd + tris_size hd)) b))
       /\ Z.of_nat (length b)
          = 28 + meshes_size hd + tris_size hd + verts_size hd.
Proof.
  assert (Hser : rcpdGetSerializedData (Some small_mesh) false
                   (Some (mkSerialized O 0))
                   (small_heap [true; true; true; true])
                 = Ok (true, Some (mkSerialized 4%nat 60),
                       serialized_heap [true; true; true]))
    by (vm_compute; reflexivity).
  split; [exact Hser|].
  exact (detail_roundtrip small_mesh false (mkSerialized O 0)
           (small_heap [true; true; true; true]) 4%nat 60
           (serialized_heap [true; true; true]) empty_mesh [] Hser eq_refl
           eq_refl).
Defined.

End DetailRoundTrip.

(** ** Reading an archive *)

Module UnpackFacts.
Import Heap HeapFacts HeapSteps Detour NavMesh.

Lemma load_inv (h : heap) (p : ptr) (b : list Z) (off n : Z) bytes :
  blocks h !! p = Some b -> n <> 0 ->
  load p off n h = Ok bytes ->
  0 <= off /\ 0 <= n /\ off + n <= Z.of_nat (length b)
  /\ bytes = take (Z.to_nat n) (drop (Z.to_nat off) b).
Proof.
  intros Hb Hn. unfold load. rewrite Hb.
  destruct (n =? 0) eqn:En; [apply Z.eqb_eq in En; lia|].
  unfold load_bytes.
  destruct (n <? 0) eqn:Hneg; [discriminate|].
  destruct ((off <? 0) || (Z.of_nat (length b) <? off + n)) eqn:Hbd;
    [discriminate|].
  apply orb_false_iff in Hbd as [Ho Hm].
  apply Z.ltb_ge in Hneg, Ho, Hm. intros [= <-]. auto.
Qed.

Lemma store_budget p off src n h h' :
  store p off src n h = Ok h' -> alloc_budget h' = alloc_budget h.
Proof.
  unfold store. destruct (n =? 0); [by intros [= <-]|].
  destruct (blocks h !! p); [|destruct (n <? 0); discriminate].
  destruct (store_bytes l off src n); [|discriminate].
  rewrite bind_Ok. by intros [= <-].
Qed.

Lemma copy_budget dst doff src soff n h h' :
  copy dst doff src soff n h = Ok h' -> alloc_budget h' = alloc_budget h.
Proof.
  unfold copy. destruct (load src soff n h); [|discriminate].
  rewrite bind_Ok. apply store_budget.
Qed.


Lemma alloc_object_cases (h : heap) :
  (exists rest, alloc_budget h = true :: rest
     /\ alloc_object h = (true, mkHeap (blocks h) (next_block h) rest))
  \/ (exists h', alloc_object h = (false, h')).
Proof.
  unfold alloc_object. destruct (alloc_budget h) as [|[|] rest].
  - right. by eexists.
  - left. by exists rest.
  - right. by eexists.
Qed.

Lemma alloc_object_keeps (h : heap) :
  blocks (alloc_object h).2 = blocks h
  /\ next_block (alloc_object h).2 = next_block h.
Proof. unfold alloc_object. by destruct (alloc_budget h). Qed.

(** The number of live tiles of a table. *)
Definition live_count (tiles : list dtMeshTile) : nat :=
  length (filter (fun t => is_live t = true) tiles).

Lemma live_count_cons t tiles :
  live_count (t :: tiles)
  = ((if is_live t then 1 else 0) + live_count tiles)%nat.
Proof.
  unfold live_count. rewrite filter_cons.
  destruct (decide (is_live t = true)) as [E|E].
  - rewrite E. reflexivity.
  - apply not_true_is_false in E. rewrite E. reflexivity.
Qed.

Lemma live_count_insert tiles (i : nat) t t' :
  tiles !! i = Some t -> header t = false -> is_live t' = true ->
  live_count (<[i := t']> tiles) = S (live_count tiles).
Proof.
  revert i. induction tiles as [|t0 tiles IH]; intros i Hi Hh Hl.
  - discriminate.
  - destruct i as [|i]; simpl in Hi |- *.
    + injection Hi as ->. rewrite !live_count_cons, Hl.
      unfold is_live. rewrite Hh. reflexivity.
    + rewrite !live_count_cons, (IH i Hi Hh Hl). lia.
Qed.

Lemma live_count_empty n : live_count (replicate n empty_tile) = 0%nat.
Proof.
  induction n as [|n IH]; [reflexivity|].
  simpl replicate. rewrite live_count_cons, IH. reflexivity.
Qed.

Lemma first_free_spec tiles k i :
  first_free tiles k = Some i ->
  (k <= i)%nat /\ exists t, tiles !! (i - k)%nat = Some t /\ header t = false.
Proof.
  revert k. induction tiles as [|t tiles IH]; intros k; simpl.
  - discriminate.
  - destruct (header t) eqn:Hh.
    + intros Hf. destruct (IH _ Hf) as (Hle & t' & Ht' & Hh').
      split; [lia|]. exists t'.
      replace (i - k)%nat with (S (i - S k)) by lia. auto.
    + intros [= <-]. split; [lia|]. exists t.
      rewrite Nat.sub_diag. auto.
Qed.

(** An insert that does not fail adds one live tile, provided the payload
    size is not zero. *)
Lemma addTile_live (m : dtNavMesh) p size fl lastRef h status m' ref :
  addTile m p size fl lastRef h = (status, m', ref) ->
  size <> 0 ->
  dtStatusFailed status = true
  \/ (dtStatusFailed status = false
      /\ live_count (m_tiles m') = S (live_count (m_tiles m))
      /\ m_params m' = m_params m).
Proof.
  unfold addTile. intros Hrun Hsize.
  destruct (negb (decode_int (field (default [] (blocks h !! p)) 0)
                  =? DT_NAVMESH_MAGIC)).
  { injection Hrun as <- <- <-. by left. }
  destruct (negb (decode_int (field (default [] (blocks h !! p)) 1)
                  =? DT_NAVMESH_VERSION)).
  { injection Hrun as <- <- <-. by left. }
  assert (Hnew : is_live (mkTile true size p fl) = true).
  { unfold is_live. simpl. apply Z.eqb_neq in Hsize. by rewrite Hsize. }
  assert (Hins : forall i t, m_tiles m !! i = Some t -> header t = false ->
            (DT_SUCCESS,
             mkNavMesh (m_params m)
               (<[i := mkTile true size p fl]> (m_tiles m)),
             Z.of_nat i + 1) = (status, m', ref) ->
            dtStatusFailed status = true
            \/ (dtStatusFailed status = false
                /\ live_count (m_tiles m') = S (live_count (m_tiles m))
                /\ m_params m' = m_params m)).
  { intros i t Hi Hh [= <- <- <-]. right. cbn [m_tiles m_params].
    split; [reflexivity|]. split; [|reflexivity].
    by apply (live_count_insert _ i t). }
  destruct (lastRef =? 0).
  - destruct (first_free (m_tiles m) 0) as [i|] eqn:Hff.
    + apply first_free_spec in Hff as (_ & t & Ht & Hh).
      rewrite Nat.sub_0_r in Ht. by apply (Hins i t).
    + injection Hrun as <- <- <-. by left.
  - destruct (lastRef <? 1).
    { injection Hrun as <- <- <-. by left. }
    destruct (m_tiles m !! Z.to_nat (lastRef - 1)) as [t|] eqn:Ht.
    + destruct (header t) eqn:Hh.
      * injection Hrun as <- <- <-. by left.
      * by apply (Hins (Z.to_nat (lastRef - 1)) t).
    + injection Hrun as <- <- <-. by left.
Qed.

Lemma failed_invalid_param : dtStatusFailed (DT_FAILURE + DT_INVALID_PARAM) = true.
Proof. reflexivity. Qed.

Lemma failed_out_of_memory : dtStatusFailed (DT_FAILURE + DT_OUT_OF_MEMORY) = true.
Proof. reflexivity. Qed.

Lemma failed_wrong_version : dtStatusFailed (DT_FAILURE + DT_WRONG_VERSION) = true.
Proof. reflexivity. Qed.

(** The tile loop either stops with a failure status, or has been granted
    one allocation and has inserted one live tile for each of its [n]
    records. *)
Lemma read_tiles_outcome (data : ptr) (safeStorage : bool) (n : nat) :
  forall st st',
    read_tiles data safeStorage n st = Ok st' ->
    rs_success st = true ->
    (rs_success st' = false /\ dtStatusFailed (rs_status st') = true)
    \/ (rs_success st' = true
        /\ (exists rest,
              alloc_budget (rs_heap st) = replicate n true ++ rest)
        /\ live_count (m_tiles (rs_mesh st'))
           = (live_count (m_tiles (rs_mesh st)) + n)%nat
        /\ m_params (rs_mesh st') = m_params (rs_mesh st)).
Proof.
  induction n as [|n IH]; intros st st' Hrun Hs.
  - injection Hrun as <-. right. split; [exact Hs|].
    split; [by exists (alloc_budget (rs_heap st))|]. split; [lia|reflexivity].
  - cbn [read_tiles] in Hrun.
    destruct (load data (rs_pos st) sizeof_tile_header (rs_heap st))
      as [hbytes|]; [|discriminate].
    rewrite bind_Ok in Hrun.
    set (th := tile_header_of_bytes hbytes) in *.
    destruct ((tileRef th =? 0) || (th_dataSize th =? 0)) eqn:Hc.
    { injection Hrun as <-. left. split; reflexivity. }
    apply orb_false_iff in Hc as [_ Hsz]. apply Z.eqb_neq in Hsz.
    destruct (alloc_cases (rs_heap st) (th_dataSize th))
      as [(rest & Hbud & Hpos & Ha)|(h' & Ha & _)];
      rewrite Ha in Hrun; cbv beta iota in Hrun.
    2:{ change (0 =? 0)%nat with true in Hrun. cbv iota in Hrun.
        injection Hrun as <-. left. split; reflexivity. }
    change (S (next_block (rs_heap st)) =? 0)%nat with false in Hrun.
    cbv iota in Hrun.
    match type of Hrun with
    | (?c ≫= _) = _ => destruct c as [h2|] eqn:Hcp; [|discriminate]
    end.
    rewrite bind_Ok in Hrun.
    apply copy_budget in Hcp. cbn [alloc_budget] in Hcp.
    match type of Hrun with
    | context [addTile ?m ?p ?sz ?fl ?lr ?hh] =>
        destruct (addTile m p sz fl lr hh) as [[status mesh] ref] eqn:Hadd
    end.
    destruct (dtStatusFailed status) eqn:Hf.
    { injection Hrun as <-. left. split; [reflexivity|exact Hf]. }
    apply addTile_live in Hadd as [Hadd|(_ & Hlive & Hpar)];
      [congruence| |exact Hsz].
    destruct (IH _ _ Hrun eq_refl)
      as [Hfail|(Hok & (rest' & Hbud') & Hcount & Hpar')];
      [by left|right].
    cbn [rs_heap rs_mesh] in *.
    split; [exact Hok|]. split.
    + exists rest'. rewrite Hbud. simpl. f_equal. by rewrite <- Hcp, Hbud'.
    + split; [lia|congruence].
Qed.

(** The image of a tile record: the twelve bytes of its header and the
    bytes of its payload. *)
Fixpoint records_bytes (recs : list (list Z * list Z)) : list Z :=
  match recs with
  | [] => []
  | (hbytes, payload) :: rest => hbytes ++ payload ++ records_bytes rest
  end.

(** The payload has the length that the header announces. *)
Definition record_wf (rec : list Z * list Z) : Prop :=
  length rec.1 = 12%nat
  /\ length rec.2 = Z.to_nat (th_dataSize (tile_header_of_bytes rec.1)).

(** A tile header with a zero reference or a zero payload size. *)
Definition corrupt (hbytes : list Z) : Prop :=
  tileRef (tile_header_of_bytes hbytes) = 0
  \/ th_dataSize (tile_header_of_bytes hbytes) = 0.

Lemma load_middle (h : heap) (p : ptr) (pre x post : list Z) (off n : Z) :
  blocks h !! p = Some (pre ++ x ++ post) ->
  off = Z.of_nat (length pre) -> n = Z.of_nat (length x) ->
  load p off n h = Ok x.
Proof.
  intros Hb -> ->.
  rewrite (load_block h p _ _ _ Hb) by (rewrite ?length_app; lia).
  rewrite !Nat2Z.id, drop_app_length, take_app_length. reflexivity.
Qed.

(** On a buffer that holds well-formed records followed by a corrupt
    header, a loop of more iterations than there are records stops with a
    failure. *)
Lemma read_tiles_corrupt (data : ptr) (safeStorage : bool)
    (badh rest : list Z) :
  length badh = 12%nat -> corrupt badh ->
  forall recs n st pre,
    blocks (rs_heap st) !! data
    = Some (pre ++ records_bytes recs ++ badh ++ rest) ->
    Z.of_nat (length (pre ++ records_bytes recs ++ badh ++ rest))
      < 2147483648 ->
    rs_pos st = Z.of_nat (length pre) ->
    (length recs < n)%nat ->
    (0 < data <= next_block (rs_heap st))%nat ->
    Forall record_wf recs ->
    exists st',
      read_tiles data safeStorage n st = Ok st'
      /\ rs_success st' = false /\ dtStatusFailed (rs_status st') = true.
Proof.
  intros Hbad Hcor recs.
  induction recs as [|[hbytes payload] recs IH];
    intros n st pre Hb Hsmall Hpos Hn Hdata Hwf.
  - destruct n as [|n]; [simpl in Hn; lia|].
    cbn [read_tiles]. simpl records_bytes in Hb.
    rewrite (load_middle _ data pre badh rest _ _ Hb) by
      (unfold sizeof_tile_header; lia).
    rewrite bind_Ok.
    destruct Hcor as [Hc|Hc]; rewrite Hc, ?Z.eqb_refl, ?orb_true_r;
      cbn [orb]; eexists; (split; [reflexivity|]); split; reflexivity.
  - destruct n as [|n]; [simpl in Hn; lia|].
    apply Forall_cons in Hwf as [[Hlh Hlp] Hwf]. cbn [fst snd] in Hlh, Hlp.
    cbn [read_tiles]. simpl records_bytes in Hb, Hsmall.
    rewrite <- !app_assoc in Hb, Hsmall.
    rewrite (load_middle _ data pre hbytes _ _ _ Hb) by
      (unfold sizeof_tile_header; lia).
    rewrite bind_Ok.
    set (th := tile_header_of_bytes hbytes) in *.
    destruct ((tileRef th =? 0) || (th_dataSize th =? 0)) eqn:Hc.
    { eexists. split; [reflexivity|]. split; reflexivity. }
    destruct (alloc_cases (rs_heap st) (th_dataSize th))
      as [(bud & Hbud & Hsz & Ha)|(h' & Ha & _)];
      rewrite Ha; cbv beta iota.
    2:{ change (0 =? 0)%nat with true. cbv iota.
        eexists. split; [reflexivity|]. split; reflexivity. }
    change (S (next_block (rs_heap st)) =? 0)%nat with false. cbv iota.
    rewrite !length_app in Hsmall.
    unfold sizeof_tile_header.
    rewrite (int32_id (rs_pos st + 12)) by (unfold in_int32; lia).
    rewrite (copy_into_fresh _ _ data
               (pre ++ hbytes ++ payload ++ records_bytes recs ++ badh ++ rest)
               (rs_pos st + 12) (th_dataSize th));
      cbn [blocks next_block alloc_budget];
      [ | apply lookup_insert_eq
        | rewrite lookup_insert_ne by lia; exact Hb
        | lia | lia | rewrite !length_app; lia ].
    rewrite bind_Ok.
    rewrite (int32_id (rs_pos st + 12 + th_dataSize th))
      by (unfold in_int32; lia).
    match goal with
    | |- context [addTile ?m ?p ?sz ?fl ?lr ?hh] =>
        destruct (addTile m p sz fl lr hh) as [[status mesh] ref]
    end.
    destruct (dtStatusFailed status) eqn:Hf.
    { eexists. split; [reflexivity|]. split; [reflexivity|exact Hf]. }
    apply (IH n _ (pre ++ hbytes ++ payload)); cbn [rs_heap rs_pos].
    + cbn [blocks]. rewrite !lookup_insert_ne by lia.
      rewrite Hb. by rewrite <- !app_assoc.
    + rewrite <- !app_assoc, !length_app. lia.
    + rewrite !length_app. lia.
    + simpl in Hn. lia.
    + cbn [next_block]. lia.
    + exact Hwf.
Qed.

(** C2: the archive reader is all-or-nothing.  On a buffer that holds
    [k - 1] well-formed tile records and then a tile header with a zero
    reference or a zero size, with [k] not above the declared tile count,
    the reader returns a failure status and a null container, whatever the
    allocator and the container do with the records before.  And whenever
    the reader returns, either the status is a failure and the container
    pointer is null, or the status is [DT_SUCCESS], every allocation it
    asked for was granted, and the container holds as many live tiles as
    the header declares. *)
Theorem unpack_all_or_nothing (data : ptr) (dataSize : Z)
    (safeStorage : bool) (cell : option dtNavMesh) (h : heap) (b : list Z) :
  blocks h !! data = Some b ->
  (0 < data <= next_block h)%nat ->
  sizeof_set_header <= uint32 dataSize ->
  let declared := Z.to_nat (tileCount (set_header_of_bytes (take 36 b))) in
  let run :=
    dtnmBuildDTNavMeshFromRaw data dataSize safeStorage (Some cell) h in
  (forall hb recs badh rest,
     b = hb ++ records_bytes recs ++ badh ++ rest ->
     length hb = 36%nat -> Forall record_wf recs ->
     length badh = 12%nat -> corrupt badh ->
     (length recs < declared)%nat ->
     Z.of_nat (length b) < 2147483648 ->
     exists status h',
       run = Ok (status, Some None, h') /\ dtStatusFailed status = true)
  /\ (forall status ppNavMesh' h',
        run = Ok (status, ppNavMesh', h') ->
        (dtStatusFailed status = true /\ ppNavMesh' = Some None)
        \/ (status = DT_SUCCESS
            /\ exists mesh rest,
                 ppNavMesh' = Some (Some mesh)
                 /\ live_count (m_tiles mesh) = declared
                 /\ alloc_budget h = replicate (2 + declared) true ++ rest)).
Proof.
  intros Hb Hdata Hsize declared run. subst run.
  destruct data as [|d]; [lia|].
  unfold dtnmBuildDTNavMeshFromRaw.
  replace (uint32 dataSize <? sizeof_set_header) with false
    by (symmetry; apply Z.ltb_ge; lia).
  split.
  - intros hb recs badh rest Heq Hhb Hwf Hbad Hcor Hk Hsmall.
    subst b. subst declared.
    rewrite take_app_length' in Hk by (symmetry; exact Hhb).
    rewrite (load_middle h (S d) [] hb _ 0 sizeof_set_header Hb)
      by (unfold sizeof_set_header; simpl length; lia).
    rewrite bind_Ok.
    destruct (negb (version (set_header_of_bytes hb) =? RCN_NAVMESH_VERSION)).
    { eexists _, _. split; reflexivity. }
    unfold dtAllocNavMesh.
    pose proof (alloc_object_keeps h) as [Hk1 Hn1].
    destruct (alloc_object h) as [[|] h1]; cbn [snd] in Hk1, Hn1;
      cbv beta iota; cbn [negb].
    2:{ eexists _, _. split; reflexivity. }
    unfold init.
    pose proof (alloc_object_keeps h1) as [Hk2 Hn2].
    destruct (alloc_object h1) as [granted h2]. cbn [snd] in Hk2, Hn2.
    cbv beta iota.
    destruct (granted && (0 <=? maxTiles (params (set_header_of_bytes hb))));
      cbv beta iota.
    2:{ rewrite failed_out_of_memory. eexists _, _. split; reflexivity. }
    change (dtStatusFailed DT_SUCCESS) with false. cbv iota.
    destruct (read_tiles_corrupt (S d) safeStorage badh rest Hbad Hcor recs
                (Z.to_nat (tileCount (set_header_of_bytes hb)))
                (mkRead (int32 (0 + sizeof_set_header))
                   (mkNavMesh (params (set_header_of_bytes hb))
                      (replicate
                         (Z.to_nat
                            (maxTiles (params (set_header_of_bytes hb))))
                         empty_tile))
                   h2 true DT_SUCCESS) hb)
      as (st' & Hrun & Hfail & Hstatus); cbn [rs_heap rs_pos].
    + rewrite Hk2, Hk1. exact Hb.
    + exact Hsmall.
    + rewrite Hhb. reflexivity.
    + exact Hk.
    + rewrite Hn2, Hn1. lia.
    + exact Hwf.
    + rewrite Hrun, bind_Ok, Hfail. cbn [negb].
      eexists _, _. split; [reflexivity|exact Hstatus].
  - intros status pp' h' Hrun.
    destruct (load (S d) 0 sizeof_set_header h) as [hbytes|] eqn:Hl;
      [|discriminate].
    rewrite bind_Ok in Hrun.
    apply (load_inv h (S d) b) in Hl as (_ & _ & _ & Hbytes);
      [|exact Hb|discriminate].
    change (Z.to_nat sizeof_set_header) with 36%nat in Hbytes.
    change (Z.to_nat 0) with 0%nat in Hbytes. rewrite drop_0 in Hbytes.
    subst hbytes. set (hd := set_header_of_bytes (take 36 b)) in *.
    destruct (negb (version hd =? RCN_NAVMESH_VERSION)).
    { injection Hrun as <- <- <-. left. split; reflexivity. }
    unfold dtAllocNavMesh in Hrun.
    destruct (alloc_object_cases h) as [(r1 & Hb1 & Ha1)|(h1 & Ha1)];
      rewrite Ha1 in Hrun; cbv beta iota in Hrun; cbn [negb] in Hrun.
    2:{ injection Hrun as <- <- <-. left. split; reflexivity. }
    unfold init in Hrun.
    match type of Hrun with
    | context [alloc_object ?hh] =>
        destruct (alloc_object_cases hh) as [(r2 & Hb2 & Ha2)|(h2 & Ha2)]
    end; rewrite Ha2 in Hrun; cbv beta iota in Hrun; cbn [andb] in Hrun.
    2:{ rewrite failed_out_of_memory in Hrun.
        injection Hrun as <- <- <-. left. split; reflexivity. }
    destruct (0 <=? maxTiles (params hd)); cbv beta iota in Hrun.
    2:{ rewrite failed_out_of_memory in Hrun.
        injection Hrun as <- <- <-. left. split; reflexivity. }
    change (dtStatusFailed DT_SUCCESS) with false in Hrun. cbv iota in Hrun.
    match type of Hrun with
    | (?c ≫= _) = _ => destruct c as [st'|] eqn:Hloop; [|discriminate]
    end.
    rewrite bind_Ok in Hrun.
    apply read_tiles_outcome in Hloop
      as [(Hfail & Hstatus)|(Hok & (rest & Hbud) & Hcount & _)];
      [| |reflexivity].
    + rewrite Hfail in Hrun. cbn [negb] in Hrun.
      injection Hrun as <- <- <-. left. split; [exact Hstatus|reflexivity].
    + rewrite Hok in Hrun. cbn [negb] in Hrun.
      injection Hrun as <- <- <-. right. split; [reflexivity|].
      exists (rs_mesh st'), rest. split; [reflexivity|].
      cbn [rs_heap rs_mesh m_tiles alloc_budget] in Hbud, Hcount.
      rewrite live_count_empty in Hcount. split; [exact Hcount|].
      cbn [alloc_budget] in Hb2. rewrite Hb1. simpl. f_equal.
      subst r1. f_equal. exact Hbud.
Qed.

(** An archive that declares two tiles: a good record, then a record
    with a zero reference. *)
Definition good_record : list Z * list Z :=
  (tile_header_bytes (mkTileHeader 1 11),
   OwnershipFacts.tile_payload [1; 2; 3]).

Definition zero_ref_header : list Z := tile_header_bytes (mkTileHeader 0 5).

Definition two_tile_header : list Z :=
  set_header_bytes
    {| version := RCN_NAVMESH_VERSION; tileCount := 2;
       params := OwnershipFacts.two_slot_params |}.

Definition corrupt_archive : list Z :=
  two_tile_header ++ records_bytes [good_record] ++ zero_ref_header
  ++ [1; 2; 3; 4; 5].

Definition corrupt_archive_heap : heap :=
  {| blocks := {[ 1%nat := corrupt_archive ]};
     next_block := 1;
     alloc_budget := [true; true; true; true] |}.

Lemma unpack_all_or_nothing_witness :
  exists status h',
    dtnmBuildDTNavMeshFromRaw 1%nat 76 true (Some None) corrupt_archive_heap
    = Ok (status, Some None, h')
    /\ dtStatusFailed status = true.
Proof.
  destruct (unpack_all_or_nothing 1%nat 76 true None corrupt_archive_heap
              corrupt_archive) as [Hcorrupt _].
  - reflexivity.
  - simpl. lia.
  - vm_compute. discriminate.
  - apply (Hcorrupt two_tile_header [good_record] zero_ref_header
             [1; 2; 3; 4; 5]).
    + reflexivity.
    + reflexivity.
    + constructor; [split; reflexivity|constructor].
    + reflexivity.
    + left. reflexivity.
    + vm_compute. lia.
    + vm_compute. reflexivity.
Defined.

(** The same run, evaluated: the first tile is inserted, the second record
    stops the loop, and the container with the one tile is torn down. *)
Example corrupt_archive_run :
  dtnmBuildDTNavMeshFromRaw 1%nat 76 true (Some None) corrupt_archive_heap
  = Ok (DT_FAILURE + DT_INVALID_PARAM, Some None,
        {| blocks := {[ 1%nat := corrupt_archive ]};
           next_block := 2;
           alloc_budget := [true] |}).
Proof. vm_compute. reflexivity. Qed.

End UnpackFacts.

(** ** Truncated mesh records *)

Module DetailTruncation.
Import Heap HeapFacts LayoutFacts PolyMeshDetail DetailRoundTrip.

Lemma sizeof_times_plain (k count : Z) :
  0 <= k -> 0 <= count -> k * count < 2147483648 ->
  sizeof_times k count = k * count.
Proof.
  intros Hk Hc Hlt. unfold sizeof_times, uint32.
  assert (Hcases : count <= k * count \/ k = 0) by nia.
  destruct Hcases as [Hle|Hzero].
  - rewrite (Z.mod_small count) by lia.
    rewrite (Z.mod_small (k * count)) by lia.
    apply int32_id. unfold in_int32. lia.
  - subst k. rewrite !Z.mul_0_l. reflexivity.
Qed.

(** Where the counts of a header are not negative and the size they imply
    fits an [int], the size that the reader computes is that size. *)
Lemma total_size_plain hd :
  0 <= h_maxmeshes hd -> 0 <= h_maxverts hd -> 0 <= h_maxtris hd ->
  28 + 12 * h_maxverts hd + 16 * h_maxmeshes hd + 4 * h_maxtris hd
    < 2147483648 ->
  total_size hd
  = 28 + 12 * h_maxverts hd + 16 * h_maxmeshes hd + 4 * h_maxtris hd.
Proof.
  intros Hm Hv Ht Hfit.
  unfold total_size, verts_size, meshes_size, tris_size, sizeof_header.
  rewrite (int32_id (h_maxverts hd * 3)) by (unfold in_int32; lia).
  rewrite (int32_id (h_maxmeshes hd * 4)) by (unfold in_int32; lia).
  rewrite (int32_id (h_maxtris hd * 4)) by (unfold in_int32; lia).
  rewrite !sizeof_times_plain by lia.
  rewrite (int32_id (28 + 4 * (h_maxverts hd * 3)))
    by (unfold in_int32; lia).
  rewrite (int32_id (28 + 4 * (h_maxverts hd * 3)
                     + 4 * (h_maxmeshes hd * 4)))
    by (unfold in_int32; lia).
  rewrite int32_id by (unfold in_int32; lia). lia.
Qed.

(** The detail-mesh reader on a truncated buffer: a buffer that holds the
    header and is shorter than the size the header implies is refused
    before anything is allocated or read after the header. *)
Lemma detail_truncated_rejected (h : heap) (p : ptr) (b : list Z)
    (dataSize : Z) (resultMesh : option nmgPolyMeshDetail) :
  blocks h !! p = Some b -> sizeof_header <= Z.of_nat (length b) ->
  dataSize < total_size (header_of_bytes (take 28 b)) ->
  rcpdBuildFromMeshData p dataSize resultMesh h = Ok (false, resultMesh, h).
Proof.
  intros Hb Hlen Hshort.
  unfold rcpdBuildFromMeshData, rcpdBuildFromMeshDataOn.
  destruct p as [|p']; [reflexivity|].
  destruct resultMesh as [m|]; [|reflexivity].
  destruct (negb (maxmeshes m =? 0) || (dataSize <? sizeof_header));
    [reflexivity|].
  rewrite (load_block h (S p') b 0 sizeof_header Hb)
    by (unfold sizeof_header in *; lia).
  rewrite bind_Ok. change (Z.to_nat sizeof_header) with 28%nat.
  change (Z.to_nat 0) with 0%nat. rewrite drop_0.
  destruct (negb (h_version (header_of_bytes (take 28 b))
                  =? NMG_POLYMESHDETAIL_VERSION)); [reflexivity|].
  fold (verts_size (header_of_bytes (take 28 b)))
       (meshes_size (header_of_bytes (take 28 b)))
       (tris_size (header_of_bytes (take 28 b))).
  fold (total_size (header_of_bytes (take 28 b))).
  replace (dataSize <? total_size (header_of_bytes (take 28 b))) with true
    by (symmetry; apply Z.ltb_lt; lia).
  reflexivity.
Qed.

End DetailTruncation.

(** ** The message arena, message by message *)

Module ArenaFacts.
Import BuildContext BuildContextInterop BuildContextFacts.

(** The length of the entry that [doLog] stores for a text of [len]
    characters when the pool offset is [size]. *)
Definition stored_length (size len : Z) : Z :=
  Z.min (len + 1) (MESSAGE_POOL_SIZE - size - 1).

(** One call of [doLog] that gets past the early exits, in full. *)
Lemma doLog_step (ctx : nmgBuildContext) (message : list Z) (len : Z) :
  arena_ok ctx -> getLogEnabled ctx = true ->
  1 <= len < 2147483647 -> len + 1 <= Z.of_nat (length message) ->
  mMessageCount ctx < MAX_MESSAGES ->
  let size := mTextPoolSize ctx in
  let n := stored_length size len in
  doLog ctx message len
  = Ok {| m_logEnabled := m_logEnabled ctx;
          mMessages :=
            <[Z.to_nat (mMessageCount ctx) := size]> (mMessages ctx);
          mMessageCount := mMessageCount ctx + 1;
          mTextPool :=
            <[Z.to_nat (size + (n - 1)) := 0]>
              (take (Z.to_nat size) (mTextPool ctx)
                 ++ take (Z.to_nat n) message
                 ++ drop (Z.to_nat (size + n)) (mTextPool ctx));
          mTextPoolSize := size + n |}.
Proof.
  intros (Hc & Hs & Hpl & Hml & Hnul) Hen Hlen Hmsg Hroom size n.
  unfold doLog. rewrite Hen. cbn [negb orb].
  replace (len =? 0) with false by (symmetry; apply Z.eqb_neq; lia).
  replace (MAX_MESSAGES <=? mMessageCount ctx) with false
    by (symmetry; apply Z.leb_gt; lia).
  cbn [orb]. subst n. unfold stored_length. fold size.
  unfold MAX_MESSAGES, MESSAGE_POOL_SIZE in *.
  rewrite (int32_id (65536 - size)) by (unfold in_int32; lia).
  replace (65536 - size <? 1) with false by (symmetry; apply Z.ltb_ge; lia).
  rewrite (int32_id (len + 1)) by (unfold in_int32; lia).
  rewrite (int32_id (65536 - size - 1)) by (unfold in_int32; lia).
  set (n := Z.min (len + 1) (65536 - size - 1)).
  assert (Hn : 0 <= n <= 65536 - size - 1 /\ n <= len + 1
               /\ (n = 0 -> size = 65535)) by (unfold n; lia).
  destruct Hn as (Hn1 & Hn2 & Hn3).
  unfold store_bytes.
  replace (n <? 0) with false by (symmetry; apply Z.ltb_ge; lia).
  replace (Z.of_nat (length message) <? n) with false
    by (symmetry; apply Z.ltb_ge; lia).
  replace (size <? 0) with false by (symmetry; apply Z.ltb_ge; lia).
  replace (Z.of_nat (length (mTextPool ctx)) <? size + n) with false
    by (symmetry; apply Z.ltb_ge; lia).
  cbn [orb]. rewrite bind_Ok.
  unfold store_at.
  rewrite !length_app, !length_take, length_drop.
  replace (size + (n - 1) <? 0) with false by (symmetry; apply Z.ltb_ge; lia).
  match goal with
  | |- context [Z.of_nat ?k <=? size + (n - 1)] =>
      replace (Z.of_nat k <=? size + (n - 1)) with false
        by (symmetry; apply Z.leb_gt; lia)
  end.
  cbn [orb]. rewrite bind_Ok.
  replace (mMessageCount ctx <? 0) with false
    by (symmetry; apply Z.ltb_ge; lia).
  replace (Z.of_nat (length (mMessages ctx)) <=? mMessageCount ctx)
    with false by (symmetry; apply Z.leb_gt; lia).
  cbn [orb]. rewrite bind_Ok.
  rewrite (int32_id (mMessageCount ctx + 1)) by (unfold in_int32; lia).
  rewrite (int32_id (size + n)) by (unfold in_int32; lia).
  reflexivity.
Qed.

Lemma doLog_full (ctx : nmgBuildContext) (message : list Z) (len : Z) :
  MAX_MESSAGES <= mMessageCount ctx -> doLog ctx message len = Ok ctx.
Proof.
  intros H. unfold doLog.
  replace (MAX_MESSAGES <=? mMessageCount ctx) with true
    by (symmetry; apply Z.leb_le; lia).
  by rewrite !orb_true_r.
Qed.

(** A text as [rcContext::log] hands it to [doLog]: a buffer and the number
    [len >= 1] of its characters, with room for the NUL after them. *)
Definition log_ok (p : list Z * Z) : Prop :=
  1 <= p.2 < 2147483647 /\ p.2 + 1 <= Z.of_nat (length p.1).

Definition log_ops (ps : list (list Z * Z)) : list arena_op :=
  map (fun p => OpLog p.1 p.2) ps.

Lemma log_ok_op (p : list Z * Z) : log_ok p -> op_ok (OpLog p.1 p.2).
Proof. unfold log_ok, op_ok. lia. Qed.

Lemma doLog_arena_ok (ctx ctx' : nmgBuildContext) (p : list Z * Z) :
  arena_ok ctx -> log_ok p -> doLog ctx p.1 p.2 = Ok ctx' -> arena_ok ctx'.
Proof.
  intros Hctx Hp Hrun.
  destruct (apply_op_ok ctx (OpLog p.1 p.2) Hctx (log_ok_op p Hp))
    as (ctx1 & Hrun1 & Hok & _).
  cbn [apply_op] in Hrun1. congruence.
Qed.

Lemma doLog_counts (ctx : nmgBuildContext) (p : list Z * Z) :
  arena_ok ctx -> getLogEnabled ctx = true -> log_ok p ->
  exists ctx',
    doLog ctx p.1 p.2 = Ok ctx' /\ arena_ok ctx'
    /\ getLogEnabled ctx' = true
    /\ getMessageCount ctx'
       = Z.min (getMessageCount ctx + 1) MAX_MESSAGES.
Proof.
  intros Hctx Hen Hp.
  destruct (Z_lt_le_dec (mMessageCount ctx) MAX_MESSAGES) as [Hlt|Hge].
  - destruct Hp as [Hp1 Hp2].
    pose proof (doLog_step ctx p.1 p.2 Hctx Hen Hp1 Hp2 Hlt) as Hstep.
    cbv zeta in Hstep. eexists. split; [exact Hstep|].
    split; [exact (doLog_arena_ok _ _ p Hctx (conj Hp1 Hp2) Hstep)|].
    unfold getLogEnabled, getMessageCount in *.
    cbn [m_logEnabled mMessageCount]. split; [done|lia].
  - exists ctx. rewrite doLog_full by done.
    split; [done|]. split; [exact Hctx|]. split; [exact Hen|].
    destruct Hctx as (Hc & _). unfold getMessageCount. lia.
Qed.

(** X1. Every non-empty message logged to an enabled context takes one of
    the [MAX_MESSAGES] slots, whatever the state of the text pool: after a
    run of such messages the count has grown by their number, up to
    [MAX_MESSAGES], where it stays. *)
Theorem log_count_saturates (ps : list (list Z * Z)) (ctx : nmgBuildContext) :
  arena_ok ctx -> getLogEnabled ctx = true -> Forall log_ok ps ->
  exists ctx',
    run_ops ctx (log_ops ps) = Ok ctx'
    /\ getMessageCount ctx'
       = Z.min (getMessageCount ctx + Z.of_nat (length ps)) MAX_MESSAGES.
Proof.
  intros Hctx Hen Hps.
  assert (Hcount : getMessageCount ctx <= MAX_MESSAGES)
    by (destruct Hctx as (Hc & _); unfold getMessageCount; lia).
  revert ctx Hctx Hen Hcount.
  induction Hps as [|p ps Hp Hps IH]; intros ctx Hctx Hen Hcount.
  - exists ctx. split; [done|]. cbn [length]. lia.
  - destruct (doLog_counts ctx p Hctx Hen Hp) as (ctx1 & Hrun & Hok & Hen1 & Hc1).
    destruct (IH ctx1 Hok Hen1 ltac:(lia)) as (ctx2 & Hrun2 & Hc2).
    exists ctx2. cbn [log_ops map run_ops apply_op].
    rewrite Hrun, bind_Ok. split; [exact Hrun2|].
    rewrite Hc2, Hc1. cbn [length]. lia.
Qed.

Lemma log_count_saturates_witness :
  exists ctx',
    run_ops fresh_context (log_ops [([72; 105; 0], 2); ([33; 0], 1)]) = Ok ctx'
    /\ getMessageCount ctx' = Z.min (0 + 2) MAX_MESSAGES.
Proof.
  apply (log_count_saturates [([72; 105; 0], 2); ([33; 0], 1)] fresh_context).
  - exact fresh_context_ok.
  - reflexivity.
  - repeat constructor; simpl; lia.
Defined.

Lemma insert_last_mid {A} (pre mid post : list A) (x : A) :
  mid <> [] ->
  <[(length pre + (length mid - 1))%nat := x]> (pre ++ mid ++ post)
  = pre ++ (take (length mid - 1) mid ++ [x]) ++ post.
Proof.
  intros Hmid.
  assert (0 < length mid)%nat by (destruct mid; [done|simpl; lia]).
  rewrite insert_app_r, insert_app_l by lia.
  rewrite insert_take_drop by lia.
  replace (S (length mid - 1)) with (length mid) by lia.
  by rewrite drop_all.
Qed.

(** The characters of a text that [doLog] keeps when the pool offset is
    [size]: all of them, or as many as leave room for the NUL and one
    spare byte. *)
Definition kept (size len : Z) : Z := Z.min len (MESSAGE_POOL_SIZE - size - 2).

(** One call of [doLog] with at least two bytes left in the pool. *)
Lemma doLog_entry (ctx : nmgBuildContext) (message : list Z) (len : Z) :
  arena_ok ctx -> getLogEnabled ctx = true ->
  1 <= len < 2147483647 -> len + 1 <= Z.of_nat (length message) ->
  mMessageCount ctx < MAX_MESSAGES ->
  mTextPoolSize ctx <= MESSAGE_POOL_SIZE - 2 ->
  let size := mTextPoolSize ctx in
  let k := kept size len in
  doLog ctx message len
  = Ok {| m_logEnabled := m_logEnabled ctx;
          mMessages :=
            <[Z.to_nat (mMessageCount ctx) := size]> (mMessages ctx);
          mMessageCount := mMessageCount ctx + 1;
          mTextPool :=
            take (Z.to_nat size) (mTextPool ctx)
              ++ (take (Z.to_nat k) message ++ [0])
              ++ drop (Z.to_nat (size + k + 1)) (mTextPool ctx);
          mTextPoolSize := size + k + 1 |}.
Proof.
  intros Hctx Hen Hlen Hmsg Hroom Hspace size k.
  rewrite (doLog_step ctx message len Hctx Hen Hlen Hmsg Hroom).
  destruct Hctx as (Hc & Hs & Hpl & Hml & Hnul).
  fold size. unfold stored_length. subst k. unfold kept.
  unfold MESSAGE_POOL_SIZE in *.
  set (k := Z.min len (65536 - size - 2)).
  replace (Z.min (len + 1) (65536 - size - 1)) with (k + 1) by (unfold k; lia).
  assert (Hk : 0 <= k <= len) by (unfold k; lia).
  replace (size + (k + 1)) with (size + k + 1) by lia.
  do 2 f_equal.
  set (mid := take (Z.to_nat (k + 1)) message).
  assert (Hmid : length mid = Z.to_nat (k + 1))
    by (unfold mid; rewrite length_take; lia).
  replace (Z.to_nat (size + (k + 1 - 1)))
    with (length (take (Z.to_nat size) (mTextPool ctx)) + (length mid - 1))%nat
    by (rewrite length_take, Hmid; lia).
  rewrite insert_last_mid by (intros E; rewrite E in Hmid; simpl in Hmid; lia).
  rewrite Hmid. unfold mid.
  replace (Z.to_nat (k + 1) - 1)%nat with (Z.to_nat k) by lia.
  rewrite take_take.
  by replace (Z.to_nat k `min` Z.to_nat (k + 1))%nat with (Z.to_nat k) by lia.
Qed.

(** X2. A non-empty message logged with at least two bytes left in the
    pool is stored at the old end of the pool as a NUL-terminated string
    holding its first [kept size len] characters: the whole text when it
    fits, a truncation otherwise.  The message table records the start of
    the entry, the pool grows by the entry, and no byte outside the entry
    changes. *)
Theorem log_stores_text (ctx : nmgBuildContext) (message : list Z) (len : Z) :
  arena_ok ctx -> getLogEnabled ctx = true ->
  log_ok (message, len) ->
  getMessageCount ctx < MAX_MESSAGES ->
  getMessagePoolLength ctx <= MESSAGE_POOL_SIZE - 2 ->
  let size := getMessagePoolLength ctx in
  let k := kept size len in
  exists ctx',
    doLog ctx message len = Ok ctx'
    /\ getMessage ctx' (getMessageCount ctx) = Some size
    /\ getMessageCount ctx' = getMessageCount ctx + 1
    /\ getMessagePoolLength ctx' = size + k + 1
    /\ load_bytes (getMessagePool ctx') size (k + 1)
       = Ok (take (Z.to_nat k) message ++ [0])
    /\ forall i : nat,
         (Z.of_nat i < size \/ size + k + 1 <= Z.of_nat i) ->
         getMessagePool ctx' !! i = getMessagePool ctx !! i.
Proof.
  intros Hctx Hen [Hlen Hmsg] Hroom Hspace size k. subst size.
  unfold getMessageCount, getMessagePoolLength, getMessagePool in *.
  cbn [fst snd] in *. set (size := mTextPoolSize ctx) in *.
  pose proof (doLog_entry ctx message len Hctx Hen Hlen Hmsg Hroom Hspace)
    as Hrun. cbv zeta in Hrun. fold size in Hrun. fold k in Hrun.
  destruct Hctx as (Hc & Hs & Hpl & Hml & Hnul).
  assert (Hk : 0 <= k <= len /\ size + k + 1 <= 65535)
    by (unfold k, kept, MESSAGE_POOL_SIZE in *; fold size in Hs; lia).
  fold size in Hs. unfold MESSAGE_POOL_SIZE, MAX_MESSAGES in *.
  eexists. split; [exact Hrun|].
  cbn [mMessages mMessageCount mTextPool mTextPoolSize].
  assert (Hpre : length (take (Z.to_nat size) (mTextPool ctx)) = Z.to_nat size)
    by (rewrite length_take; lia).
  assert (Hent : length (take (Z.to_nat k) message ++ [0]) = Z.to_nat (k + 1))
    by (rewrite length_app, length_take; simpl; lia).
  split; [|split; [done|split; [done|split]]].
  - unfold getMessage. cbn [mMessages].
    replace (mMessageCount ctx <? 0) with false
      by (symmetry; apply Z.ltb_ge; lia).
    apply list_lookup_insert_eq. lia.
  - unfold load_bytes.
    replace (k + 1 <? 0) with false by (symmetry; apply Z.ltb_ge; lia).
    replace (size <? 0) with false by (symmetry; apply Z.ltb_ge; lia).
    match goal with
    | |- context [Z.of_nat (length ?l) <? size + (k + 1)] =>
        assert (Hall : Z.of_nat (length l) = 65536)
          by (rewrite length_app, Hpre, length_app, Hent, length_drop; lia);
        rewrite Hall
    end.
    replace (65536 <? size + (k + 1)) with false
      by (symmetry; apply Z.ltb_ge; lia).
    cbn [orb]. f_equal.
    rewrite drop_app_length' by done.
    by rewrite take_app_length' by done.
  - intros i Hi.
    destruct Hi as [Hi|Hi].
    + rewrite lookup_app_l by lia.
      apply lookup_take_lt. lia.
    + rewrite lookup_app_r by lia.
      rewrite lookup_app_r by lia.
      rewrite lookup_drop. f_equal. lia.
Qed.

Lemma log_stores_text_witness :
  exists ctx',
    doLog fresh_context [72; 105; 0] 2 = Ok ctx'
    /\ getMessage ctx' 0 = Some 0
    /\ getMessageCount ctx' = 0 + 1
    /\ getMessagePoolLength ctx' = 0 + kept 0 2 + 1
    /\ load_bytes (getMessagePool ctx') 0 (kept 0 2 + 1)
       = Ok (take (Z.to_nat (kept 0 2)) [72; 105; 0] ++ [0])
    /\ forall i : nat,
         (Z.of_nat i < 0 \/ 0 + kept 0 2 + 1 <= Z.of_nat i) ->
         getMessagePool ctx' !! i = getMessagePool fresh_context !! i.
Proof.
  apply (log_stores_text fresh_context [72; 105; 0] 2).
  - exact fresh_context_ok.
  - reflexivity.
  - unfold log_ok. simpl. lia.
  - vm_compute. reflexivity.
  - vm_compute. discriminate.
Defined.

(** The pool image of a run of messages: each text followed by its NUL. *)
Definition packed (ps : list (list Z * Z)) : list Z :=
  concat (map (fun p => take (Z.to_nat p.2) p.1 ++ [0]) ps).

Lemma packed_cons (p : list Z * Z) (ps : list (list Z * Z)) :
  packed (p :: ps) = (take (Z.to_nat p.2) p.1 ++ [0]) ++ packed ps.
Proof. reflexivity. Qed.

Lemma packed_cons_length (p : list Z * Z) (ps : list (list Z * Z)) :
  log_ok p ->
  Z.of_nat (length (packed (p :: ps)))
  = p.2 + 1 + Z.of_nat (length (packed ps)).
Proof.
  intros [Hp1 Hp2]. rewrite packed_cons, !length_app, length_take.
  simpl length. lia.
Qed.

(** A run of messages that fits: the pool, the counters and the table. *)
Lemma log_sequence_inv (ps : list (list Z * Z)) (ctx : nmgBuildContext) :
  arena_ok ctx -> getLogEnabled ctx = true -> Forall log_ok ps ->
  mMessageCount ctx + Z.of_nat (length ps) <= MAX_MESSAGES ->
  mTextPoolSize ctx + Z.of_nat (length (packed ps)) <= MESSAGE_POOL_SIZE - 1 ->
  exists ctx',
    run_ops ctx (log_ops ps) = Ok ctx'
    /\ mMessageCount ctx' = mMessageCount ctx + Z.of_nat (length ps)
    /\ mTextPoolSize ctx'
       = mTextPoolSize ctx + Z.of_nat (length (packed ps))
    /\ take (Z.to_nat (mTextPoolSize ctx')) (mTextPool ctx')
       = take (Z.to_nat (mTextPoolSize ctx)) (mTextPool ctx) ++ packed ps
    /\ (forall i : nat, (i < length ps)%nat ->
          mMessages ctx' !! (Z.to_nat (mMessageCount ctx) + i)%nat
          = Some (mTextPoolSize ctx
                  + Z.of_nat (length (packed (take i ps)))))
    /\ (forall j : nat, Z.of_nat j < mMessageCount ctx ->
          mMessages ctx' !! j = mMessages ctx !! j).
Proof.
  intros Hctx Hen Hps. revert ctx Hctx Hen.
  induction Hps as [|p ps Hp Hps IH]; intros ctx Hctx Hen Hcount Hsize.
  - exists ctx. cbn [log_ops map run_ops length packed concat].
    rewrite app_nil_r. repeat split; try done; try lia.
  - pose proof (packed_cons_length p ps Hp) as Hlen.
    pose proof Hp as [Hp1 Hp2].
    cbn [length] in Hcount.
    assert (Hroom : mMessageCount ctx < MAX_MESSAGES) by lia.
    assert (Hspace : mTextPoolSize ctx <= MESSAGE_POOL_SIZE - 2) by lia.
    pose proof (doLog_entry ctx p.1 p.2 Hctx Hen Hp1 Hp2 Hroom Hspace)
      as Hrun. cbv zeta in Hrun.
    replace (kept (mTextPoolSize ctx) p.2) with p.2 in Hrun
      by (unfold kept; lia).
    match type of Hrun with _ = Ok ?c => set (ctx1 := c) in * end.
    pose proof (doLog_arena_ok ctx ctx1 p Hctx Hp Hrun) as Hok1.
    pose proof Hctx as (Hc & Hs & Hpl & Hml & Hnul).
    destruct (IH ctx1 Hok1 Hen) as (ctx2 & Hrun2 & Hc2 & Hs2 & Hpool & Hmsg & Hold).
    { unfold ctx1. cbn [mMessageCount]. lia. }
    { unfold ctx1. cbn [mTextPoolSize]. lia. }
    exists ctx2. cbn [log_ops map run_ops apply_op].
    rewrite Hrun, bind_Ok. split; [exact Hrun2|].
    unfold ctx1 in Hc2, Hs2, Hpool, Hmsg, Hold.
    cbn [mMessageCount mTextPoolSize mTextPool mMessages] in Hc2, Hs2, Hpool, Hmsg, Hold.
    split; [cbn [length]; lia|]. split; [lia|].
    assert (Hpre : length (take (Z.to_nat (mTextPoolSize ctx)) (mTextPool ctx))
                   = Z.to_nat (mTextPoolSize ctx))
      by (rewrite length_take; lia).
    assert (Hent : length (take (Z.to_nat p.2) p.1 ++ [0]) = Z.to_nat (p.2 + 1))
      by (rewrite length_app, length_take; simpl; lia).
    split; [|split].
    + rewrite Hpool, packed_cons.
      rewrite (app_assoc (take _ (mTextPool ctx))).
      rewrite take_app_length'
        by (rewrite length_app, Hpre, Hent; lia).
      by rewrite <- !app_assoc.
    + intros [|i] Hi.
      * rewrite Nat.add_0_r, Hold by lia.
        cbn [take packed map concat length].
        rewrite list_lookup_insert_eq by lia. f_equal. lia.
      * cbn [length] in Hi.
        replace (Z.to_nat (mMessageCount ctx) + S i)%nat
          with (Z.to_nat (mMessageCount ctx + 1) + i)%nat by lia.
        rewrite Hmsg by lia. f_equal.
        cbn [take].
        rewrite (packed_cons_length p (take i ps) Hp). lia.
    + intros j Hj. rewrite Hold by lia.
      apply list_lookup_insert_ne. lia.
Qed.

(** X3. A run of non-empty messages for which the table and the pool have
    room is stored without loss: the pool grows by the texts, each followed
    by its NUL, in the order logged; the table entry of the [i]-th new
    message is the offset at which its text starts; and the entries of the
    messages logged before are kept. *)
Theorem log_sequence (ps : list (list Z * Z)) (ctx : nmgBuildContext) :
  arena_ok ctx -> getLogEnabled ctx = true -> Forall log_ok ps ->
  getMessageCount ctx + Z.of_nat (length ps) <= MAX_MESSAGES ->
  getMessagePoolLength ctx + Z.of_nat (length (packed ps))
    <= MESSAGE_POOL_SIZE - 1 ->
  exists ctx',
    run_ops ctx (log_ops ps) = Ok ctx'
    /\ getMessageCount ctx' = getMessageCount ctx + Z.of_nat (length ps)
    /\ getMessagePoolLength ctx'
       = getMessagePoolLength ctx + Z.of_nat (length (packed ps))
    /\ load_bytes (getMessagePool ctx') (getMessagePoolLength ctx)
         (Z.of_nat (length (packed ps)))
       = Ok (packed ps)
    /\ (forall i : nat, (i < length ps)%nat ->
          getMessage ctx' (getMessageCount ctx + Z.of_nat i)
          = Some (getMessagePoolLength ctx
                  + Z.of_nat (length (packed (take i ps)))))
    /\ (forall j : nat, Z.of_nat j < getMessageCount ctx ->
          getMessage ctx' (Z.of_nat j) = getMessage ctx (Z.of_nat j)).
Proof.
  unfold getMessageCount, getMessagePoolLength, getMessagePool, getMessage.
  intros Hctx Hen Hps Hcount Hsize.
  destruct (log_sequence_inv ps ctx Hctx Hen Hps Hcount Hsize)
    as (ctx' & Hrun & Hc & Hs & Hpool & Hmsg & Hold).
  pose proof Hctx as (Hc0 & Hs0 & Hpl & Hml & Hnul).
  assert (Hok' : arena_ok ctx').
  { destruct (run_ops_ok (log_ops ps) ctx Hctx) as (c & Hr & Hok).
    - unfold log_ops. apply Forall_map.
      eapply Forall_impl; [exact Hps|]. intros p. apply log_ok_op.
    - congruence. }
  destruct Hok' as (Hc1 & Hs1 & Hpl1 & Hml1 & Hnul1).
  exists ctx'. split; [exact Hrun|]. split; [exact Hc|]. split; [exact Hs|].
  split; [|split].
  - unfold load_bytes.
    replace (Z.of_nat (length (packed ps)) <? 0) with false
      by (symmetry; apply Z.ltb_ge; lia).
    replace (mTextPoolSize ctx <? 0) with false
      by (symmetry; apply Z.ltb_ge; lia).
    replace (Z.of_nat (length (mTextPool ctx'))
             <? mTextPoolSize ctx + Z.of_nat (length (packed ps)))
      with false by (symmetry; apply Z.ltb_ge; lia).
    cbn [orb]. f_equal. rewrite Nat2Z.id.
    apply (f_equal (drop (Z.to_nat (mTextPoolSize ctx)))) in Hpool.
    rewrite drop_app_length' in Hpool by (rewrite length_take; lia).
    rewrite take_drop_commute.
    replace (Z.to_nat (mTextPoolSize ctx) + length (packed ps))%nat
      with (Z.to_nat (mTextPoolSize ctx')) by lia.
    exact Hpool.
  - intros i Hi.
    replace (mMessageCount ctx + Z.of_nat i <? 0) with false
      by (symmetry; apply Z.ltb_ge; lia).
    rewrite <- Hmsg by done. f_equal. lia.
  - intros j Hj.
    replace (Z.of_nat j <? 0) with false by (symmetry; apply Z.ltb_ge; lia).
    rewrite Nat2Z.id. by apply Hold.
Qed.

Lemma log_sequence_witness :
  exists ctx',
    run_ops fresh_context (log_ops [([72; 105; 0], 2); ([33; 0], 1)]) = Ok ctx'
    /\ getMessageCount ctx' = 0 + 2
    /\ getMessagePoolLength ctx' = 0 + 5
    /\ load_bytes (getMessagePool ctx') 0 5 = Ok [72; 105; 0; 33; 0]
    /\ (forall i : nat, (i < 2)%nat ->
          getMessage ctx' (0 + Z.of_nat i)
          = Some (0 + Z.of_nat
                    (length (packed (take i [([72; 105; 0], 2); ([33; 0], 1)])))))
    /\ (forall j : nat, Z.of_nat j < 0 ->
          getMessage ctx' (Z.of_nat j) = getMessage fresh_context (Z.of_nat j)).
Proof.
  apply (log_sequence [([72; 105; 0], 2); ([33; 0], 1)] fresh_context).
  - exact fresh_context_ok.
  - reflexivity.
  - repeat constructor; simpl; lia.
  - vm_compute. discriminate.
  - vm_compute. discriminate.
Defined.

(** X4. Reading the log back: after a run of messages that fits has been
    logged to a context whose log is empty (new, or reset), the exported
    reader returns their number and copies the texts, each with its NUL,
    to the start of the caller's buffer, cut at [bufferSize]; the rest of
    the buffer is not touched. *)
Theorem read_back_messages (ps : list (list Z * Z)) (ctx : nmgBuildContext)
    (buffer : list Z) (bufferSize : Z) :
  arena_ok ctx -> getLogEnabled ctx = true ->
  getMessageCount ctx = 0 -> getMessagePoolLength ctx = 0 ->
  Forall log_ok ps -> ps <> [] ->
  Z.of_nat (length ps) <= MAX_MESSAGES ->
  Z.of_nat (length (packed ps)) <= MESSAGE_POOL_SIZE - 1 ->
  0 <= bufferSize <= Z.of_nat (length buffer) ->
  let n := Z.to_nat (Z.min bufferSize (Z.of_nat (length (packed ps)))) in
  exists ctx',
    run_ops ctx (log_ops ps) = Ok ctx'
    /\ nmbcGetMessagePool (Some ctx') buffer bufferSize
       = Ok (Z.of_nat (length ps), take n (packed ps) ++ drop n buffer).
Proof.
  intros Hctx Hen Hc0 Hs0 Hps Hne Hcount Hsize Hbuf n.
  unfold getMessageCount, getMessagePoolLength in *.
  destruct (log_sequence_inv ps ctx Hctx Hen Hps ltac:(lia) ltac:(lia))
    as (ctx' & Hrun & Hc & Hs & Hpool & _).
  assert (Hok' : arena_ok ctx').
  { destruct (run_ops_ok (log_ops ps) ctx Hctx) as (c & Hr & Hok).
    - unfold log_ops. apply Forall_map.
      eapply Forall_impl; [exact Hps|]. intros p. apply log_ok_op.
    - congruence. }
  destruct Hok' as (Hc1 & Hs1 & Hpl1 & Hml1 & Hnul1).
  exists ctx'. split; [exact Hrun|].
  rewrite Hs0 in Hs, Hpool. rewrite Hc0 in Hc.
  change (Z.to_nat 0) with 0%nat in Hpool. rewrite take_0, app_nil_l in Hpool.
  assert (0 < length ps)%nat by (destruct ps; [done|simpl; lia]).
  unfold nmbcGetMessagePool, nmgTransferMessages.
  unfold getMessageCount, getMessagePoolLength, getMessagePool.
  replace (0 <? mMessageCount ctx') with true
    by (symmetry; apply Z.ltb_lt; lia).
  set (size := if bufferSize <? mTextPoolSize ctx' then bufferSize
               else mTextPoolSize ctx').
  assert (Hsz : size = Z.min bufferSize (Z.of_nat (length (packed ps)))).
  { unfold size. destruct (Z.ltb_spec bufferSize (mTextPoolSize ctx')); lia. }
  unfold store_bytes.
  replace (size <? 0) with false by (symmetry; apply Z.ltb_ge; lia).
  replace (Z.of_nat (length (mTextPool ctx')) <? size) with false
    by (symmetry; apply Z.ltb_ge; lia).
  replace (Z.of_nat (length buffer) <? 0 + size) with false
    by (symmetry; apply Z.ltb_ge; lia).
  cbn [Z.ltb Z.compare orb]. rewrite bind_Ok.
  change (Z.to_nat 0) with 0%nat. rewrite take_0, app_nil_l.
  rewrite Z.add_0_l, Hsz. fold n. rewrite Hc, Z.add_0_l. do 3 f_equal.
  rewrite <- Hpool, take_take. f_equal. lia.
Qed.

Lemma read_back_messages_witness :
  exists ctx',
    run_ops fresh_context (log_ops [([72; 105; 0], 2); ([33; 0], 1)]) = Ok ctx'
    /\ nmbcGetMessagePool (Some ctx') [9; 9; 9; 9; 9; 9] 4
       = Ok (2, [72; 105; 0; 33; 9; 9]).
Proof.
  apply (read_back_messages [([72; 105; 0], 2); ([33; 0], 1)] fresh_context
           [9; 9; 9; 9; 9; 9] 4).
  - exact fresh_context_ok.
  - reflexivity.
  - reflexivity.
  - reflexivity.
  - repeat constructor; simpl; lia.
  - discriminate.
  - vm_compute. discriminate.
  - vm_compute. discriminate.
  - simpl. lia.
Defined.

End ArenaFacts.

(** ** De-duplication: vertices without duplicates, and a second pass *)

Module DedupPasses.
Import NMGen DedupFacts.
Local Open Scope nat_scope.

Section Generic.
Context {T : Type} `{Scalar T}.
Implicit Types (src res : list T) (map : list nat).

(** No vertex among the first [n] is within the tolerance of an earlier
    one. *)
Definition no_duplicates src (n : nat) : Prop :=
  forall i j, j < i -> i < n ->
    vert_sloppy_eq (vert_at src i) (vert_at src j) = false.

Lemma seen_index_none src res pi rc :
  (forall k, k < rc -> seen_at src res pi (k * 3) = false) ->
  seen_index src res pi rc rc 0 = rc.
Proof.
  intros Hnone.
  destruct (seen_index_spec src res pi rc rc 0 ltac:(lia)) as (S1 & _ & S3).
  destruct (decide (seen_index src res pi rc rc 0 < rc)) as [Hlt|]; [|lia].
  specialize (S3 Hlt). rewrite Hnone in S3 by done. discriminate.
Qed.

(** The state after [m] vertices none of which repeats an earlier one. *)
Definition distinct_inv src (Lr Lm m : nat) (st : dedup_state) : Prop :=
  let '(rc, res, map) := st in
  rc = m /\ length res = Lr /\ length map = Lm
  /\ (forall i, i < m -> map !! i = Some i)
  /\ (forall i, i < m -> vert_at res i = vert_at src i).

Lemma distinct_inv_prefix src res0 map0 n m :
  no_duplicates src n ->
  n * 3 <= length res0 -> n <= length map0 -> m <= n ->
  distinct_inv src (length res0) (length map0) m
    (foldl (dedup_step src) (0, res0, map0) (seq 0 m)).
Proof.
  intros Hnd Hr Hm. induction m as [|m IH]; intros Hle.
  - unfold distinct_inv. simpl. repeat split; intros; lia.
  - rewrite seq_S, foldl_snoc. simpl.
    specialize (IH ltac:(lia)).
    destruct (foldl (dedup_step src) (0, res0, map0) (seq 0 m))
      as [[rc res] map].
    destruct IH as (-> & HLr & HLm & Hmap & Hres).
    rewrite dedup_step_eq. cbv zeta.
    rewrite seen_index_none.
    2:{ intros k Hk. rewrite seen_at_vert, Hres by done.
        apply Hnd; lia. }
    rewrite Nat.eqb_refl. unfold distinct_inv.
    split; [done|]. split; [by rewrite put_vert_length|].
    split; [by rewrite length_insert|]. split.
    + intros i Hi. destruct (decide (i = m)) as [->|Hne].
      * apply list_lookup_insert_eq. lia.
      * rewrite list_lookup_insert_ne by lia. apply Hmap. lia.
    + intros i Hi. destruct (decide (i = m)) as [->|Hne].
      * apply vert_at_put_eq. lia.
      * rewrite vert_at_put_ne by lia. apply Hres. lia.
Qed.

Lemma verts_take_eq (a b : list T) (n : nat) :
  n * 3 <= length a -> n * 3 <= length b ->
  (forall i, i < n -> vert_at a i = vert_at b i) ->
  take (n * 3) a = take (n * 3) b.
Proof.
  intros Ha Hb Hv. apply list_eq. intros j.
  destruct (decide (j < n * 3)) as [Hj|Hj].
  - rewrite !lookup_take_lt by done.
    rewrite !list_lookup_lookup_total_lt by lia. f_equal.
    assert (Hi : j `div` 3 < n) by (apply Nat.Div0.div_lt_upper_bound; lia).
    specialize (Hv _ Hi). unfold vert_at in Hv.
    injection Hv as H0 H1 H2.
    pose proof (Nat.div_mod_eq j 3) as Hdm.
    pose proof (Nat.mod_upper_bound j 3 ltac:(lia)) as Hlt.
    destruct (j `mod` 3) as [|[|[|r]]] eqn:Er; [| | |lia].
    + replace j with (j `div` 3 * 3 + 0) by lia. exact H0.
    + replace j with (j `div` 3 * 3 + 1) by lia. exact H1.
    + replace j with (j `div` 3 * 3 + 2) by lia. exact H2.
  - by rewrite !lookup_take_ge by lia.
Qed.

(** X5. The note in the source: when no vertex is within the tolerance of
    an earlier one, [removeDuplicateVerts] keeps every vertex: the result
    count is the vertex count, the index map is the identity and the
    result array holds the source vertices. *)
Theorem dedup_without_duplicates (n : nat) src res0 map0 :
  n * 3 <= length src -> n * 3 <= length res0 -> n <= length map0 ->
  no_duplicates src n ->
  let '(resultCount, resultVerts, indicesMap) :=
    removeDuplicateVerts n src res0 map0 in
  resultCount = n
  /\ (forall i, i < n -> indicesMap !! i = Some i)
  /\ take (n * 3) resultVerts = take (n * 3) src.
Proof.
  intros Hs Hr Hm Hnd.
  pose proof (distinct_inv_prefix src res0 map0 n n Hnd Hr Hm ltac:(lia))
    as Hinv.
  fold (removeDuplicateVerts n src res0 map0) in Hinv.
  destruct (removeDuplicateVerts n src res0 map0) as [[rc res] map].
  destruct Hinv as (-> & HLr & HLm & Hmap & Hres).
  split; [done|]. split; [exact Hmap|].
  apply verts_take_eq; [lia|lia|exact Hres].
Qed.

(** The emitted vertices: none is within the tolerance of an earlier
    emitted one. *)
Lemma dedup_inv_distinct src Lr Lm n rc res map :
  dedup_inv src Lr Lm n (rc, res, map) -> no_duplicates res rc.
Proof.
  intros (_ & _ & _ & H2 & H3 & _) k k' Hk' Hk.
  destruct (H3 k Hk) as (i & Hi1 & Hi2 & Hi3 & _).
  destruct (H2 i Hi1) as (k0 & Hk1 & _ & Hk3 & _).
  assert (k0 = k) as -> by congruence.
  rewrite Hi3. by apply Hk3.
Qed.

(** X6. The compacted vertices are distinct: none is within the tolerance
    of an earlier one.  A second pass of [removeDuplicateVerts] over them
    therefore keeps all of them, in place. *)
Theorem dedup_second_pass (n : nat) src res0 map0 res1 map1 :
  n * 3 <= length res0 -> n <= length map0 ->
  n * 3 <= length res1 -> n <= length map1 ->
  let '(resultCount, resultVerts, _) :=
    removeDuplicateVerts n src res0 map0 in
  no_duplicates resultVerts resultCount
  /\ let '(resultCount', resultVerts', indicesMap') :=
       removeDuplicateVerts resultCount resultVerts res1 map1 in
     resultCount' = resultCount
     /\ (forall k, k < resultCount -> indicesMap' !! k = Some k)
     /\ take (resultCount * 3) resultVerts'
        = take (resultCount * 3) resultVerts.
Proof.
  intros Hr0 Hm0 Hr1 Hm1.
  pose proof (removeDuplicateVerts_inv src res0 map0 n Hr0 Hm0) as Hinv.
  destruct (removeDuplicateVerts n src res0 map0) as [[rc res] map].
  pose proof (dedup_inv_distinct _ _ _ _ _ _ _ Hinv) as Hnd.
  destruct Hinv as (Hrc & HLr & _).
  split; [exact Hnd|].
  apply dedup_without_duplicates; [lia|lia|lia|exact Hnd].
Qed.

(** The parts of the two output arrays that the first [m] iterations have
    not reached. *)
Definition frame_inv res0 map0 (m : nat) (st : dedup_state) : Prop :=
  let '(rc, res, map) := st in
  rc <= m /\ (0 < m -> 0 < rc)
  /\ length res = length res0 /\ length map = length map0
  /\ (forall j, rc * 3 <= j -> res !! j = res0 !! j)
  /\ (forall j, m <= j -> map !! j = map0 !! j).

Lemma frame_inv_prefix src res0 map0 m :
  frame_inv res0 map0 m (foldl (dedup_step src) (0, res0, map0) (seq 0 m)).
Proof.
  induction m as [|m IH].
  - unfold frame_inv. simpl. repeat split; intros; lia.
  - rewrite seq_S, foldl_snoc. simpl.
    destruct (foldl (dedup_step src) (0, res0, map0) (seq 0 m))
      as [[rc res] map].
    destruct IH as (Hrc & Hpos & HLr & HLm & Hres & Hmap).
    rewrite dedup_step_eq. cbv zeta.
    destruct (seen_index_spec src res (m * 3) rc rc 0 ltac:(lia)) as (S1 & _).
    set (index := seen_index src res (m * 3) rc rc 0) in *.
    assert (Hmap' : forall j, S m <= j -> <[m := index]> map !! j = map0 !! j).
    { intros j Hj. rewrite list_lookup_insert_ne by lia. apply Hmap. lia. }
    destruct (index =? rc) eqn:Enew.
    + unfold frame_inv. split; [lia|]. split; [lia|].
      split; [by rewrite put_vert_length|].
      split; [by rewrite length_insert|]. split; [|exact Hmap'].
      intros j Hj. unfold put_vert.
      rewrite !list_lookup_insert_ne by lia. apply Hres. lia.
    + apply Nat.eqb_neq in Enew.
      unfold frame_inv. split; [lia|]. split; [lia|]. split; [done|].
      split; [by rewrite length_insert|]. split; [exact Hres|exact Hmap'].
Qed.

(** X7. What [removeDuplicateVerts] leaves alone: the result count is at
    most the vertex count (and at least one when there is a vertex), the
    two output arrays keep their lengths, and nothing is written to the
    result array past the last emitted vertex, nor to the index map past
    the vertex count. *)
Theorem dedup_frame (n : nat) src res0 map0 :
  n * 3 <= length src -> n * 3 <= length res0 -> n <= length map0 ->
  let '(resultCount, resultVerts, indicesMap) :=
    removeDuplicateVerts n src res0 map0 in
  resultCount <= n /\ (0 < n -> 0 < resultCount)
  /\ length resultVerts = length res0
  /\ length indicesMap = length map0
  /\ drop (resultCount * 3) resultVerts = drop (resultCount * 3) res0
  /\ drop n indicesMap = drop n map0.
Proof.
  intros _ _ _.
  pose proof (frame_inv_prefix src res0 map0 n) as Hinv.
  fold (removeDuplicateVerts n src res0 map0) in Hinv.
  destruct (removeDuplicateVerts n src res0 map0) as [[rc res] map].
  destruct Hinv as (Hrc & Hpos & HLr & HLm & Hres & Hmap).
  repeat split; try done.
  - apply list_eq. intros j. rewrite !lookup_drop. apply Hres. lia.
  - apply list_eq. intros j. rewrite !lookup_drop. apply Hmap. lia.
Qed.

End Generic.

(** Three vertices of a triangle, no two within the tolerance. *)
Definition triangle_verts : list float :=
  floats [0; 0; 0;  1; 0; 0;  0; 0; 1]%Z.

Lemma triangle_verts_distinct : no_duplicates triangle_verts 3.
Proof.
  intros i j Hj Hi.
  destruct i as [|[|[|i]]]; try lia;
  destruct j as [|[|[|j]]]; try lia; vm_compute; reflexivity.
Qed.

Lemma dedup_without_duplicates_witness :
  let '(resultCount, resultVerts, indicesMap) :=
    removeDuplicateVerts 3 triangle_verts (replicate 9 s_zero) (replicate 3 O) in
  resultCount = 3
  /\ (forall i, i < 3 -> indicesMap !! i = Some i)
  /\ take (3 * 3) resultVerts = take (3 * 3) triangle_verts.
Proof.
  apply (dedup_without_duplicates 3 triangle_verts (replicate 9 s_zero)
           (replicate 3 O)).
  - vm_compute. lia.
  - vm_compute. lia.
  - vm_compute. lia.
  - exact triangle_verts_distinct.
Defined.

(** Three vertices, the third within the tolerance of the first. *)
Definition closed_loop_verts : list float :=
  floats [0; 0; 0;  1; 0; 0]%Z ++ [f32 1 (-17); s_zero; s_zero].

Lemma dedup_second_pass_witness :
  let '(resultCount, resultVerts, _) :=
    removeDuplicateVerts 3 closed_loop_verts (replicate 9 s_zero)
      (replicate 3 O) in
  no_duplicates resultVerts resultCount
  /\ let '(resultCount', resultVerts', indicesMap') :=
       removeDuplicateVerts resultCount resultVerts (replicate 9 s_zero)
         (replicate 3 O) in
     resultCount' = resultCount
     /\ (forall k, k < resultCount -> indicesMap' !! k = Some k)
     /\ take (resultCount * 3) resultVerts'
        = take (resultCount * 3) resultVerts.
Proof.
  apply (dedup_second_pass 3 closed_loop_verts (replicate 9 s_zero)
           (replicate 3 O) (replicate 9 s_zero) (replicate 3 O));
    vm_compute; lia.
Defined.

Lemma dedup_frame_witness :
  let '(resultCount, resultVerts, indicesMap) :=
    removeDuplicateVerts 3 closed_loop_verts (replicate 12 (fz 7%Z))
      (replicate 4 9) in
  resultCount <= 3 /\ (0 < 3 -> 0 < resultCount)
  /\ length resultVerts = length (replicate 12 (fz 7%Z))
  /\ length indicesMap = length (replicate 4 9)
  /\ drop (resultCount * 3) resultVerts
     = drop (resultCount * 3) (replicate 12 (fz 7%Z))
  /\ drop 3 indicesMap = drop 3 (replicate 4 9).
Proof.
  apply (dedup_frame 3 closed_loop_verts (replicate 12 (fz 7%Z))
           (replicate 4 9)); vm_compute; lia.
Defined.

End DedupPasses.

(** ** A flattening that succeeds *)

Module FlattenSuccess.
Import NMGen DedupFacts FlattenFacts.

Lemma bind_Ok_inv {A B : Type} (c : outcome A) (k : A -> outcome B) (b : B) :
  c ≫= k = Ok b -> exists a, c = Ok a /\ k a = Ok b.
Proof. destruct c as [a|f]; [by exists a|discriminate]. Qed.

Lemma load_at_inv {A} (mem : list A) (i : Z) (v : A) :
  load_at mem i = Ok v -> 0 <= i /\ mem !! Z.to_nat i = Some v.
Proof.
  unfold load_at. destruct (Z.ltb_spec i 0); [discriminate|].
  destruct (mem !! Z.to_nat i) as [x|]; [|discriminate].
  intros [= ->]. split; [lia|done].
Qed.

Lemma store_at_inv {A} (mem : list A) (i : Z) (v : A) mem' :
  store_at mem i v = Ok mem' ->
  0 <= i < Z.of_nat (length mem) /\ mem' = <[Z.to_nat i := v]> mem.
Proof.
  unfold store_at. destruct (Z.ltb_spec i 0); [discriminate|].
  destruct (Z.leb_spec (Z.of_nat (length mem)) i); [discriminate|].
  intros [= <-]. split; [lia|done].
Qed.

Section Generic.
Context {T : Type} `{Scalar T}.

(** The triangle count [tCount] of sub-mesh [m], as the loop reads it. *)
Definition tcount (dm : rcPolyMeshDetail T) (m : nat) : nat :=
  Z.to_nat (int32 (meshes dm !!! (m * 4 + 3)%nat)).

(** The triangles of the [n] sub-meshes from [j] on. *)
Fixpoint tri_total (dm : rcPolyMeshDetail T) (n j : nat) : nat :=
  match n with
  | O => O
  | S n' => (tcount dm j + tri_total dm n' (S j))%nat
  end.

(** The state of the re-mapping loops after [c] indices have been
    written to the caller's array [outTris0]. *)
Definition remap_inv (outTris0 : list Z) (rc c : nat) (st : list Z * Z)
  : Prop :=
  exists written,
    length written = c
    /\ st.1 = written ++ drop c outTris0
    /\ Forall (fun v => 0 <= v < Z.of_nat rc) written
    /\ st.2 = int32 (Z.of_nat c)
    /\ Z.of_nat c <= 2147483648
    /\ (c <= length outTris0)%nat.

Lemma remap_corners_inv (dm : rcPolyMeshDetail T) (vertMap : list nat)
    (outTris0 : list Z) (rc : nat) (vBase triStart : Z) (n : nat) :
  Forall (fun k => (k < rc)%nat) vertMap ->
  forall (i : Z) (c : nat) st st',
    remap_inv outTris0 rc c st ->
    remap_corners dm vertMap vBase triStart n i st = Ok st' ->
    remap_inv outTris0 rc (c + n) st'.
Proof.
  intros Hmap. induction n as [|n IH]; intros i c st st' Hinv Hrun.
  - simpl in Hrun. injection Hrun as <-. by rewrite Nat.add_0_r.
  - destruct st as [outTris p]. cbn [remap_corners] in Hrun.
    apply bind_Ok_inv in Hrun as (corner & Hcorner & Hrun).
    apply bind_Ok_inv in Hrun as (v & Hv & Hrun).
    apply bind_Ok_inv in Hrun as (outTris' & Hstore & Hrun).
    apply load_at_inv in Hv as [_ Hv].
    apply store_at_inv in Hstore as [Hp ->].
    destruct Hinv as (written & Hlen & Hout & Hall & Hpos & Hc & Hcap).
    cbn [fst snd] in Hout, Hpos. subst outTris p.
    assert (Hfull : length (written ++ drop c outTris0) = length outTris0)
      by (rewrite length_app, length_drop; lia).
    rewrite Hfull in Hp.
    assert (Hc' : Z.of_nat c < 2147483648).
    { destruct (decide (Z.of_nat c = 2147483648)) as [E|]; [|lia].
      rewrite E in Hp. vm_compute in Hp. destruct Hp as [Hp _].
      by contradiction Hp. }
    rewrite (int32_id (Z.of_nat c)) in Hp, Hrun by (unfold in_int32; lia).
    replace (c + S n)%nat with (S c + n)%nat by lia.
    refine (IH (i + 1) (S c) _ st' _ Hrun).
    exists (written ++ [Z.of_nat v]). cbn [fst snd].
    split; [rewrite length_app; simpl; lia|]. split.
    + rewrite Nat2Z.id.
      pose proof Hlen as Hlen'. symmetry in Hlen'.
      rewrite Hlen' at 1 2.
      rewrite insert_app_r_alt, Nat.sub_diag by lia.
      rewrite <- Hlen'.
      replace (length written) with c in * by done.
      rewrite (drop_S _ (outTris0 !!! c))
        by (apply list_lookup_lookup_total_lt; lia).
      by rewrite <- app_assoc.
    + split.
      * apply Forall_app. split; [exact Hall|].
        constructor; [|constructor].
        pose proof (Forall_lookup_1 _ _ _ _ Hmap Hv) as Hlt.
        cbv beta in Hlt. lia.
      * split; [f_equal; lia|]. lia.
Qed.

Lemma remap_tris_inv (dm : rcPolyMeshDetail T) (vertMap : list nat)
    (outTris0 : list Z) (rc : nat) (vBase tBase : Z) (n : nat) :
  Forall (fun k => (k < rc)%nat) vertMap ->
  forall (iTri : Z) (c : nat) st st',
    remap_inv outTris0 rc c st ->
    remap_tris dm vertMap vBase tBase n iTri st = Ok st' ->
    remap_inv outTris0 rc (c + 3 * n) st'.
Proof.
  intros Hmap. induction n as [|n IH]; intros iTri c st st' Hinv Hrun.
  - simpl in Hrun. injection Hrun as <-. by rewrite Nat.mul_0_r, Nat.add_0_r.
  - cbn [remap_tris] in Hrun.
    apply bind_Ok_inv in Hrun as (st1 & Hcorners & Hrun).
    replace (c + 3 * S n)%nat with ((c + 3) + 3 * n)%nat by lia.
    refine (IH (iTri + 1) (c + 3)%nat st1 st' _ Hrun).
    exact (remap_corners_inv dm vertMap outTris0 rc vBase _ 3 Hmap 0 c st st1
             Hinv Hcorners).
Qed.

Lemma remap_meshes_inv (dm : rcPolyMeshDetail T) (vertMap : list nat)
    (outTris0 : list Z) (rc : nat) (n : nat) :
  Forall (fun k => (k < rc)%nat) vertMap ->
  forall (j c : nat) st st',
    remap_inv outTris0 rc c st ->
    remap_meshes dm vertMap n (Z.of_nat j) st = Ok st' ->
    remap_inv outTris0 rc (c + 3 * tri_total dm n j) st'.
Proof.
  intros Hmap. induction n as [|n IH]; intros j c st st' Hinv Hrun.
  - simpl in Hrun. injection Hrun as <-. simpl. by rewrite Nat.add_0_r.
  - cbn [remap_meshes] in Hrun.
    apply bind_Ok_inv in Hrun as (vBase & _ & Hrun).
    apply bind_Ok_inv in Hrun as (tBase & _ & Hrun).
    apply bind_Ok_inv in Hrun as (tCount & HtCount & Hrun).
    apply bind_Ok_inv in Hrun as (st1 & Htris & Hrun).
    apply load_at_inv in HtCount as [_ HtCount].
    replace (Z.to_nat (Z.of_nat j * 4 + 3)) with (j * 4 + 3)%nat
      in HtCount by lia.
    apply list_lookup_total_correct in HtCount.
    cbn [tri_total]. unfold tcount at 1. rewrite HtCount.
    replace (c + 3 * (Z.to_nat (int32 tCount) + tri_total dm n (S j)))%nat
      with ((c + 3 * Z.to_nat (int32 tCount)) + 3 * tri_total dm n (S j))%nat
      by lia.
    apply (IH (S j) _ st1 st').
    + exact (remap_tris_inv dm vertMap outTris0 rc _ _ _ Hmap 0 c st st1
               Hinv Htris).
    + replace (Z.of_nat (S j)) with (Z.of_nat j + 1) by lia. exact Hrun.
Qed.

Lemma vert_at_take_app (u rest : list T) (rc k : nat) :
  (k < rc)%nat -> (rc * 3 <= length u)%nat ->
  vert_at (take (rc * 3) u ++ rest) k = vert_at u k.
Proof.
  intros Hk Hu. unfold vert_at.
  rewrite !lookup_total_app_l by (rewrite length_take; lia).
  by rewrite !lookup_total_take_lt by lia.
Qed.

(** X8. When [rcpdFlattenMesh] returns [true]: the vertex count written
    is the number of distinct vertices and fits the vertex capacity; the
    triangle count written is the mesh's; every flattened vertex is a
    vertex of the mesh; the index array receives three indices for each
    triangle of each sub-mesh, every one of them below the vertex count
    written; and the caller's arrays are untouched past what was
    written. *)
Theorem flatten_success (dm : rcPolyMeshDetail T) (out out' : flatten_out T)
    (vertsSize trisSize : Z) :
  rcpdFlattenMesh (Some dm) out vertsSize trisSize = Ok (true, out') ->
  let rc := unique_vert_count dm in
  exists outVerts outTris outVerts' written,
    out_verts out = Some outVerts /\ out_tris out = Some outTris
    /\ out_vertCount out' = Some (Z.of_nat rc)
    /\ out_triCount out' = Some (ntris dm)
    /\ Z.of_nat rc <= vertsSize /\ ntris dm <= trisSize
    /\ out_verts out' = Some outVerts'
    /\ length outVerts' = length outVerts
    /\ drop (rc * 3) outVerts' = drop (rc * 3) outVerts
    /\ (forall k, (k < rc)%nat -> exists i,
          (i < Z.to_nat (nverts dm))%nat
          /\ vert_at outVerts' k = vert_at (verts dm) i)
    /\ out_tris out' = Some (written ++ drop (length written) outTris)
    /\ length written
       = (3 * tri_total dm (Z.to_nat (nmeshes dm)) 0)%nat
    /\ (length written <= length outTris)%nat
    /\ Forall (fun v => 0 <= v < Z.of_nat rc) written.
Proof.
  unfold rcpdFlattenMesh, unique_vert_count. intros Hrun.
  destruct (out_verts out) as [outVerts|]; [|discriminate].
  destruct (out_vertCount out) as [vc|]; [|discriminate].
  destruct (out_tris out) as [outTris|]; [|discriminate].
  destruct (out_triCount out) as [tc|]; [|discriminate].
  destruct (Z.ltb_spec trisSize (ntris dm)) as [|Htris]; [discriminate|].
  destruct (Z.ltb_spec (nverts dm) 0) as [|Hn]; [discriminate|].
  destruct (Z.ltb_spec (Z.of_nat (length (verts dm))) (nverts dm * 3))
    as [|Hsrc]; [discriminate|].
  cbv zeta in Hrun |- *.
  set (n := Z.to_nat (nverts dm)) in *.
  pose proof (removeDuplicateVerts_inv (verts dm) (replicate (n * 3) s_zero)
                (replicate n O) n) as Hinv.
  rewrite !length_replicate in Hinv. specialize (Hinv ltac:(lia) ltac:(lia)).
  destruct (removeDuplicateVerts n (verts dm) (replicate (n * 3) s_zero)
              (replicate n O)) as [[rc uniq] vertMap].
  cbn [fst] in *.
  destruct (Z.ltb_spec vertsSize (Z.of_nat rc)) as [|Hcap]; [discriminate|].
  apply bind_Ok_inv in Hrun as (outVerts' & Hcopy & Hrun).
  apply bind_Ok_inv in Hrun as ([outTris' p] & Hremap & Hrun).
  injection Hrun as <-. cbn [out_verts out_vertCount out_tris out_triCount].
  destruct Hinv as (Hrc & HLr & HLm & H2 & H3 & _).
  assert (Hmap : Forall (fun k => (k < rc)%nat) vertMap).
  { apply Forall_lookup_2. intros i k Hik.
    assert (Hi : (i < n)%nat)
      by (rewrite <- HLm; apply lookup_lt_is_Some; by eexists).
    destruct (H2 i Hi) as (k0 & Hk0 & Hlt & _). congruence. }
  assert (Hinit : remap_inv outTris rc 0 (outTris, 0)).
  { exists []. cbn [fst snd length]. rewrite drop_0.
    repeat split; try done; lia. }
  pose proof (remap_meshes_inv dm vertMap outTris rc _ Hmap 0%nat 0%nat _ _
                Hinit Hremap) as (written & Hlen & Hout & Hall & _ & _ & Hfit).
  cbn [fst] in Hout. rewrite Nat.add_0_l in Hlen, Hout, Hfit.
  unfold copy_verts in Hcopy.
  destruct (Nat.ltb_spec (length outVerts) (rc * 3)) as [|Hroom];
    [discriminate|].
  injection Hcopy as <-.
  assert (Htake : length (take (rc * 3) uniq) = (rc * 3)%nat)
    by (rewrite length_take; lia).
  exists outVerts, outTris, (take (rc * 3) uniq ++ drop (rc * 3) outVerts),
    written.
  split; [done|]. split; [done|]. split; [done|]. split; [done|].
  split; [lia|]. split; [lia|]. split; [done|].
  split; [rewrite length_app, Htake, length_drop; lia|].
  split; [by rewrite drop_app_length'|].
  split.
  { intros k Hk. destruct (H3 k Hk) as (i & Hi & _ & Hvert & _).
    exists i. split; [exact Hi|].
    rewrite vert_at_take_app by lia. exact Hvert. }
  split; [by rewrite Hlen, Hout|]. split; [exact Hlen|].
  split; [lia|exact Hall].
Qed.

End Generic.

Lemma flatten_success_witness :
  let out' :=
    {| out_verts :=
         Some (floats [0; 0; 0;  1; 0; 0;  0; 0; 1;  2; 0; 0;  1; 0; 1;
                       7; 7; 7]);
       out_vertCount := Some 5;
       out_tris := Some [0; 1; 2; 1; 3; 4];
       out_triCount := Some 2 |} in
  let rc := unique_vert_count two_triangles in
  exists outVerts outTris outVerts' written,
    out_verts caller_out = Some outVerts /\ out_tris caller_out = Some outTris
    /\ out_vertCount out' = Some (Z.of_nat rc)
    /\ out_triCount out' = Some (ntris two_triangles)
    /\ Z.of_nat rc <= 6 /\ ntris two_triangles <= 2
    /\ out_verts out' = Some outVerts'
    /\ length outVerts' = length outVerts
    /\ drop (rc * 3) outVerts' = drop (rc * 3) outVerts
    /\ (forall k, (k < rc)%nat -> exists i,
          (i < Z.to_nat (nverts two_triangles))%nat
          /\ vert_at outVerts' k = vert_at (verts two_triangles) i)
    /\ out_tris out' = Some (written ++ drop (length written) outTris)
    /\ length written
       = (3 * tri_total two_triangles (Z.to_nat (nmeshes two_triangles)) 0)%nat
    /\ (length written <= length outTris)%nat
    /\ Forall (fun v => 0 <= v < Z.of_nat rc) written.
Proof.
  intros out'.
  apply (flatten_success two_triangles caller_out out' 6 2).
  vm_compute. reflexivity.
Defined.

End FlattenSuccess.

(** ** Blocks that come and go *)

Module HeapFrames.
Import Heap HeapFacts HeapSteps.

(** No block lives at an address that has not been handed out yet. *)
Definition fresh_above (h : heap) : Prop :=
  forall p, (next_block h < p)%nat -> blocks h !! p = None.

Lemma load_same (h h' : heap) (p : ptr) (off n : Z) :
  blocks h' !! p = blocks h !! p -> load p off n h' = load p off n h.
Proof. unfold load. by intros ->. Qed.

Lemma free_live (h : heap) (p : ptr) (b : list Z) :
  blocks h !! p = Some b -> p <> O ->
  free p h = Ok (mkHeap (delete p (blocks h)) (next_block h) (alloc_budget h)).
Proof. unfold free. destruct p; [done|]. by intros ->. Qed.

Lemma store_content (h : heap) (d : ptr) (b : list Z) (off : Z)
    (src : list Z) (n : Z) (h' : heap) :
  blocks h !! d = Some b -> length src = Z.to_nat n -> 0 <= n ->
  store d off src n h = Ok h' ->
  0 <= off /\ off + n <= Z.of_nat (length b)
  /\ h' = mkHeap (<[d := take (Z.to_nat off) b ++ src
                          ++ drop (Z.to_nat (off + n)) b]> (blocks h))
            (next_block h) (alloc_budget h)
  \/ n = 0 /\ h' = h.
Proof.
  intros Hb Hsrc Hn. unfold store. destruct (n =? 0) eqn:En.
  - apply Z.eqb_eq in En. intros [= <-]. by right.
  - rewrite Hb. destruct (store_bytes b off src n) as [b'|] eqn:Hst;
      [|discriminate].
    rewrite bind_Ok. intros [= <-]. left.
    apply store_bytes_inv in Hst as (_ & _ & Ho & Hm & ->).
    rewrite (take_ge src) by lia. auto.
Qed.

(** A copy reads its bytes in the heap it starts from and changes the
    target block only. *)
Lemma copy_content (h : heap) (d : ptr) (b : list Z) (off : Z)
    (s : ptr) (soff n : Z) (h' : heap) :
  blocks h !! d = Some b -> 0 <= off <= Z.of_nat (length b) ->
  copy d off s soff n h = Ok h' ->
  exists bytes,
    load s soff n h = Ok bytes /\ length bytes = Z.to_nat n /\ 0 <= n
    /\ off + n <= Z.of_nat (length b)
    /\ h' = mkHeap (<[d := take (Z.to_nat off) b ++ bytes
                            ++ drop (Z.to_nat (off + n)) b]> (blocks h))
              (next_block h) (alloc_budget h).
Proof.
  intros Hb Hoff. unfold copy.
  destruct (load s soff n h) as [bytes|] eqn:Hl; [|discriminate].
  rewrite bind_Ok. intros Hst.
  pose proof (load_length _ _ _ _ _ Hl) as [Hn Hlen].
  exists bytes. split; [done|]. split; [done|]. split; [done|].
  destruct (store_content h d b off bytes n h' Hb Hlen Hn Hst)
    as [(Ho & Hm & ->)|[-> ->]]; [done|].
  split; [lia|].
  destruct bytes; [|discriminate]. rewrite Z.add_0_r, app_nil_l, take_drop.
  rewrite insert_id by done. by destruct h.
Qed.

(** Writing [x] at the end of the part [pre] of a block that has been
    filled so far. *)
Lemma append_step (pre junk x : list Z) (off n : Z) :
  0 <= off -> 0 <= n ->
  length pre = Z.to_nat off -> length x = Z.to_nat n ->
  take (Z.to_nat off) (pre ++ junk) ++ x
    ++ drop (Z.to_nat (off + n)) (pre ++ junk)
  = (pre ++ x) ++ drop (Z.to_nat n) junk.
Proof.
  intros Ho Hn Hpre Hx.
  rewrite take_app_length' by done.
  rewrite drop_app_ge by lia.
  replace (Z.to_nat (off + n) - length pre)%nat with (Z.to_nat n) by lia.
  by rewrite <- app_assoc.
Qed.

Lemma store_frame (d : ptr) (off : Z) (src : list Z) (n : Z) (h h' : heap) :
  store d off src n h = Ok h' ->
  (forall p, p <> d -> blocks h' !! p = blocks h !! p)
  /\ (is_Some (blocks h !! d) -> is_Some (blocks h' !! d))
  /\ next_block h' = next_block h /\ alloc_budget h' = alloc_budget h.
Proof.
  unfold store. destruct (n =? 0); [by intros [= <-]|].
  destruct (blocks h !! d) as [b|]; [|destruct (n <? 0); discriminate].
  destruct (store_bytes b off src n) as [b'|]; [|discriminate].
  rewrite bind_Ok. intros [= <-]. cbn [blocks next_block alloc_budget].
  split; [intros p Hp; by rewrite lookup_insert_ne|].
  split; [|done]. intros _. rewrite lookup_insert_eq. by eexists.
Qed.

(** A copy changes no block but its target, and neither creates nor
    releases a block. *)
Lemma copy_frame (d : ptr) (doff : Z) (s : ptr) (soff n : Z) (h h' : heap) :
  copy d doff s soff n h = Ok h' ->
  (forall p, p <> d -> blocks h' !! p = blocks h !! p)
  /\ (is_Some (blocks h !! d) -> is_Some (blocks h' !! d))
  /\ next_block h' = next_block h /\ alloc_budget h' = alloc_budget h.
Proof.
  unfold copy. destruct (load s soff n h); [|discriminate].
  rewrite bind_Ok. apply store_frame.
Qed.

(** An allocation, granted or refused, on a heap with nothing above its
    last address. *)
Lemma alloc_frame (size : Z) (h : heap) (p : ptr) (h' : heap) :
  alloc size h = (p, h') -> fresh_above h ->
  fresh_above h'
  /\ (alloc_budget h' = tail (alloc_budget h))
  /\ (p = O /\ blocks h' = blocks h /\ next_block h' = next_block h
      \/ p = S (next_block h) /\ next_block h' = p
         /\ blocks h'
            = <[p := replicate (Z.to_nat size) fresh_byte]> (blocks h)).
Proof.
  intros Halloc Hfresh.
  destruct (alloc_cases h size)
    as [(rest & Hbud & Hpos & Heq)|(h0 & Heq & Hbl & Hnb & Hbg)];
    rewrite Heq in Halloc; injection Halloc as <- <-.
  - split; [|split; [by rewrite Hbud|by right]].
    intros q Hq. cbn [blocks next_block] in *.
    rewrite lookup_insert_ne by lia. apply Hfresh. lia.
  - split; [|split; [done|by left]].
    intros q Hq. rewrite Hbl. apply Hfresh. lia.
Qed.

Lemma append_step_Z (pre junk x : list Z) (off n : Z) :
  Z.of_nat (length pre) = off -> Z.of_nat (length x) = n ->
  take (Z.to_nat off) (pre ++ junk) ++ x
    ++ drop (Z.to_nat (off + n)) (pre ++ junk)
  = (pre ++ x) ++ drop (Z.to_nat n) junk.
Proof. intros Hpre Hx. apply append_step; lia. Qed.

(** Frees in a row. *)
Fixpoint free_each (ps : list ptr) (h : heap) : outcome heap :=
  match ps with
  | [] => Ok h
  | p :: ps => h ← free p h; free_each ps h
  end.

(** No pointer but the null pointer occurs twice. *)
Fixpoint distinct_blocks (ps : list ptr) : Prop :=
  match ps with
  | [] => True
  | p :: ps => (p = O \/ p ∉ ps) /\ distinct_blocks ps
  end.

(** Freeing pointers that are null or live, no block twice: every call
    succeeds, the blocks named are gone and no other block changes. *)
Lemma free_each_spec (ps : list ptr) (h : heap) :
  Forall (fun p => p = O \/ is_Some (blocks h !! p)) ps ->
  distinct_blocks ps ->
  exists h',
    free_each ps h = Ok h'
    /\ next_block h' = next_block h /\ alloc_budget h' = alloc_budget h
    /\ forall q,
         (q <> O -> q ∈ ps -> blocks h' !! q = None)
         /\ (q ∉ ps -> blocks h' !! q = blocks h !! q)
         /\ (q = O -> blocks h' !! q = blocks h !! q).
Proof.
  revert h. induction ps as [|p ps IH]; intros h Hlive Hdist.
  - exists h. repeat split; try done. intros _ Hq. by apply elem_of_nil in Hq.
  - apply Forall_cons in Hlive as [Hp Hlive]. destruct Hdist as [Hp' Hdist].
    destruct p as [|p].
    + destruct (IH h Hlive Hdist) as (h' & Hrun & Hn & Hb & Hq).
      exists h'. cbn [free_each free]. rewrite bind_Ok.
      split; [done|]. split; [done|]. split; [done|].
      intros q. destruct (Hq q) as (Q1 & Q2 & Q3).
      split; [|split; [|done]].
      * intros Hq0 Hin. apply elem_of_cons in Hin as [->|Hin]; [done|auto].
      * intros Hnin. apply Q2. intros Hin. apply Hnin. by right.
    + destruct Hp as [Hp|[b Hp]]; [done|].
      destruct Hp' as [Hp'|Hp']; [done|].
      cbn [free_each]. rewrite (free_live h (S p) b) by done.
      rewrite bind_Ok.
      destruct (IH (mkHeap (delete (S p) (blocks h)) (next_block h)
                      (alloc_budget h))) as (h' & Hrun & Hn & Hb & Hq).
      { cbn [blocks]. apply Forall_forall. intros p0 Hin.
        rewrite Forall_forall in Hlive.
        destruct (Hlive p0 Hin) as [->|Hl]; [by left|]. right.
        rewrite lookup_delete_ne; [done|]. by intros <-. }
      { done. }
      exists h'. split; [done|]. split; [done|]. split; [done|].
      intros q. destruct (Hq q) as (Q1 & Q2 & Q3). cbn [blocks] in Q2, Q3.
      split; [|split].
      * intros Hq0 Hin. apply elem_of_cons in Hin as [->|Hin]; [|auto].
        rewrite Q2 by done. apply lookup_delete_eq.
      * intros Hnin. apply not_elem_of_cons in Hnin as [Hne Hnin].
        rewrite Q2 by done. by apply lookup_delete_ne.
      * intros ->. rewrite Q3 by done. by apply lookup_delete_ne.
Qed.

End HeapFrames.

(** ** The detail-mesh record: what is written, read back and released *)

Module DetailLifecycle.
Import Heap HeapFacts HeapSteps HeapFrames LayoutFacts PolyMeshDetail
  DetailRoundTrip Serialization.

(** A successful [rcpdGetSerializedData], byte by byte. *)
Lemma detail_serialize_content (m : nmgPolyMeshDetail) (includeBuffer : bool)
    (out : serialized) (h : heap) (data : ptr) (size : Z) (h1 : heap) :
  rcpdGetSerializedData (Some m) includeBuffer (Some out) h
  = Ok (true, Some (mkSerialized data size), h1) ->
  (meshes m <= next_block h)%nat -> (tris m <= next_block h)%nat ->
  (verts m <= next_block h)%nat ->
  let hd := written_header m includeBuffer in
  exists mb tb vb,
    load (meshes m) 0 (meshes_size hd) h = Ok mb
    /\ load (tris m) 0 (tris_size hd) h = Ok tb
    /\ load (verts m) 0 (verts_size hd) h = Ok vb
    /\ length mb = Z.to_nat (meshes_size hd)
    /\ length tb = Z.to_nat (tris_size hd)
    /\ length vb = Z.to_nat (verts_size hd)
    /\ 0 <= meshes_size hd /\ 0 <= tris_size hd /\ 0 <= verts_size hd
    /\ data = S (next_block h)
    /\ size = 28 + meshes_size hd + tris_size hd + verts_size hd
    /\ size < 2147483648
    /\ h1 = mkHeap (<[data := header_bytes hd ++ mb ++ tb ++ vb]> (blocks h))
              data (tail (alloc_budget h)).
Proof.
  intros Hrun Hpm Hpt Hpv hd.
  destruct (serialize_inv m includeBuffer out h data size h1 Hrun)
    as (Hdata & _ & Hsize & Hms & Hts & Hvs & Hfit & _).
  fold hd in Hsize, Hms, Hts, Hvs, Hfit.
  assert (Hexact : size = 28 + meshes_size hd + tris_size hd + verts_size hd).
  { rewrite Hsize. unfold sizeof_header in Hfit.
    rewrite total_size_exact; unfold sizeof_header; try lia. }
  assert (Hrange : in_int32 size) by (rewrite Hsize; apply int32_range).
  unfold in_int32 in Hrange.
  unfold rcpdGetSerializedData in Hrun.
  destruct (maxmeshes m =? 0); [discriminate|].
  fold (written_header m includeBuffer) in Hrun. fold hd in Hrun.
  change (sizeof_times 4 (int32 ((if includeBuffer then maxverts m
                                   else nverts m) * 3)))
    with (verts_size hd) in Hrun.
  change (sizeof_times 4 (int32 ((if includeBuffer then maxmeshes m
                                   else nmeshes m) * 4)))
    with (meshes_size hd) in Hrun.
  change (sizeof_times 1 (int32 ((if includeBuffer then maxtris m
                                   else ntris m) * 4)))
    with (tris_size hd) in Hrun.
  fold (total_size hd) in Hrun. rewrite <- Hsize in Hrun.
  destruct (alloc_cases h size)
    as [(rest & Hbud & Hpos & Halloc)|(h' & Halloc & _)];
    rewrite Halloc in Hrun; [|discriminate].
  set (d := S (next_block h)) in *.
  set (b0 := replicate (Z.to_nat size) fresh_byte) in *.
  assert (Hl0 : length b0 = Z.to_nat size)
    by (unfold b0; apply length_replicate).
  cbv beta iota zeta in Hrun.
  destruct (store d 0 (header_bytes hd) sizeof_header _) as [ha|] eqn:Ha;
    [|discriminate].
  rewrite bind_Ok in Hrun.
  apply (store_content _ d b0) in Ha;
    [ | cbn [blocks]; apply lookup_insert_eq
      | by rewrite header_bytes_length | done ].
  destruct Ha as [(_ & _ & ->)|[Hz _]]; [|discriminate Hz].
  cbn [blocks next_block alloc_budget] in Hrun.
  rewrite insert_insert_eq in Hrun.
  change (int32 (0 + sizeof_header)) with 28 in Hrun.
  unfold sizeof_header in Hrun.
  rewrite <- (app_nil_l b0) in Hrun at 1 2.
  rewrite (append_step [] b0 (header_bytes hd) 0 28) in Hrun
    by (try done; apply header_bytes_length).
  rewrite app_nil_l in Hrun.
  set (j1 := drop (Z.to_nat 28) b0) in *.
  assert (Hj1 : length j1 = Z.to_nat (size - 28))
    by (unfold j1; rewrite length_drop; lia).
  (* the sub-meshes *)
  destruct (copy d 28 (meshes m) 0 (meshes_size hd) _) as [hb|] eqn:Hb;
    [|discriminate].
  rewrite bind_Ok in Hrun.
  apply (copy_content _ d (header_bytes hd ++ j1)) in Hb;
    [ | cbn [blocks]; apply lookup_insert_eq
      | rewrite length_app, header_bytes_length; lia ].
  destruct Hb as (mb & Hmb & Hlmb & _ & _ & ->).
  rewrite (load_same h) in Hmb
    by (cbn [blocks]; apply lookup_insert_ne; lia).
  cbn [blocks next_block alloc_budget] in Hrun.
  rewrite insert_insert_eq in Hrun.
  rewrite (append_step (header_bytes hd) j1 mb 28 (meshes_size hd)) in Hrun
    by (try done; apply header_bytes_length).
  set (j2 := drop (Z.to_nat (meshes_size hd)) j1) in *.
  assert (Hj2 : length j2 = Z.to_nat (size - 28 - meshes_size hd))
    by (unfold j2; rewrite length_drop; lia).
  rewrite (int32_id (28 + meshes_size hd)) in Hrun by (unfold in_int32; lia).
  (* the triangles *)
  destruct (copy d (28 + meshes_size hd) (tris m) 0 (tris_size hd) _)
    as [hc|] eqn:Hc; [|discriminate].
  rewrite bind_Ok in Hrun.
  assert (Hp1 : length (header_bytes hd ++ mb)
                = Z.to_nat (28 + meshes_size hd))
    by (rewrite length_app, header_bytes_length; lia).
  apply (copy_content _ d ((header_bytes hd ++ mb) ++ j2)) in Hc;
    [ | cbn [blocks]; apply lookup_insert_eq
      | rewrite length_app, Hp1; lia ].
  destruct Hc as (tb & Htb & Hltb & _ & _ & ->).
  rewrite (load_same h) in Htb
    by (cbn [blocks]; apply lookup_insert_ne; lia).
  cbn [blocks next_block alloc_budget] in Hrun.
  rewrite insert_insert_eq in Hrun.
  rewrite (append_step (header_bytes hd ++ mb) j2 tb (28 + meshes_size hd)
             (tris_size hd)) in Hrun by (try done; lia).
  set (j3 := drop (Z.to_nat (tris_size hd)) j2) in *.
  assert (Hj3 : length j3
                = Z.to_nat (size - 28 - meshes_size hd - tris_size hd))
    by (unfold j3; rewrite length_drop; lia).
  rewrite (int32_id (28 + meshes_size hd + tris_size hd)) in Hrun
    by (unfold in_int32; lia).
  (* the vertices *)
  destruct (copy d (28 + meshes_size hd + tris_size hd) (verts m) 0
              (verts_size hd) _) as [hv|] eqn:Hv; [|discriminate].
  rewrite bind_Ok in Hrun.
  assert (Hp2 : length ((header_bytes hd ++ mb) ++ tb)
                = Z.to_nat (28 + meshes_size hd + tris_size hd))
    by (rewrite length_app, Hp1; lia).
  apply (copy_content _ d (((header_bytes hd ++ mb) ++ tb) ++ j3)) in Hv;
    [ | cbn [blocks]; apply lookup_insert_eq
      | rewrite length_app, Hp2; lia ].
  destruct Hv as (vb & Hvb & Hlvb & _ & _ & ->).
  rewrite (load_same h) in Hvb
    by (cbn [blocks]; apply lookup_insert_ne; lia).
  cbn [blocks next_block alloc_budget] in Hrun.
  rewrite insert_insert_eq in Hrun.
  rewrite (append_step ((header_bytes hd ++ mb) ++ tb) j3 vb
             (28 + meshes_size hd + tris_size hd) (verts_size hd)) in Hrun
    by (try done; lia).
  rewrite (drop_ge j3) in Hrun by lia. rewrite app_nil_r in Hrun.
  pose proof (f_equal (fun o => match o with
                               | Ok (_, _, x) => x
                               | Fault _ => h
                               end) Hrun) as Hh1.
  cbv beta iota in Hh1. subst h1.
  exists mb, tb, vb. rewrite Hbud, Hdata. cbn [tail].
  rewrite <- (app_assoc (header_bytes hd ++ mb) tb vb).
  rewrite <- (app_assoc (header_bytes hd) mb (tb ++ vb)).
  repeat (split; [first [done | lia]|]). reflexivity.
Qed.

(** X9. What a successful [rcpdGetSerializedData] leaves in the heap:
    one new block, at an address that held nothing, made of the header
    followed by the leading bytes of the sub-mesh, triangle and vertex
    arrays as they stand in the heap of the call, in that order; the size
    reported is the length of that block, and no other block changes. *)
Theorem detail_serialize_layout (m : nmgPolyMeshDetail) (includeBuffer : bool)
    (out : serialized) (h : heap) (data : ptr) (size : Z) (h1 : heap) :
  rcpdGetSerializedData (Some m) includeBuffer (Some out) h
  = Ok (true, Some (mkSerialized data size), h1) ->
  fresh_above h ->
  (meshes m <= next_block h)%nat -> (tris m <= next_block h)%nat ->
  (verts m <= next_block h)%nat ->
  let hd := written_header m includeBuffer in
  exists mb tb vb,
    load (meshes m) 0 (meshes_size hd) h = Ok mb
    /\ load (tris m) 0 (tris_size hd) h = Ok tb
    /\ load (verts m) 0 (verts_size hd) h = Ok vb
    /\ blocks h !! data = None
    /\ blocks h1 = <[data := header_bytes hd ++ mb ++ tb ++ vb]> (blocks h)
    /\ size = Z.of_nat (length (header_bytes hd ++ mb ++ tb ++ vb)).
Proof.
  intros Hrun Hfresh Hpm Hpt Hpv hd.
  destruct (detail_serialize_content m includeBuffer out h data size h1 Hrun
              Hpm Hpt Hpv)
    as (mb & tb & vb & Hmb & Htb & Hvb & Hlm & Hlt & Hlv & Hms & Hts & Hvs
        & Hdata & Hsize & _ & ->).
  fold hd in Hmb, Htb, Hvb, Hlm, Hlt, Hlv, Hms, Hts, Hvs, Hsize.
  exists mb, tb, vb. do 3 (split; [done|]).
  split; [apply Hfresh; lia|]. split; [done|].
  rewrite !length_app, header_bytes_length. lia.
Qed.

Lemma detail_small_heap_fresh (budget : list bool) : fresh_above (small_heap budget).
Proof.
  intros p Hp. unfold small_heap in *. cbn [blocks next_block] in *.
  rewrite !lookup_insert_ne by lia. apply lookup_singleton_ne. lia.
Qed.

Lemma detail_serialize_layout_witness :
  let hd := written_header small_mesh false in
  exists mb tb vb,
    load (meshes small_mesh) 0 (meshes_size hd) (small_heap [true]) = Ok mb
    /\ load (tris small_mesh) 0 (tris_size hd) (small_heap [true]) = Ok tb
    /\ load (verts small_mesh) 0 (verts_size hd) (small_heap [true]) = Ok vb
    /\ blocks (small_heap [true]) !! 4%nat = None
    /\ blocks (serialized_heap [])
       = <[4%nat := header_bytes hd ++ mb ++ tb ++ vb]>
           (blocks (small_heap [true]))
    /\ 60 = Z.of_nat (length (header_bytes hd ++ mb ++ tb ++ vb)).
Proof.
  apply (detail_serialize_layout small_mesh false (mkSerialized O 0)
           (small_heap [true]) 4%nat 60 (serialized_heap [])).
  - vm_compute. reflexivity.
  - apply detail_small_heap_fresh.
  - simpl. lia.
  - simpl. lia.
  - simpl. lia.
Defined.

(** X10. Releasing a serialized record with [nmgFreeSerializationData]
    gives back the block: the heap holds the blocks it held before
    [rcpdGetSerializedData] was called, the caller's pointer is cleared,
    and a second call on the cleared pointer does nothing. *)
Theorem detail_serialize_then_free (m : nmgPolyMeshDetail)
    (includeBuffer : bool) (out : serialized) (h : heap) (data : ptr)
    (size : Z) (h1 : heap) :
  rcpdGetSerializedData (Some m) includeBuffer (Some out) h
  = Ok (true, Some (mkSerialized data size), h1) ->
  fresh_above h ->
  (meshes m <= next_block h)%nat -> (tris m <= next_block h)%nat ->
  (verts m <= next_block h)%nat ->
  exists h2,
    nmgFreeSerializationData (Some data) h1 = Ok (Some O, h2)
    /\ blocks h2 = blocks h
    /\ nmgFreeSerializationData (Some O) h2 = Ok (Some O, h2).
Proof.
  intros Hrun Hfresh Hpm Hpt Hpv.
  destruct (detail_serialize_content m includeBuffer out h data size h1 Hrun
              Hpm Hpt Hpv)
    as (mb & tb & vb & _ & _ & _ & _ & _ & _ & _ & _ & _ & Hdata & _ & _ & ->).
  unfold nmgFreeSerializationData.
  erewrite free_live;
    [ | cbn [blocks]; apply lookup_insert_eq | lia ].
  rewrite bind_Ok. eexists. split; [reflexivity|].
  cbn [blocks]. split; [|reflexivity].
  rewrite delete_insert_eq. apply delete_id, Hfresh. lia.
Qed.

Lemma detail_serialize_then_free_witness :
  exists h2,
    nmgFreeSerializationData (Some 4%nat) (serialized_heap [])
    = Ok (Some O, h2)
    /\ blocks h2 = blocks (small_heap [true])
    /\ nmgFreeSerializationData (Some O) h2 = Ok (Some O, h2).
Proof.
  apply (detail_serialize_then_free small_mesh false (mkSerialized O 0)
           (small_heap [true]) 4%nat 60 (serialized_heap [])).
  - vm_compute. reflexivity.
  - apply detail_small_heap_fresh.
  - simpl. lia.
  - simpl. lia.
  - simpl. lia.
Defined.

(** Every way [rcpdBuildFromMeshData] can return, on a record whose array
    pointers are null. *)
Lemma detail_build_frame (data : ptr) (size : Z) (r : nmgPolyMeshDetail) (h : heap)
    (res : bool) (r' : option nmgPolyMeshDetail) (h' : heap) :
  rcpdBuildFromMeshData data size (Some r) h = Ok (res, r', h') ->
  meshes r = O -> verts r = O -> tris r = O ->
  fresh_above h ->
  if res
  then exists m',
         r' = Some m'
         /\ meshes m' = S (next_block h)
         /\ tris m' = S (S (next_block h))
         /\ verts m' = S (S (S (next_block h)))
         /\ resourcetype m' = NMGen.NMG_ALLOC_TYPE_LOCAL
         /\ is_Some (blocks h' !! meshes m')
         /\ is_Some (blocks h' !! tris m')
         /\ is_Some (blocks h' !! verts m')
         /\ forall p, p <> meshes m' -> p <> tris m' -> p <> verts m' ->
              blocks h' !! p = blocks h !! p
  else blocks h' = blocks h.
Proof.
  intros Hrun Hnm Hnv Hnt Hfresh.
  unfold rcpdBuildFromMeshData, rcpdBuildFromMeshDataOn in Hrun.
  destruct data as [|d']; [by injection Hrun as <- <- <-|].
  destruct (negb (maxmeshes r =? 0) || (size <? sizeof_header));
    [by injection Hrun as <- <- <-|].
  apply FlattenSuccess.bind_Ok_inv in Hrun as (hbytes & _ & Hrun).
  set (hd := header_of_bytes hbytes) in *.
  destruct (negb (h_version hd =? NMG_POLYMESHDETAIL_VERSION));
    [by injection Hrun as <- <- <-|].
  cbv zeta in Hrun.
  destruct (size <? _); [by injection Hrun as <- <- <-|].
  (* the sub-mesh array *)
  destruct (alloc _ h) as [p1 h1] eqn:A1.
  destruct (alloc_frame _ _ _ _ A1 Hfresh)
    as (Hf1 & _ & [(-> & Hb1 & Hn1)|(-> & Hn1 & Hb1)]).
  { cbn [Nat.eqb] in Hrun. unfold build_failed, rcpdFreeMeshData in Hrun.
    cbn [set_meshes set_resourcetype resourcetype meshes verts tris] in Hrun.
    rewrite Hnv, Hnt, Z.eqb_refl in Hrun. cbn [free] in Hrun.
    rewrite !bind_Ok in Hrun. by injection Hrun as <- <- <-. }
  change (S (next_block h) =? 0)%nat with false in Hrun. cbv iota in Hrun.
  set (p1 := S (next_block h)) in *.
  (* the triangle array *)
  destruct (alloc _ h1) as [p2 h2] eqn:A2.
  destruct (alloc_frame _ _ _ _ A2 Hf1)
    as (Hf2 & _ & [(-> & Hb2 & Hn2)|(-> & Hn2 & Hb2)]).
  { cbn [Nat.eqb] in Hrun. unfold build_failed, rcpdFreeMeshData in Hrun.
    cbn [set_meshes set_tris set_resourcetype resourcetype meshes verts tris]
      in Hrun.
    rewrite Hnv, Z.eqb_refl in Hrun.
    erewrite free_live in Hrun;
      [ | rewrite Hb2, Hb1; apply lookup_insert_eq | done ].
    cbn [free] in Hrun. rewrite !bind_Ok in Hrun.
    injection Hrun as <- <- <-. cbn [blocks].
    rewrite Hb2, Hb1, delete_insert_eq. apply delete_id, Hfresh.
    unfold p1. lia. }
  rewrite Hn1 in *.
  change (S p1 =? 0)%nat with false in Hrun. cbv iota in Hrun.
  set (p2 := S p1) in *.
  (* the vertex array *)
  destruct (alloc _ h2) as [p3 h3] eqn:A3.
  destruct (alloc_frame _ _ _ _ A3 Hf2)
    as (Hf3 & _ & [(-> & Hb3 & Hn3)|(-> & Hn3 & Hb3)]).
  { cbn [Nat.eqb] in Hrun. unfold build_failed, rcpdFreeMeshData in Hrun.
    cbn [set_meshes set_tris set_verts set_resourcetype resourcetype meshes
         verts tris] in Hrun.
    rewrite Z.eqb_refl in Hrun.
    erewrite free_live in Hrun;
      [ | rewrite Hb3, Hb2, Hb1, lookup_insert_ne by (unfold p2; lia);
          apply lookup_insert_eq
      | done ].
    rewrite bind_Ok in Hrun. cbn [free] in Hrun. rewrite bind_Ok in Hrun.
    erewrite free_live in Hrun;
      [ | cbn [blocks]; rewrite Hb3, Hb2, Hb1;
          rewrite lookup_delete_ne by (unfold p2; lia);
          apply lookup_insert_eq
      | done ].
    rewrite bind_Ok in Hrun. injection Hrun as <- <- <-. cbn [blocks].
    rewrite Hb3, Hb2, Hb1.
    rewrite delete_insert_ne, delete_insert_eq by (unfold p2; lia).
    rewrite delete_insert_eq.
    rewrite (delete_id _ p1) by (apply Hfresh; unfold p1; lia).
    apply delete_id, Hfresh. unfold p2, p1. lia. }
  rewrite Hn2 in *.
  change (S p2 =? 0)%nat with false in Hrun. cbv iota in Hrun.
  set (p3 := S p2) in *.
  cbn [set_counts_on set_counts set_verts set_tris set_meshes set_resourcetype
       meshes verts tris resourcetype] in Hrun.
  apply FlattenSuccess.bind_Ok_inv in Hrun as (ha & Ca & Hrun).
  apply FlattenSuccess.bind_Ok_inv in Hrun as (hb & Cb & Hrun).
  apply FlattenSuccess.bind_Ok_inv in Hrun as (hc & Cc & Hrun).
  apply copy_frame in Ca as (Fa & La & _).
  apply copy_frame in Cb as (Fb & Lb & _).
  apply copy_frame in Cc as (Fc & Lc & _).
  injection Hrun as <- <- <-.
  assert (L1 : is_Some (blocks h3 !! p1)).
  { rewrite Hb3, Hb2, Hb1.
    rewrite !lookup_insert_ne, lookup_insert_eq by (unfold p3, p2; lia).
    by eexists. }
  assert (L2 : is_Some (blocks h3 !! p2)).
  { rewrite Hb3, Hb2.
    rewrite lookup_insert_ne, lookup_insert_eq by (unfold p3; lia).
    by eexists. }
  assert (L3 : is_Some (blocks h3 !! p3)).
  { rewrite Hb3, lookup_insert_eq. by eexists. }
  assert (N12 : p1 <> p2) by (unfold p2; lia).
  assert (N13 : p1 <> p3) by (unfold p3, p2; lia).
  assert (N23 : p2 <> p3) by (unfold p3; lia).
  eexists. split; [reflexivity|].
  cbn [meshes tris verts resourcetype].
  do 4 (split; [reflexivity|]).
  split; [rewrite Fc, Fb by done; by apply La|].
  split; [rewrite Fc by done; apply Lb; by rewrite Fa|].
  split; [apply Lc; rewrite Fb, Fa by done; exact L3|].
  intros p H1 H2 H3.
  rewrite Fc, Fb, Fa, Hb3, Hb2, Hb1 by done.
  by rewrite !lookup_insert_ne by done.
Qed.

(** X11. A call of [rcpdBuildFromMeshData] that returns [false], on a
    record whose array pointers are null, leaves no block behind: whatever
    it allocated before it failed has been released, and the heap holds
    the blocks it held before the call. *)
Theorem detail_failed_build_releases (data : ptr) (size : Z)
    (r : nmgPolyMeshDetail) (h : heap) (r' : option nmgPolyMeshDetail)
    (h' : heap) :
  rcpdBuildFromMeshData data size (Some r) h = Ok (false, r', h') ->
  meshes r = O -> verts r = O -> tris r = O ->
  fresh_above h ->
  blocks h' = blocks h.
Proof.
  intros Hrun Hnm Hnv Hnt Hfresh.
  exact (detail_build_frame data size r h false r' h' Hrun Hnm Hnv Hnt Hfresh).
Qed.

(** X12. The arrays that a successful [rcpdBuildFromMeshData] allocates
    are exactly what [rcpdFreeMeshData] releases: freeing the record that
    was built returns [true] and leaves the heap with the blocks it held
    before the build. *)
Theorem detail_build_then_free (data : ptr) (size : Z)
    (r : nmgPolyMeshDetail) (h : heap) (r' : nmgPolyMeshDetail) (h' : heap) :
  rcpdBuildFromMeshData data size (Some r) h = Ok (true, Some r', h') ->
  meshes r = O -> verts r = O -> tris r = O ->
  fresh_above h ->
  exists h'',
    rcpdFreeMeshData (Some r') h' = Ok (true, h'')
    /\ blocks h'' = blocks h.
Proof.
  intros Hrun Hnm Hnv Hnt Hfresh.
  destruct (detail_build_frame data size r h true (Some r') h' Hrun Hnm Hnv Hnt
              Hfresh)
    as (m' & [= <-] & Hp1 & Hp2 & Hp3 & Hty & [b1 L1] & [b2 L2] & [b3 L3]
        & Hframe).
  unfold rcpdFreeMeshData. rewrite Hty, Z.eqb_refl.
  assert (N12 : meshes r' <> tris r') by lia.
  assert (N13 : meshes r' <> verts r') by lia.
  assert (N23 : tris r' <> verts r') by lia.
  erewrite free_live; [ | exact L1 | lia ].
  rewrite bind_Ok.
  erewrite free_live;
    [ | cbn [blocks]; rewrite lookup_delete_ne by done; exact L3 | lia ].
  rewrite bind_Ok.
  erewrite free_live;
    [ | cbn [blocks]; rewrite !lookup_delete_ne by done; exact L2 | lia ].
  rewrite bind_Ok. eexists. split; [reflexivity|]. cbn [blocks].
  apply map_eq. intros p.
  destruct (decide (p = tris r')) as [->|D2].
  { rewrite lookup_delete_eq. symmetry. apply Hfresh. lia. }
  rewrite lookup_delete_ne by done.
  destruct (decide (p = verts r')) as [->|D3].
  { rewrite lookup_delete_eq. symmetry. apply Hfresh. lia. }
  rewrite lookup_delete_ne by done.
  destruct (decide (p = meshes r')) as [->|D1].
  { rewrite lookup_delete_eq. symmetry. apply Hfresh. lia. }
  rewrite lookup_delete_ne by done. by apply Hframe.
Qed.

Lemma serialized_heap_fresh (budget : list bool) :
  fresh_above (serialized_heap budget).
Proof.
  intros p Hp. unfold serialized_heap, small_heap in *.
  cbn [blocks next_block] in *.
  rewrite !lookup_insert_ne by lia. apply lookup_singleton_ne. lia.
Qed.

Lemma detail_failed_build_releases_witness :
  exists r' h',
    rcpdBuildFromMeshData 4%nat 60 (Some empty_mesh)
      (serialized_heap [true; false])
    = Ok (false, r', h')
    /\ blocks h' = blocks (serialized_heap [true; false]).
Proof.
  eexists _, _. split; [vm_compute; reflexivity|].
  eapply (detail_failed_build_releases 4%nat 60 empty_mesh
            (serialized_heap [true; false])).
  - vm_compute. reflexivity.
  - reflexivity.
  - reflexivity.
  - reflexivity.
  - apply serialized_heap_fresh.
Defined.

Lemma detail_build_then_free_witness :
  exists r' h' h'',
    rcpdBuildFromMeshData 4%nat 60 (Some empty_mesh)
      (serialized_heap [true; true; true])
    = Ok (true, Some r', h')
    /\ rcpdFreeMeshData (Some r') h' = Ok (true, h'')
    /\ blocks h'' = blocks (serialized_heap [true; true; true]).
Proof.
  eexists _, _.
  assert (Hrun : rcpdBuildFromMeshData 4%nat 60 (Some empty_mesh)
                   (serialized_heap [true; true; true])
                 = Ok (true, Some _, _)) by (vm_compute; reflexivity).
  destruct (detail_build_then_free _ _ _ _ _ _ Hrun eq_refl eq_refl eq_refl
              (serialized_heap_fresh _)) as (h'' & Hfree & Hblocks).
  exists h''. split; [exact Hrun|]. split; [exact Hfree|exact Hblocks].
Defined.

(** X13. The round trip keeps the data: when the three allocations of the
    reader are granted, the record that [rcpdBuildFromMeshData] builds
    from the output of [rcpdGetSerializedData] has its sub-mesh, triangle
    and vertex arrays in blocks of their own that hold the very bytes the
    serializer read from the arrays of the original record. *)
Theorem detail_roundtrip_arrays (m : nmgPolyMeshDetail) (includeBuffer : bool)
    (out : serialized) (h : heap) (data : ptr) (size : Z) (h1 : heap)
    (r : nmgPolyMeshDetail) (rest : list bool) :
  rcpdGetSerializedData (Some m) includeBuffer (Some out) h
  = Ok (true, Some (mkSerialized data size), h1) ->
  (meshes m <= next_block h)%nat -> (tris m <= next_block h)%nat ->
  (verts m <= next_block h)%nat ->
  maxmeshes r = 0 ->
  alloc_budget h1 = true :: true :: true :: rest ->
  let hd := written_header m includeBuffer in
  exists mb tb vb r' h2,
    load (meshes m) 0 (meshes_size hd) h = Ok mb
    /\ load (tris m) 0 (tris_size hd) h = Ok tb
    /\ load (verts m) 0 (verts_size hd) h = Ok vb
    /\ rcpdBuildFromMeshData data size (Some r) h1 = Ok (true, Some r', h2)
    /\ blocks h2 !! meshes r' = Some mb
    /\ blocks h2 !! tris r' = Some tb
    /\ blocks h2 !! verts r' = Some vb
    /\ meshes r' <> meshes m /\ tris r' <> tris m /\ verts r' <> verts m.
Proof.
  intros Hser Hpm Hpt Hpv Hmax Hbud wh.
  destruct (serialize_inv m includeBuffer out h data size h1 Hser)
    as (_ & _ & Htotal & _).
  fold wh in Htotal.
  destruct (detail_serialize_content m includeBuffer out h data size h1 Hser
              Hpm Hpt Hpv)
    as (mb & tb & vb & Hmb & Htb & Hvb & Hlm & Hlt & Hlv & Hms & Hts & Hvs
        & Hdata & Hsize & Hsmall & Hh1).
  fold wh in Hmb, Htb, Hvb, Hlm, Hlt, Hlv, Hms, Hts, Hvs, Hsize, Hh1.
  set (b := header_bytes wh ++ mb ++ tb ++ vb) in *.
  assert (Hb : blocks h1 !! data = Some b)
    by (rewrite Hh1; cbn [blocks]; apply lookup_insert_eq).
  assert (Hnb : next_block h1 = data) by (by rewrite Hh1).
  assert (Hlen : Z.of_nat (length b) = size).
  { unfold b. rewrite !length_app, header_bytes_length. lia. }
  assert (Hhd : take 28 b = header_bytes wh).
  { unfold b. rewrite take_app_length'; [done|].
    by rewrite header_bytes_length. }
  assert (Hdec : header_of_bytes (take 28 b) = wrapped wh)
    by (rewrite Hhd; apply header_of_header_bytes).
  destruct (wrapped_sizes wh) as (Wm & Wt & Wv & Wtot).
  destruct (build_ok h1 data b size r rest Hb) as (h2 & Hrun & H1 & H2 & H3 & _).
  - lia.
  - exact Hmax.
  - by rewrite Hdec.
  - rewrite Hdec, Wm. lia.
  - rewrite Hdec, Wt. lia.
  - rewrite Hdec, Wv. lia.
  - rewrite Hdec, Wm, Wt, Wv. unfold sizeof_header. lia.
  - lia.
  - unfold sizeof_header. lia.
  - rewrite Hdec, Wtot. lia.
  - exact Hbud.
  - rewrite Hdec in H1, H2, H3, Hrun.
    rewrite Wm in H1. rewrite Wm, Wt in H2. rewrite Wm, Wt, Wv in H3.
    rewrite Hnb in H1, H2, H3, Hrun.
    exists mb, tb, vb. eexists _, h2.
    do 3 (split; [done|]). split; [exact Hrun|].
    cbn [meshes tris verts].
    assert (E1 : take (Z.to_nat (meshes_size wh)) (drop 28 b) = mb).
    { unfold b.
      rewrite drop_app_length' by (by rewrite header_bytes_length).
      by rewrite take_app_length'. }
    assert (E2 : take (Z.to_nat (tris_size wh))
                   (drop (Z.to_nat (28 + meshes_size wh)) b) = tb).
    { unfold b. rewrite (app_assoc (header_bytes wh) mb).
      rewrite drop_app_length'
        by (rewrite length_app, header_bytes_length; lia).
      by rewrite take_app_length'. }
    assert (E3 : take (Z.to_nat (verts_size wh))
                   (drop (Z.to_nat (28 + meshes_size wh + tris_size wh)) b)
                 = vb).
    { unfold b.
      rewrite (app_assoc (header_bytes wh) mb), (app_assoc _ tb).
      rewrite drop_app_length'
        by (rewrite !length_app, header_bytes_length; lia).
      by rewrite take_ge by lia. }
    rewrite E1 in H1. rewrite E2 in H2. rewrite E3 in H3.
    split; [exact H1|]. split; [exact H2|]. split; [exact H3|]. lia.
Qed.

Lemma detail_roundtrip_arrays_witness :
  let hd := written_header small_mesh false in
  exists mb tb vb r' h2,
    load (meshes small_mesh) 0 (meshes_size hd)
      (small_heap [true; true; true; true]) = Ok mb
    /\ load (tris small_mesh) 0 (tris_size hd)
         (small_heap [true; true; true; true]) = Ok tb
    /\ load (verts small_mesh) 0 (verts_size hd)
         (small_heap [true; true; true; true]) = Ok vb
    /\ rcpdBuildFromMeshData 4%nat 60 (Some empty_mesh)
         (serialized_heap [true; true; true])
       = Ok (true, Some r', h2)
    /\ blocks h2 !! meshes r' = Some mb
    /\ blocks h2 !! tris r' = Some tb
    /\ blocks h2 !! verts r' = Some vb
    /\ meshes r' <> meshes small_mesh /\ tris r' <> tris small_mesh
    /\ verts r' <> verts small_mesh.
Proof.
  apply (detail_roundtrip_arrays small_mesh false (mkSerialized O 0)
           (small_heap [true; true; true; true]) 4%nat 60
           (serialized_heap [true; true; true]) empty_mesh []).
  - vm_compute. reflexivity.
  - simpl. lia.
  - simpl. lia.
  - simpl. lia.
  - reflexivity.
  - reflexivity.
Defined.

(** X14. A detail-mesh buffer that is shorter than its header announces
    is refused before anything is allocated: where the three capacities in
    the header are not negative and the size they imply,
    [28 + 12 * maxverts + 16 * maxmeshes + 4 * maxtris] bytes, fits an
    [int], a [dataSize] below that size makes [rcpdBuildFromMeshData]
    return [false] with the record and the heap as they were. *)
Theorem detail_truncated_buffer_refused (h : heap) (p : ptr) (b : list Z)
    (dataSize : Z) (resultMesh : option nmgPolyMeshDetail) :
  blocks h !! p = Some b -> 28 <= Z.of_nat (length b) ->
  let hd := header_of_bytes (take 28 b) in
  0 <= h_maxmeshes hd -> 0 <= h_maxverts hd -> 0 <= h_maxtris hd ->
  28 + 12 * h_maxverts hd + 16 * h_maxmeshes hd + 4 * h_maxtris hd
    < 2147483648 ->
  dataSize
    < 28 + 12 * h_maxverts hd + 16 * h_maxmeshes hd + 4 * h_maxtris hd ->
  rcpdBuildFromMeshData p dataSize resultMesh h = Ok (false, resultMesh, h).
Proof.
  intros Hb Hlen hd Hm Hv Ht Hfit Hshort.
  apply (DetailTruncation.detail_truncated_rejected h p b); [done|done|].
  fold hd. rewrite DetailTruncation.total_size_plain by done. exact Hshort.
Qed.

Lemma detail_truncated_buffer_refused_witness :
  rcpdBuildFromMeshData 4%nat 59 (Some empty_mesh)
    (serialized_heap [true; true; true])
  = Ok (false, Some empty_mesh, serialized_heap [true; true; true]).
Proof.
  eapply (detail_truncated_buffer_refused
            (serialized_heap [true; true; true]) 4%nat _ 59
            (Some empty_mesh)).
  - reflexivity.
  - vm_compute. discriminate.
  - vm_compute. discriminate.
  - vm_compute. discriminate.
  - vm_compute. discriminate.
  - vm_compute. reflexivity.
  - vm_compute. reflexivity.
Defined.

End DetailLifecycle.

(** ** Tile data: the private copy and its release *)

Module TileDataFacts.
Import Heap HeapFacts HeapSteps HeapFrames Detour NavMesh.

(** A tile payload of ten bytes in block 1: magic number, version and two
    bytes of content. *)
Definition payload_bytes : list Z :=
  le_encode 4 DT_NAVMESH_MAGIC ++ le_encode 4 DT_NAVMESH_VERSION ++ [9; 9].

Definition payload_heap : heap :=
  {| blocks := {[ 1%nat := payload_bytes ]};
     next_block := 1;
     alloc_budget := [true; true; true; true; true] |}.

Lemma payload_heap_fresh : fresh_above payload_heap.
Proof.
  intros q Hq. unfold payload_heap in *.
  cbn [blocks next_block] in *. apply lookup_singleton_ne. lia.
Qed.

(** X15. [dtnmBuildTileDataRaw] on an empty record, with memory
    available: the record receives a new block that holds the first
    [dataSize] bytes of the caller's buffer, with that size and the tag
    "not owned"; the caller's buffer and every other block stay as they
    are. *)
Theorem build_tile_data_copies (data : ptr) (dataSize : Z) (rd : rcnTileData)
    (h : heap) (b : list Z) (rest : list bool) :
  blocks h !! data = Some b -> data <> O ->
  td_data rd = O ->
  0 <= dataSize <= Z.of_nat (length b) ->
  alloc_budget h = true :: rest ->
  fresh_above h ->
  let p := S (next_block h) in
  exists h',
    dtnmBuildTileDataRaw data dataSize (Some rd) h
    = Ok (true, Some (mkTileData p dataSize false), h')
    /\ blocks h !! p = None
    /\ blocks h' = <[p := take (Z.to_nat dataSize) b]> (blocks h)
    /\ blocks h' !! data = Some b.
Proof.
  intros Hb Hdata Hrd Hsize Hbud Hfresh p.
  assert (Hp : blocks h !! p = None) by (apply Hfresh; unfold p; lia).
  assert (Hne : data <> p).
  { intros E. assert (X : blocks h !! data = None) by (rewrite E; exact Hp).
    rewrite Hb in X. discriminate X. }
  unfold dtnmBuildTileDataRaw. destruct data as [|d']; [done|].
  rewrite Hrd. cbn [Nat.eqb negb].
  rewrite (alloc_granted h dataSize rest Hbud) by lia. fold p.
  change (p =? 0)%nat with false. cbv iota.
  rewrite (copy_into_fresh _ p (S d') b 0 dataSize);
    cbn [blocks next_block alloc_budget];
    [ | apply lookup_insert_eq | by rewrite lookup_insert_ne | lia | lia | lia ].
  rewrite bind_Ok. eexists. split; [reflexivity|]. cbn [blocks].
  change (Z.to_nat 0) with 0%nat. rewrite drop_0, insert_insert_eq.
  split; [done|]. split; [done|]. by rewrite lookup_insert_ne.
Qed.

Lemma build_tile_data_copies_witness :
  exists h',
    dtnmBuildTileDataRaw 1%nat 10 (Some (mkTileData O 0 false))
      payload_heap
    = Ok (true, Some (mkTileData 2%nat 10 false), h')
    /\ blocks payload_heap !! 2%nat = None
    /\ blocks h'
       = <[2%nat := take (Z.to_nat 10) payload_bytes]>
           (blocks payload_heap)
    /\ blocks h' !! 1%nat = Some payload_bytes.
Proof.
  apply (build_tile_data_copies 1%nat 10 (mkTileData O 0 false)
           payload_heap payload_bytes
           [true; true; true; true]).
  - reflexivity.
  - discriminate.
  - reflexivity.
  - simpl. lia.
  - reflexivity.
  - exact payload_heap_fresh.
Defined.

(** X16. [dtnmBuildTileDataRaw] followed by [dtnmFreeTileData] leaves no
    block behind.  When the build returns [false] the heap holds the
    blocks it held before; when it returns [true], freeing the record
    releases the copy, clears the pointer and the size of the record, and
    a second [dtnmFreeTileData] on the cleared record does nothing. *)
Theorem tile_data_build_then_free (data : ptr) (dataSize : Z)
    (rd : rcnTileData) (h : heap) (res : bool) (td' : option rcnTileData)
    (h' : heap) :
  dtnmBuildTileDataRaw data dataSize (Some rd) h = Ok (res, td', h') ->
  fresh_above h ->
  if res
  then exists h'',
         dtnmFreeTileData td' h' = Ok (Some (mkTileData O 0 false), h'')
         /\ blocks h'' = blocks h
         /\ dtnmFreeTileData (Some (mkTileData O 0 false)) h''
            = Ok (Some (mkTileData O 0 false), h'')
  else blocks h' = blocks h
       /\ exists rd', td' = Some rd' /\ td_data rd' = td_data rd.
Proof.
  intros Hrun Hfresh. unfold dtnmBuildTileDataRaw in Hrun.
  destruct data as [|d'].
  { injection Hrun as <- <- <-. split; [done|]. by exists rd. }
  destruct (td_data rd =? 0)%nat eqn:Hrd; cbn [negb] in Hrun.
  2:{ injection Hrun as <- <- <-. split; [done|]. by exists rd. }
  apply Nat.eqb_eq in Hrd.
  destruct (alloc dataSize h) as [p h1] eqn:A1.
  destruct (alloc_frame _ _ _ _ A1 Hfresh)
    as (_ & _ & [(-> & Hb1 & _)|(-> & _ & Hb1)]).
  { cbn [Nat.eqb] in Hrun. injection Hrun as <- <- <-.
    split; [done|]. eexists. split; [reflexivity|]. by rewrite Hrd. }
  change (S (next_block h) =? 0)%nat with false in Hrun. cbv iota in Hrun.
  apply FlattenSuccess.bind_Ok_inv in Hrun as (h2 & Hcopy & Hrun).
  injection Hrun as <- <- <-.
  apply copy_frame in Hcopy as (Fc & Lc & _).
  assert (L1 : is_Some (blocks h2 !! S (next_block h))).
  { apply Lc. rewrite Hb1, lookup_insert_eq. by eexists. }
  destruct L1 as [b1 L1].
  unfold dtnmFreeTileData. cbn [td_data isOwned Nat.eqb orb].
  erewrite free_live; [ | exact L1 | done ].
  rewrite bind_Ok. eexists. split; [reflexivity|]. cbn [blocks].
  split; [|reflexivity].
  apply map_eq. intros q.
  destruct (decide (q = S (next_block h))) as [->|Hq].
  - rewrite lookup_delete_eq. symmetry. apply Hfresh. lia.
  - rewrite lookup_delete_ne by done.
    rewrite Fc, Hb1 by done. by rewrite lookup_insert_ne.
Qed.

Lemma tile_data_build_then_free_witness :
  exists td' h' h'',
    dtnmBuildTileDataRaw 1%nat 10 (Some (mkTileData O 0 false))
      payload_heap
    = Ok (true, td', h')
    /\ dtnmFreeTileData td' h' = Ok (Some (mkTileData O 0 false), h'')
    /\ blocks h'' = blocks payload_heap
    /\ dtnmFreeTileData (Some (mkTileData O 0 false)) h''
       = Ok (Some (mkTileData O 0 false), h'').
Proof.
  eexists _, _.
  assert (Hrun : dtnmBuildTileDataRaw 1%nat 10 (Some (mkTileData O 0 false))
                   payload_heap
                 = Ok (true, _, _)) by (vm_compute; reflexivity).
  destruct (tile_data_build_then_free _ _ _ _ true _ _ Hrun
              payload_heap_fresh)
    as (h'' & Hfree & Hblocks & Hagain).
  exists h''. auto.
Defined.

End TileDataFacts.

(** ** The polygon-mesh record: the copy past the record, and what a
       failed read releases *)

Module PolyLifecycle.
Import Heap HeapFacts HeapSteps HeapFrames LayoutFacts PolyMesh
  PolyMeshSerializer.

(** The sizes in bytes of the arrays that a header announces. *)
Definition verts_size (hd : nmgPolyMeshHeader) : Z :=
  sizeof_times 2 (int32 (h_maxverts hd * 3)).
Definition polys_size (hd : nmgPolyMeshHeader) : Z :=
  sizeof_times 2 (int32 (int32 (h_maxpolys hd * 2) * h_nvp hd)).
Definition regs_size (hd : nmgPolyMeshHeader) : Z :=
  sizeof_times 2 (h_maxpolys hd).
Definition areas_size (hd : nmgPolyMeshHeader) : Z :=
  sizeof_times 1 (h_maxpolys hd).
Definition total_size (hd : nmgPolyMeshHeader) : Z :=
  int32 (int32 (int32 (int32 (sizeof_header + verts_size hd) + polys_size hd)
                + int32 (2 * regs_size hd)) + areas_size hd).


(** The copy between the header and the record is 56 bytes long, and the
    record has 52 bytes from [nverts] on. *)
Lemma fields_bytes_length (m : rcPolyMesh) : length (fields_bytes m) = 52%nat.
Proof. unfold fields_bytes. rewrite !length_app, !encode_int_length. done. Qed.

Lemma copy_size : int32 (sizeof_header - cap) = 56.
Proof. reflexivity. Qed.

Lemma set_fields_faults (m : rcPolyMesh) (header : list Z) :
  exists f, set_fields m header (int32 (sizeof_header - cap)) = Fault f.
Proof.
  rewrite copy_size. unfold set_fields, store_bytes.
  rewrite fields_bytes_length. change (56 <? 0) with false. cbv iota.
  destruct (Z.of_nat (length header) <? 56); [by eexists|].
  change ((0 <? 0) || (Z.of_nat 52 <? 0 + 56)) with true. by eexists.
Qed.


Lemma free_mesh_each (m : rcPolyMesh) (h : heap) :
  rcpmFreeMeshData (Some m) h
  = (h' ← free_each [polys m; verts m; regs m; areas m; flags m] h;
     Ok (true, Some cleared_mesh, h')).
Proof.
  unfold rcpmFreeMeshData. cbn [free_each].
  destruct (free (polys m) h) as [h1|]; [|done]. rewrite !bind_Ok.
  destruct (free (verts m) h1) as [h2|]; [|done]. rewrite !bind_Ok.
  destruct (free (regs m) h2) as [h3|]; [|done]. rewrite !bind_Ok.
  destruct (free (areas m) h3) as [h4|]; [|done]. rewrite !bind_Ok.
  by destruct (free (flags m) h4) as [h5|].
Qed.

(** [rcpmFreeMeshData] on a record whose arrays are null or live, no block
    twice. *)
Lemma free_mesh_spec (m : rcPolyMesh) (h : heap) :
  let ps := [polys m; verts m; regs m; areas m; flags m] in
  Forall (fun p => p = O \/ is_Some (blocks h !! p)) ps ->
  distinct_blocks ps ->
  exists h',
    rcpmFreeMeshData (Some m) h = Ok (true, Some cleared_mesh, h')
    /\ forall q,
         (q <> O -> q ∈ ps -> blocks h' !! q = None)
         /\ (q ∉ ps -> blocks h' !! q = blocks h !! q)
         /\ (q = O -> blocks h' !! q = blocks h !! q).
Proof.
  intros ps Hlive Hdist.
  destruct (free_each_spec ps h Hlive Hdist) as (h' & Hrun & _ & _ & Hq).
  exists h'. split; [|exact Hq].
  rewrite free_mesh_each. fold ps. by rewrite Hrun, bind_Ok.
Qed.

Ltac lookup_chain :=
  repeat match goal with
         | H : blocks _ = _ |- _ => rewrite H
         end;
  rewrite ?lookup_insert_ne by lia;
  rewrite ?lookup_insert_eq.

(** The failure exit of [rcpmBuildSerializedData] after some of the
    arrays have been allocated. *)
Ltac failed_exit Hrun Hfresh :=
  cbn [Nat.eqb] in Hrun; unfold build_failed in Hrun;
  lazy [set_verts set_polys set_regs set_flags set_areas
        verts polys regs flags areas nverts npolys maxpolys nvp bmin bmax
        cs ch borderSize] in Hrun;
  match type of Hrun with
  | context [rcpmFreeMeshData (Some ?m) ?hk] =>
      let hf := fresh "hf" in
      let Hfree := fresh "Hfree" in
      let Hq := fresh "Hq" in
      destruct (free_mesh_spec m hk) as (hf & Hfree & Hq);
      [ cbn [verts polys regs flags areas];
        repeat (apply Forall_cons;
                split; [first [ by left
                              | right; lookup_chain; by eexists ]|]);
        constructor
      | cbn [verts polys regs flags areas distinct_blocks];
        repeat split;
        first [ exact I
              | by left
              | right; rewrite ?not_elem_of_cons; repeat split;
                first [ lia | apply not_elem_of_nil ] ]
      | rewrite Hfree, bind_Ok in Hrun;
        injection Hrun as <- <- <- <-;
        split; [reflexivity|]; split; [|split; [done|by right]];
        apply map_eq; intros q;
        cbn [verts polys regs flags areas] in Hq;
        destruct (Hq q) as (Q1 & Q2 & Q3) ]
  end.

Ltac close_lookup q Q1 Q2 Q3 Hfresh' :=
  destruct (decide (q = O)) as [->|?];
  [ rewrite Q3 by done; lookup_chain; done |];
  match type of Q2 with
  | (_ ∉ ?l -> _) =>
      let Hin := fresh "Hin" in
      destruct (decide (q ∈ l)) as [Hin|Hin];
      [ rewrite Q1 by done; symmetry; apply Hfresh';
        rewrite !elem_of_cons, elem_of_nil in Hin; lia
      | rewrite Q2 by done;
        rewrite !not_elem_of_cons in Hin; lookup_chain; done ]
  end.

(** Every way [rcpmBuildSerializedData] can return, on a record whose
    array pointers are null: with [false], and nothing left behind. *)
Lemma poly_build_frame (data : ptr) (size : Z) (r : rcPolyMesh) (out : build_out)
    (h : heap) (res : bool) (r' : option rcPolyMesh) (out' : build_out)
    (h' : heap) :
  rcpmBuildSerializedData data size (Some r) out h = Ok (res, r', out', h') ->
  verts r = O -> polys r = O -> regs r = O -> flags r = O -> areas r = O ->
  fresh_above h ->
  res = false /\ blocks h' = blocks h /\ out' = out
  /\ (r' = Some r \/ r' = Some cleared_mesh).
Proof.
  intros Hrun Hv Hp Hr Hf Ha Hfresh.
  destruct r as [rv rp rr rf ra n1 n2 n3 n4 bm bx c1 c2 bs].
  cbn [verts polys regs flags areas] in Hv, Hp, Hr, Hf, Ha. subst.
  unfold rcpmBuildSerializedData in Hrun.
  destruct data as [|d']; [injection Hrun as <- <- <- <-; auto|].
  destruct (maxVerts out); [|injection Hrun as <- <- <- <-; auto].
  destruct (walkableStep out); [|injection Hrun as <- <- <- <-; auto].
  destruct (walkableRadius out); [|injection Hrun as <- <- <- <-; auto].
  destruct (walkableHeight out); [|injection Hrun as <- <- <- <-; auto].
  cbn [polys Nat.eqb negb orb] in Hrun.
  destruct (size <? sizeof_header); [injection Hrun as <- <- <- <-; auto|].
  apply FlattenSuccess.bind_Ok_inv in Hrun as (hbytes & _ & Hrun).
  set (hd := header_of_bytes hbytes) in *.
  destruct (negb (h_version hd =? NMG_POLYMESH_VERSION));
    [injection Hrun as <- <- <- <-; auto|].
  cbv zeta in Hrun.
  destruct (size <? _); [injection Hrun as <- <- <- <-; auto|].
  set (nb := next_block h).
  assert (Hfresh' : forall q, (nb < q)%nat -> blocks h !! q = None)
    by exact Hfresh.
  (* the vertices *)
  destruct (alloc _ h) as [p1 h1] eqn:A1.
  destruct (alloc_frame _ _ _ _ A1 Hfresh)
    as (Hf1 & _ & [(-> & Hb1 & Hn1)|(-> & Hn1 & Hb1)]).
  { failed_exit Hrun Hfresh. close_lookup q Q1 Q2 Q3 Hfresh'. }
  fold nb in Hn1, Hb1, Hrun.
  change (S nb =? 0)%nat with false in Hrun. cbv iota in Hrun.
  (* the polygons *)
  destruct (alloc _ h1) as [p2 h2] eqn:A2.
  destruct (alloc_frame _ _ _ _ A2 Hf1)
    as (Hf2 & _ & [(-> & Hb2 & Hn2)|(-> & Hn2 & Hb2)]);
    rewrite ?Hn1 in Hn2, Hb2, Hrun.
  { failed_exit Hrun Hfresh. close_lookup q Q1 Q2 Q3 Hfresh'. }
  change (S (S nb) =? 0)%nat with false in Hrun. cbv iota in Hrun.
  (* the regions *)
  destruct (alloc _ h2) as [p3 h3] eqn:A3.
  destruct (alloc_frame _ _ _ _ A3 Hf2)
    as (Hf3 & _ & [(-> & Hb3 & Hn3)|(-> & Hn3 & Hb3)]);
    rewrite ?Hn2 in Hn3, Hb3, Hrun.
  { failed_exit Hrun Hfresh. close_lookup q Q1 Q2 Q3 Hfresh'. }
  change (S (S (S nb)) =? 0)%nat with false in Hrun. cbv iota in Hrun.
  (* the flags *)
  destruct (alloc _ h3) as [p4 h4] eqn:A4.
  destruct (alloc_frame _ _ _ _ A4 Hf3)
    as (Hf4 & _ & [(-> & Hb4 & Hn4)|(-> & Hn4 & Hb4)]);
    rewrite ?Hn3 in Hn4, Hb4, Hrun.
  { failed_exit Hrun Hfresh. close_lookup q Q1 Q2 Q3 Hfresh'. }
  change (S (S (S (S nb))) =? 0)%nat with false in Hrun. cbv iota in Hrun.
  (* the areas *)
  destruct (alloc _ h4) as [p5 h5] eqn:A5.
  destruct (alloc_frame _ _ _ _ A5 Hf4)
    as (Hf5 & _ & [(-> & Hb5 & Hn5)|(-> & Hn5 & Hb5)]);
    rewrite ?Hn4 in Hn5, Hb5, Hrun.
  { failed_exit Hrun Hfresh. close_lookup q Q1 Q2 Q3 Hfresh'. }
  change (S (S (S (S (S nb)))) =? 0)%nat with false in Hrun.
  cbv iota in Hrun.
  match type of Hrun with
  | context [set_fields ?m ?hb ?n] =>
      destruct (set_fields_faults m hb) as [f Hf]; rewrite Hf in Hrun
  end.
  discriminate Hrun.
Qed.

(** A polygon-mesh record in blocks 1 to 5: one vertex, one polygon of
    three indices. *)
Definition small_mesh : rcPolyMesh :=
  mkMesh 1%nat 2%nat 3%nat 4%nat 5%nat 1 1 1 3 (0, 0, 0) (16256, 16256, 16256)
    1045220557 1045220557 0.

Definition small_heap (budget : list bool) : heap :=
  {| blocks :=
       {[ 1%nat := [10; 0; 20; 0; 30; 0];
          2%nat := [0; 0; 0; 0; 0; 0; 255; 255; 255; 255; 255; 255];
          3%nat := [7; 0];
          4%nat := [1; 0];
          5%nat := [63] ]};
     next_block := 5;
     alloc_budget := budget |}.



(** X18. A call of [rcpmBuildSerializedData] that returns [false], on a
    record whose array pointers are null, leaves no block behind and
    writes none of the four output cells; the record is as it was, or
    cleared by [rcpmFreeMeshData]. *)
Theorem poly_failed_build_releases (data : ptr) (size : Z) (r : rcPolyMesh)
    (out : build_out) (h : heap) (r' : option rcPolyMesh)
    (out' : build_out) (h' : heap) :
  rcpmBuildSerializedData data size (Some r) out h
  = Ok (false, r', out', h') ->
  verts r = O -> polys r = O -> regs r = O -> flags r = O -> areas r = O ->
  fresh_above h ->
  blocks h' = blocks h /\ out' = out
  /\ (r' = Some r \/ r' = Some cleared_mesh).
Proof.
  intros Hrun Hv Hp Hr Hf Ha Hfresh.
  exact (proj2 (poly_build_frame data size r out h false r' out' h' Hrun Hv
                  Hp Hr Hf Ha Hfresh)).
Qed.





(** A header for one vertex and one polygon of three indices, and a
    buffer that starts with it. *)
Definition small_header : nmgPolyMeshHeader :=
  {| h_nverts := 1; h_npolys := 1; h_maxpolys := 1; h_nvp := 3;
     h_bmin := (0, 0, 0); h_bmax := (16256, 16256, 16256);
     h_cs := 1045220557; h_ch := 1045220557; h_borderSize := 0;
     h_maxverts := 1;
     h_walkableHeight := 2; h_walkableRadius := 3; h_walkableStep := 4;
     h_version := NMG_POLYMESH_VERSION |}.

Definition small_buffer : list Z :=
  header_bytes small_header
  ++ [10; 0; 20; 0; 30; 0]
  ++ [0; 0; 0; 0; 0; 0; 255; 255; 255; 255; 255; 255]
  ++ [7; 0] ++ [1; 0] ++ [63].

Definition buffer_heap (budget : list bool) : heap :=
  {| blocks := {[ 1%nat := small_buffer ]};
     next_block := 1;
     alloc_budget := budget |}.

Lemma buffer_heap_fresh (budget : list bool) : fresh_above (buffer_heap budget).
Proof.
  intros p Hp. unfold buffer_heap in *. cbn [blocks next_block] in *.
  apply lookup_singleton_ne. lia.
Qed.

Definition cells : build_out := mkOut (Some 0) (Some 0) (Some 0) (Some 0).

Lemma poly_failed_build_releases_witness :
  exists r' out' h',
    rcpmBuildSerializedData 1%nat 95 (Some cleared_mesh) cells
      (buffer_heap [true; true; true; false])
    = Ok (false, r', out', h')
    /\ blocks h' = blocks (buffer_heap [true; true; true; false])
    /\ out' = cells
    /\ (r' = Some cleared_mesh \/ r' = Some cleared_mesh).
Proof.
  eexists _, _, _.
  assert (Hrun : rcpmBuildSerializedData 1%nat 95 (Some cleared_mesh) cells
                   (buffer_heap [true; true; true; false])
                 = Ok (false, _, _, _)) by (vm_compute; reflexivity).
  split; [exact Hrun|].
  exact (poly_failed_build_releases _ _ _ _ _ _ _ _ Hrun eq_refl eq_refl
           eq_refl eq_refl eq_refl (buffer_heap_fresh _)).
Defined.


End PolyLifecycle.

(** * The vertex bound computed for a polygon mesh *)

Module MaxVertsFacts.
Import NMGen PolyMeshSerializer.

(** The entries of [polys] from [a] to [a + k] hold no null index: entry
    [a + k] is reached by the inner loop that starts at [a]. *)
Definition reached (polys : list Z) (a k : nat) : Prop :=
  forall k', (k' <= k)%nat -> polys !! (a + k')%nat <> Some RC_MESH_NULL_IDX.

(** The array holds [unsigned short] values. *)
Definition shorts (polys : list Z) : Prop :=
  Forall (fun v => 0 <= v <= 65535) polys.

Lemma load_at_nat (polys : list Z) (a : nat) :
  (a < length polys)%nat ->
  exists v, polys !! a = Some v /\ load_at polys (Z.of_nat a) = Ok v.
Proof.
  intros Ha. destruct (lookup_lt_is_Some_2 polys a Ha) as [v Hv].
  exists v. split; [exact Hv|]. unfold load_at.
  destruct (Z.ltb_spec (Z.of_nat a) 0); [lia|].
  rewrite Nat2Z.id, Hv. reflexivity.
Qed.

Lemma poly_max_index_spec (polys : list Z) :
  shorts polys -> Z.of_nat (length polys) < 2147483648 ->
  forall (n : nat) (p j maxIndex : Z) (a : nat),
    p + j = Z.of_nat a -> (a + n <= length polys)%nat ->
    0 <= maxIndex <= 65534 ->
    exists m,
      poly_max_index polys p n j maxIndex = Ok m
      /\ maxIndex <= m <= 65534
      /\ (forall k v, (k < n)%nat -> reached polys a k ->
            polys !! (a + k)%nat = Some v -> v <= m)
      /\ (m = maxIndex
          \/ exists k, (k < n)%nat /\ reached polys a k
               /\ polys !! (a + k)%nat = Some m).
Proof.
  intros Hs Hlen. induction n as [|n IH]; intros p j maxIndex a Ha Hn Hm.
  - exists maxIndex. split; [reflexivity|]. split; [lia|].
    split; [|by left]. intros k v Hk. lia.
  - cbn [poly_max_index]. rewrite Ha, int32_id by (unfold in_int32; lia).
    destruct (load_at_nat polys a ltac:(lia)) as (v0 & Hv0 & ->).
    cbn [mbind outcome_bind].
    pose proof (Forall_lookup_1 _ _ _ _ Hs Hv0) as Hr. cbv beta in Hr.
    destruct (Z.eqb_spec v0 RC_MESH_NULL_IDX) as [E|E].
    + exists maxIndex. split; [reflexivity|]. split; [lia|].
      split; [|by left]. intros k v Hk Hrun _. exfalso.
      apply (Hrun O ltac:(lia)). rewrite Nat.add_0_r, Hv0, E. reflexivity.
    + unfold RC_MESH_NULL_IDX in E.
      destruct (IH p (j + 1) (Z.max v0 maxIndex) (S a) ltac:(lia) ltac:(lia)
                  ltac:(lia)) as (m & -> & Hmm & Hub & Htight).
      exists m. split; [reflexivity|]. split; [lia|]. split.
      * intros k v Hk Hrun Hv. destruct k as [|k].
        -- rewrite Nat.add_0_r, Hv0 in Hv. injection Hv as <-. lia.
        -- apply (Hub k v ltac:(lia)).
           ++ intros k' Hk'. replace (S a + k')%nat with (a + S k')%nat by lia.
              apply Hrun. lia.
           ++ replace (S a + k)%nat with (a + S k)%nat by lia. exact Hv.
      * assert (Hrun0 : reached polys a 0).
        { intros k' Hk'. replace k' with O by lia.
          rewrite Nat.add_0_r, Hv0. intros [= X].
          unfold RC_MESH_NULL_IDX in X. lia. }
        destruct Htight as [->|(k & Hk & Hrun & Hv)].
        -- destruct (Z.max_spec v0 maxIndex) as [[_ ->]|[_ ->]]; [by left|].
           right. exists O. split; [lia|]. split; [exact Hrun0|].
           rewrite Nat.add_0_r. exact Hv0.
        -- right. exists (S k). split; [lia|]. split.
           ++ intros k' Hk'. destruct k' as [|k']; [apply Hrun0; lia|].
              replace (a + S k')%nat with (S a + k')%nat by lia.
              apply Hrun. lia.
           ++ replace (a + S k)%nat with (S a + k)%nat by lia. exact Hv.
Qed.

(** A vertex index of polygon [i]: entry [j] of the polygon, with no null
    index before it. *)
Definition vertex_of (polys : list Z) (nvp : nat) (i j : nat) (v : Z) : Prop :=
  (j < nvp)%nat /\ reached polys (i * 2 * nvp) j
  /\ polys !! (i * 2 * nvp + j)%nat = Some v.

Lemma mesh_max_index_spec (polys : list Z) (nvp : nat) :
  shorts polys -> Z.of_nat (length polys) < 2147483648 ->
  forall (n i : nat) (maxIndex : Z),
    ((i + n) * 2 * nvp <= length polys)%nat ->
    0 <= maxIndex <= 65534 ->
    exists m,
      mesh_max_index polys (Z.of_nat nvp) n (Z.of_nat i) maxIndex = Ok m
      /\ maxIndex <= m <= 65534
      /\ (forall i1 j v, (i <= i1 < i + n)%nat ->
            vertex_of polys nvp i1 j v -> v <= m)
      /\ (m = maxIndex
          \/ exists i1 j, (i <= i1 < i + n)%nat /\ vertex_of polys nvp i1 j m).
Proof.
  intros Hs Hlen. induction n as [|n IH]; intros i maxIndex Hn Hm.
  - exists maxIndex. split; [reflexivity|]. split; [lia|].
    split; [|by left]. intros i1 j v Hi. lia.
  - cbn [mesh_max_index]. rewrite LayoutFacts.int32_mul_l.
    assert (Hp : (i * 2 * nvp + nvp <= length polys)%nat) by nia.
    rewrite int32_id by (unfold in_int32; nia).
    rewrite Nat2Z.id.
    destruct (poly_max_index_spec polys Hs Hlen nvp
                (Z.of_nat i * 2 * Z.of_nat nvp) 0 maxIndex (i * 2 * nvp)
                ltac:(lia) Hp Hm) as (m1 & -> & Hm1 & Hub1 & Ht1).
    cbn [mbind outcome_bind].
    replace (Z.of_nat i + 1) with (Z.of_nat (S i)) by lia.
    destruct (IH (S i) m1 ltac:(nia) ltac:(lia))
      as (m & -> & Hmm & Hub & Ht).
    exists m. split; [reflexivity|]. split; [lia|]. split.
    + intros i1 j v Hi Hv.
      destruct (decide (i1 = i)) as [->|Hne].
      * destruct Hv as (Hj & Hrun & Hv).
        pose proof (Hub1 j v Hj Hrun Hv). lia.
      * apply (Hub i1 j v); [lia|exact Hv].
    + destruct Ht as [->|(i1 & j & Hi & Hv)].
      * destruct Ht1 as [->|(k & Hk & Hrun & Hv)]; [by left|].
        right. exists i, k. split; [lia|]. split; [exact Hk|]. split; done.
      * right. exists i1, j. split; [lia|exact Hv].
Qed.

(** X21. The vertex bound of a polygon mesh.  For a polygon array of
    [unsigned short] entries that holds [npolys] polygons of [2 * nvp]
    entries each, [getMaxVerts] returns a number between 1 and 65535 that
    is above every vertex index of every polygon (the entries of a
    polygon before its first null index), and that is exactly one more
    than such an index unless it is 1. *)
Theorem max_verts_bounds (polys : list Z) (npolys nvp : nat) :
  shorts polys -> Z.of_nat (length polys) < 2147483648 ->
  (npolys * 2 * nvp <= length polys)%nat ->
  exists r,
    getMaxVerts polys (Z.of_nat npolys) (Z.of_nat nvp) = Ok r
    /\ 1 <= r <= 65535
    /\ (forall i j v, (i < npolys)%nat -> vertex_of polys nvp i j v -> v < r)
    /\ (r = 1
        \/ exists i j, (i < npolys)%nat /\ vertex_of polys nvp i j (r - 1)).
Proof.
  intros Hs Hlen Hn. unfold getMaxVerts. rewrite Nat2Z.id.
  destruct (mesh_max_index_spec polys nvp Hs Hlen npolys 0 0 ltac:(lia)
              ltac:(lia)) as (m & Hrun & Hm & Hub & Ht).
  change (Z.of_nat 0) with 0 in Hrun. rewrite Hrun.
  cbn [mbind outcome_bind].
  rewrite int32_id by (unfold in_int32; lia).
  exists (m + 1). split; [reflexivity|]. split; [lia|]. split.
  - intros i j v Hi Hv. pose proof (Hub i j v ltac:(lia) Hv). lia.
  - destruct Ht as [->|(i & j & Hi & Hv)]; [by left|].
    right. exists i, j. split; [lia|].
    replace (m + 1 - 1) with m by lia. exact Hv.
Qed.

(** Two triangles stored with room for four vertices each: the second
    half of each polygon holds its neighbours. *)
Definition two_polys : list Z :=
  [0; 1; 2; 65535; 65535; 1; 65535; 65535;
   2; 1; 3; 65535; 1; 65535; 65535; 65535].

Lemma max_verts_bounds_witness :
  exists r,
    getMaxVerts two_polys 2 4 = Ok r
    /\ 1 <= r <= 65535
    /\ (forall i j v, (i < 2)%nat -> vertex_of two_polys 4 i j v -> v < r)
    /\ (r = 1
        \/ exists i j, (i < 2)%nat /\ vertex_of two_polys 4 i j (r - 1)).
Proof.
  apply (max_verts_bounds two_polys 2 4).
  - unfold shorts, two_polys. repeat (apply Forall_cons; split; [lia|]).
    constructor.
  - vm_compute. reflexivity.
  - vm_compute. lia.
Defined.

End MaxVertsFacts.
